(** * Shallow embedding of [api.py]: rate limiting, e-mail archive and analytics

    The service keeps two pieces of state: the JSON file [rate_limits.json]
    and the module-level list [saved_emails].  Handlers are embedded as
    computations in a state-and-exception monad over that state; the clock,
    the random generator and the text-generation provider are inputs. *)

From Stdlib Require Import ZArith List String Ascii Bool Lia.
From Stdlib Require Import Permutation Sorted DecimalString.
From Stdlib Require DecimalPos DecimalZ.
Import ListNotations.
Open Scope Z_scope.

(* ================================================================== *)
(** ** Exceptions and results *)

(** The exception classes that the modelled code can raise.
    [HTTPException] carries its status code and detail. *)
Inductive exn : Type :=
| KeyError
| TypeError
| ValueError
| AttributeError
| OverflowError
| HTTPException (status_code : Z) (detail : string).

Inductive result (A : Type) : Type :=
| Ok (a : A)
| Raise (e : exn).
Arguments Ok {A} a.
Arguments Raise {A} e.

Definition rbind {A B} (r : result A) (k : A -> result B) : result B :=
  match r with
  | Ok a => k a
  | Raise e => Raise e
  end.

(* ================================================================== *)
(** ** [datetime] *)

(** A naive [datetime.datetime]: the seven fields of the Python object. *)
Record datetime : Type := mkdt {
  year : Z; month : Z; day : Z;
  hour : Z; minute : Z; second : Z; microsecond : Z
}.

Definition is_leap (y : Z) : bool :=
  (y mod 4 =? 0) && (negb (y mod 100 =? 0) || (y mod 400 =? 0)).

Definition days_in_month (y m : Z) : Z :=
  if m =? 2 then (if is_leap y then 29 else 28)
  else if (m =? 4) || (m =? 6) || (m =? 9) || (m =? 11) then 30
  else 31.

Definition days_before_year (y : Z) : Z :=
  let y1 := y - 1 in y1 * 365 + y1 / 4 - y1 / 100 + y1 / 400.

Definition days_before_month (y m : Z) : Z :=
  nth (Z.to_nat (m - 1)) [0; 31; 59; 90; 120; 151; 181; 212; 243; 273; 304; 334] 0
  + (if (2 <? m) && is_leap y then 1 else 0).

(** Proleptic Gregorian ordinal, 0001-01-01 being day 1. *)
Definition ymd2ord (y m d : Z) : Z :=
  days_before_year y + days_before_month y m + d.

Definition valid_date (y m d : Z) : bool :=
  (1 <=? y) && (y <=? 9999) && (1 <=? m) && (m <=? 12)
  && (1 <=? d) && (d <=? days_in_month y m).

Definition valid_datetime (t : datetime) : bool :=
  valid_date (year t) (month t) (day t)
  && (0 <=? hour t) && (hour t <=? 23)
  && (0 <=? minute t) && (minute t <=? 59)
  && (0 <=? second t) && (second t <=? 59)
  && (0 <=? microsecond t) && (microsecond t <=? 999999).

Definition hour_us : Z := 3600 * 1000000.
Definition day_us : Z := 24 * hour_us.

(** Microseconds elapsed since the start of ordinal day 0. *)
Definition to_us (t : datetime) : Z :=
  ymd2ord (year t) (month t) (day t) * day_us
  + hour t * hour_us + minute t * (60 * 1000000)
  + second t * 1000000 + microsecond t.

(** [a - b] on datetimes is a [timedelta]; it is kept as its total number
    of microseconds. *)
Definition timedelta : Type := Z.
Definition dt_sub (a b : datetime) : timedelta := to_us a - to_us b.

(** [td.days]: the normalised day field, a floor division. *)
Definition td_days (td : timedelta) : Z := td / day_us.

(** [td.total_seconds() < n] for an integer [n].  [total_seconds] is the
    correctly rounded quotient of the microsecond count by 10**6, so the
    comparison with a whole number of seconds agrees with the comparison
    of the microsecond counts. *)
Definition total_seconds_lt (td : timedelta) (n : Z) : bool := td <? n * 1000000.

(** [datetime(y, m, d, H, M)] as built by [strptime]: out-of-range fields
    are a [ValueError]. *)
Definition make_datetime (y m d h mi : Z) : result datetime :=
  let t := mkdt y m d h mi 0 0 in
  if valid_datetime t then Ok t else Raise ValueError.

(* ================================================================== *)
(** ** [strftime] and [strptime] for the three formats in use *)

(** Strings hold text in UTF-8: an ASCII character is one byte, any other
    character is the sequence of its bytes.  A digit is one of [0-9].
    [%Y] prints the year on four digits with leading zeros, as the library
    documents it. *)

Definition digit_of (c : ascii) : option Z :=
  let n := Z.of_N (N_of_ascii c) in
  if (48 <=? n) && (n <=? 57) then Some (n - 48) else None.

Definition digit_char (d : Z) : ascii := ascii_of_N (Z.to_N (48 + d)).

Definition pad2 (n : Z) : string :=
  String (digit_char (n / 10)) (String (digit_char (n mod 10)) EmptyString).

Definition pad4 (n : Z) : string :=
  String (digit_char (n / 1000))
    (String (digit_char (n / 100 mod 10)) (pad2 (n mod 100))).

(** ["%Y-%m-%d"] *)
Definition strftime_day (t : datetime) : string :=
  (pad4 (year t) ++ "-" ++ pad2 (month t) ++ "-" ++ pad2 (day t))%string.

(** ["%Y-%m-%d-%H"] *)
Definition strftime_hour (t : datetime) : string :=
  (strftime_day t ++ "-" ++ pad2 (hour t))%string.

(** ["%Y-%m-%d %H:%M"] *)
Definition strftime_minute (t : datetime) : string :=
  (strftime_day t ++ " " ++ pad2 (hour t) ++ ":" ++ pad2 (minute t))%string.

(** [str.isspace] on one ASCII character. *)
Definition is_space (c : ascii) : bool :=
  let n := Z.of_N (N_of_ascii c) in
  ((9 <=? n) && (n <=? 13)) || ((28 <=? n) && (n <=? 32)).

Definition byte_code (c : ascii) : Z := Z.of_N (N_of_ascii c).

(** The white-space characters of three bytes: U+1680, U+2000 to U+200A,
    U+2028, U+2029, U+202F, U+205F and U+3000. *)
Definition wide_space (b1 b2 b3 : Z) : bool :=
  ((b1 =? 225) && (b2 =? 154) && (b3 =? 128))
  || ((b1 =? 226) && (b2 =? 128)
      && (((128 <=? b3) && (b3 <=? 138)) || (b3 =? 168) || (b3 =? 169) || (b3 =? 175)))
  || ((b1 =? 226) && (b2 =? 129) && (b3 =? 159))
  || ((b1 =? 227) && (b2 =? 128) && (b3 =? 128)).

(** The number of bytes of the white-space character that [s] starts with,
    0 when it starts with none.  White space is what [str.isspace] accepts,
    which is also the class [\s] of a text pattern: the ASCII ones, U+0085
    and U+00A0 (two bytes), and the three-byte ones above. *)
Definition space_len (s : string) : nat :=
  match s with
  | EmptyString => 0%nat
  | String c r =>
      if is_space c then 1%nat
      else if byte_code c =? 194 then
        match r with
        | String c2 _ =>
            if (byte_code c2 =? 133) || (byte_code c2 =? 160) then 2%nat else 0%nat
        | EmptyString => 0%nat
        end
      else if (byte_code c =? 225) || (byte_code c =? 226) || (byte_code c =? 227) then
        match r with
        | String c2 (String c3 _) =>
            if wide_space (byte_code c) (byte_code c2) (byte_code c3)
            then 3%nat else 0%nat
        | _ => 0%nat
        end
      else 0%nat
  end.

(** [strptime] compiles the format to a regular expression and takes the
    first match in backtracking order.  Each piece below lists the ways it
    can match a prefix of the input, in that order, with what is left. *)
Definition one_digit (p : Z -> bool) (s : string) : list (Z * string) :=
  match s with
  | String c r =>
      match digit_of c with
      | Some d => if p d then [(d, r)] else []
      | None => []
      end
  | EmptyString => []
  end.

Definition two_digits (p1 p2 : Z -> bool) (s : string) : list (Z * string) :=
  flat_map (fun x => map (fun y => (10 * fst x + fst y, snd y)) (one_digit p2 (snd x)))
           (one_digit p1 s).

Definition any_digit (d : Z) : bool := true.
Definition between (lo hi d : Z) : bool := (lo <=? d) && (d <=? hi).

(** [\d\d\d\d] *)
Definition re_Y (s : string) : list (Z * string) :=
  flat_map (fun x => map (fun y => (100 * fst x + fst y, snd y))
                         (two_digits any_digit any_digit (snd x)))
           (two_digits any_digit any_digit s).

(** [1[0-2]|0[1-9]|[1-9]] *)
Definition re_m (s : string) : list (Z * string) :=
  (two_digits (Z.eqb 1) (between 0 2) s
   ++ two_digits (Z.eqb 0) (between 1 9) s
   ++ one_digit (between 1 9) s)%list.

(** The alternative [ [1-9]] of [%d]: a space, then a digit. *)
Definition space_digit (s : string) : list (Z * string) :=
  match s with
  | String " " r => one_digit (between 1 9) r
  | _ => []
  end.

(** [3[0-1]|[1-2]\d|0[1-9]|[1-9]| [1-9]] *)
Definition re_d (s : string) : list (Z * string) :=
  (two_digits (Z.eqb 3) (between 0 1) s
   ++ two_digits (between 1 2) any_digit s
   ++ two_digits (Z.eqb 0) (between 1 9) s
   ++ one_digit (between 1 9) s
   ++ space_digit s)%list.

(** [2[0-3]|[0-1]\d|\d] *)
Definition re_H (s : string) : list (Z * string) :=
  (two_digits (Z.eqb 2) (between 0 3) s
   ++ two_digits (between 0 1) any_digit s
   ++ one_digit any_digit s)%list.

(** [[0-5]\d|\d] *)
Definition re_M (s : string) : list (Z * string) :=
  (two_digits (between 0 5) any_digit s ++ one_digit any_digit s)%list.

(** A literal character of the format. *)
Definition lit (c : ascii) (s : string) : list string :=
  match s with
  | String c' r => if Ascii.eqb c c' then [r] else []
  | EmptyString => []
  end.

(** [\s*] and [\s+], greedy: the longest run first.  [skip] counts the
    bytes still to pass of the white-space character being read. *)
Fixpoint ws_star_from (skip : nat) (s : string) : list string :=
  match s with
  | EmptyString => match skip with O => [s] | S _ => [] end
  | String c r =>
      match skip with
      | S k => ws_star_from k r
      | O => match space_len s with
             | S k => (ws_star_from k r ++ [s])%list
             | O => [s]
             end
      end
  end.

Definition ws_star (s : string) : list string := ws_star_from 0 s.

Definition ws_plus (s : string) : list string :=
  match s with
  | String c r => match space_len s with
                  | S k => ws_star_from k r
                  | O => []
                  end
  | EmptyString => []
  end.

(** All matches of [%Y-%m-%d] at the start of [s], in backtracking order. *)
Definition re_ymd (s : string) : list (Z * Z * Z * string) :=
  flat_map (fun y =>
  flat_map (fun s1 =>
  flat_map (fun m =>
  flat_map (fun s2 =>
  map (fun d => (fst y, fst m, fst d, snd d)) (re_d s2))
  (lit "-" (snd m))) (re_m s1)) (lit "-" (snd y))) (re_Y s).

(** The match must consume the whole string ("unconverted data remains"
    otherwise). *)
Definition whole {A} (m : option (A * string)) : result A :=
  match m with
  | Some (a, EmptyString) => Ok a
  | _ => Raise ValueError
  end.

(** [datetime.strptime(s, "%Y-%m-%d")] *)
Definition strptime_day (s : string) : result datetime :=
  rbind (whole (hd_error (re_ymd s)))
        (fun '(y, m, d) => make_datetime y m d 0 0).

(** [datetime.strptime(s, "%Y-%m-%d-%H")] *)
Definition strptime_hour (s : string) : result datetime :=
  rbind (whole (hd_error
           (flat_map (fun x =>
            flat_map (fun s1 =>
            map (fun h => (fst x, fst h, snd h)) (re_H s1))
            (lit "-" (snd x))) (re_ymd s))))
        (fun '(y, m, d, h) => make_datetime y m d h 0).

(** [datetime.strptime(s, "%Y-%m-%d %H:%M")]; the blank of the format
    matches any run of white space. *)
Definition strptime_minute (s : string) : result datetime :=
  rbind (whole (hd_error
           (flat_map (fun x =>
            flat_map (fun s1 =>
            flat_map (fun h =>
            flat_map (fun s2 =>
            map (fun mi => (fst x, fst h, fst mi, snd mi)) (re_M s2))
            (lit ":" (snd h))) (re_H s1))
            (ws_plus (snd x))) (re_ymd s))))
        (fun '(y, m, d, h, mi) => make_datetime y m d h mi).

(** Midnight of the day of [t], and the start of its hour and minute. *)
Definition day_start (t : datetime) : datetime :=
  mkdt (year t) (month t) (day t) 0 0 0 0.
Definition hour_start (t : datetime) : datetime :=
  mkdt (year t) (month t) (day t) (hour t) 0 0 0.
Definition minute_start (t : datetime) : datetime :=
  mkdt (year t) (month t) (day t) (hour t) (minute t) 0 0.

(* ================================================================== *)
(** ** Values loaded from JSON, and dictionaries *)

#[local] Set Warnings "-register-all".

(** What [json.load] can return.  A JSON object becomes a [dict] with
    string keys; it is kept as the list of its items in insertion order.
    Numbers with a fraction are left out: the program only ever writes
    integer counts. *)
Inductive pyval : Type :=
| PNone
| PBool (b : bool)
| PInt (z : Z)
| PStr (s : string)
| PList (l : list pyval)
| PDict (d : list (string * pyval)).

Section Dict.
Context {V : Type}.

(** [d.get(k)] *)
Fixpoint dict_get (k : string) (d : list (string * V)) : option V :=
  match d with
  | [] => None
  | (k', v) :: r => if String.eqb k k' then Some v else dict_get k r
  end.

(** [k in d] *)
Definition dict_mem (k : string) (d : list (string * V)) : bool :=
  match dict_get k d with Some _ => true | None => false end.

(** [d[k] = v]: an existing key keeps its place, a new one goes last. *)
Fixpoint dict_set (k : string) (v : V) (d : list (string * V)) : list (string * V) :=
  match d with
  | [] => [(k, v)]
  | (k', v') :: r =>
      if String.eqb k k' then (k, v) :: r else (k', v') :: dict_set k v r
  end.

Definition keys (d : list (string * V)) : list string := map fst d.
End Dict.

(** [v[k]] for a string [k]. *)
Definition getitem (v : pyval) (k : string) : result pyval :=
  match v with
  | PDict d => match dict_get k d with Some x => Ok x | None => Raise KeyError end
  | _ => Raise TypeError
  end.

(** [v[k] = x] for a string [k]; the updated container. *)
Definition setitem (v : pyval) (k : string) (x : pyval) : result pyval :=
  match v with
  | PDict d => Ok (PDict (dict_set k x d))
  | _ => Raise TypeError
  end.

(** [v.items()] *)
Definition items (v : pyval) : result (list (string * pyval)) :=
  match v with
  | PDict d => Ok d
  | _ => Raise AttributeError
  end.

(** [v.get(k, default)] *)
Definition get_method (v : pyval) (k : string) (default : pyval) : result pyval :=
  match v with
  | PDict d => Ok (match dict_get k d with Some x => x | None => default end)
  | _ => Raise AttributeError
  end.

Definition is_substring (k s : string) : bool :=
  match String.index 0 k s with Some _ => true | None => false end.

(** [k in v] for a string [k]: key of a dict, element of a list,
    substring of a string. *)
Definition contains (v : pyval) (k : string) : result bool :=
  match v with
  | PDict d => Ok (dict_mem k d)
  | PList l => Ok (existsb (fun x => match x with PStr s => String.eqb s k | _ => false end) l)
  | PStr s => Ok (is_substring k s)
  | _ => Raise TypeError
  end.

(** [v >= n] for an integer [n]; [bool] is a subclass of [int]. *)
Definition ge_int (v : pyval) (n : Z) : result bool :=
  match v with
  | PInt z => Ok (n <=? z)
  | PBool b => Ok (n <=? (if b then 1 else 0))
  | _ => Raise TypeError
  end.

(** [v + n] for an integer [n]. *)
Definition add_int (v : pyval) (n : Z) : result pyval :=
  match v with
  | PInt z => Ok (PInt (z + n))
  | PBool b => Ok (PInt ((if b then 1 else 0) + n))
  | _ => Raise TypeError
  end.

(** [v[k1][k2] = x], the inner container being updated in place. *)
Definition setitem2 (v : pyval) (k1 k2 : string) (x : pyval) : result pyval :=
  rbind (getitem v k1) (fun inner =>
  rbind (setitem inner k2 x) (fun inner' =>
  setitem v k1 inner')).

(** [v[k1][k2][k3] = x] *)
Definition setitem3 (v : pyval) (k1 k2 k3 : string) (x : pyval) : result pyval :=
  rbind (getitem v k1) (fun inner =>
  rbind (getitem inner k2) (fun inner2 =>
  rbind (setitem inner2 k3 x) (fun inner2' =>
  rbind (setitem inner k2 inner2') (fun inner' =>
  setitem v k1 inner')))).

(* ================================================================== *)
(** ** Program state and the handler monad *)

(** [rate_limits.json] as [load_rate_limits] sees it: absent; present but
    [open] or [json.load] raises; or present with a JSON value. *)
Inductive file_state : Type :=
| FileMissing
| FileUnreadable
| FileJson (v : pyval).

(** An entry of [saved_emails]. *)
Record email : Type := mkEmail {
  id : string; date : string; recipient : string;
  company : string; subject : string; content : string
}.

Record world : Type := mkWorld {
  rate_limit_file : file_state;
  saved_emails : list email
}.

Definition M (A : Type) : Type := world -> result A * world.

Definition ret {A} (a : A) : M A := fun w => (Ok a, w).
Definition raise {A} (e : exn) : M A := fun w => (Raise e, w).
Definition bind {A B} (c : M A) (k : A -> M B) : M B :=
  fun w => match c w with
           | (Ok a, w') => k a w'
           | (Raise e, w') => (Raise e, w')
           end.
Definition lift {A} (r : result A) : M A := fun w => (r, w).

Notation "x <- c ;; k" := (bind c (fun x => k))
  (at level 61, c at next level, right associativity).
Notation "c ;;; k" := (bind c (fun _ => k))
  (at level 61, right associativity).

(* ================================================================== *)
(** ** Rate limiting *)

Definition MAX_REQUESTS_PER_DAY : Z := 15.
Definition MAX_REQUESTS_PER_HOUR : Z := 5.

Definition daily_message : string :=
  "Request limit exceeded. Please try again tomorrow.".
Definition hourly_message : string :=
  "Request limit exceeded. Please try again later.".

Definition empty_limits : pyval :=
  PDict [("daily"%string, PDict []); ("hourly"%string, PDict [])].

Definition load_rate_limits : M pyval :=
  fun w => match rate_limit_file w with
           | FileMissing => (Ok empty_limits, w)
           | FileUnreadable => (Ok empty_limits, w)
           | FileJson v => (Ok v, w)
           end.

(** Writing the file is taken to succeed. *)
Definition save_rate_limits (data : pyval) : M unit :=
  fun w => (Ok tt, mkWorld (FileJson data) (saved_emails w)).

(** The two clean-up loops of [check_rate_limit]: every label is parsed,
    and the bucket is copied to the new dict when it is recent enough. *)
Fixpoint prune (parse : string -> result datetime) (recent : datetime -> bool)
         (its acc : list (string * pyval)) : result (list (string * pyval)) :=
  match its with
  | [] => Ok acc
  | (label, users) :: rest =>
      rbind (parse label) (fun dt =>
      prune parse recent rest (if recent dt then dict_set label users acc else acc))
  end.

Definition recent_day (now day_dt : datetime) : bool :=
  td_days (dt_sub now day_dt) <? 1.
Definition recent_hour (now hour_dt : datetime) : bool :=
  total_seconds_lt (dt_sub now hour_dt) 3600.

(** [if label not in rate_limits[table]: rate_limits[table][label] = {}] *)
Definition init_bucket (rate_limits : pyval) (table label : string) : result pyval :=
  rbind (getitem rate_limits table) (fun t =>
  rbind (contains t label) (fun present =>
  if present then Ok rate_limits
  else setitem2 rate_limits table label (PDict []))).

(** [rate_limits[table][label].get(session_id, 0)] *)
Definition current_count (rate_limits : pyval) (table label session_id : string)
  : result pyval :=
  rbind (getitem rate_limits table) (fun t =>
  rbind (getitem t label) (fun users =>
  get_method users session_id (PInt 0))).

Definition check_rate_limit (session_id : string) (now : datetime) : M (bool * string) :=
  let today := strftime_day now in
  let this_hour := strftime_hour now in
  rate_limits <- load_rate_limits ;;
  daily <- lift (getitem rate_limits "daily") ;;
  daily_items <- lift (items daily) ;;
  daily_limits <- lift (prune strptime_day (recent_day now) daily_items []) ;;
  rate_limits <- lift (setitem rate_limits "daily" (PDict daily_limits)) ;;
  hourly <- lift (getitem rate_limits "hourly") ;;
  hourly_items <- lift (items hourly) ;;
  hourly_limits <- lift (prune strptime_hour (recent_hour now) hourly_items []) ;;
  rate_limits <- lift (setitem rate_limits "hourly" (PDict hourly_limits)) ;;
  rate_limits <- lift (init_bucket rate_limits "daily" today) ;;
  rate_limits <- lift (init_bucket rate_limits "hourly" this_hour) ;;
  daily_count <- lift (current_count rate_limits "daily" today session_id) ;;
  hourly_count <- lift (current_count rate_limits "hourly" this_hour session_id) ;;
  over_day <- lift (ge_int daily_count MAX_REQUESTS_PER_DAY) ;;
  if over_day then ret (false, daily_message)
  else
    over_hour <- lift (ge_int hourly_count MAX_REQUESTS_PER_HOUR) ;;
    if over_hour then ret (false, hourly_message)
    else ret (true, EmptyString).

(** [rate_limits[table][label][session_id] =
       rate_limits[table][label].get(session_id, 0) + 1] *)
Definition bump_count (rate_limits : pyval) (table label session_id : string)
  : result pyval :=
  rbind (current_count rate_limits table label session_id) (fun c =>
  rbind (add_int c 1) (fun c' =>
  setitem3 rate_limits table label session_id c')).

Definition increment_rate_limit (session_id : string) (now : datetime) : M unit :=
  let today := strftime_day now in
  let this_hour := strftime_hour now in
  rate_limits <- load_rate_limits ;;
  rate_limits <- lift (init_bucket rate_limits "daily" today) ;;
  rate_limits <- lift (init_bucket rate_limits "hourly" this_hour) ;;
  rate_limits <- lift (bump_count rate_limits "daily" today session_id) ;;
  rate_limits <- lift (bump_count rate_limits "hourly" this_hour session_id) ;;
  save_rate_limits rate_limits.

(* ================================================================== *)
(** ** Well-formed rate-limit tables *)

(** The shape the program itself writes: bucket label -> session -> count. *)
Definition bucket : Type := list (string * Z).
Definition table : Type := list (string * bucket).

Definition enc_bucket (b : bucket) : pyval :=
  PDict (map (fun kv => (fst kv, PInt (snd kv))) b).
Definition enc_table (t : table) : pyval :=
  PDict (map (fun kb => (fst kb, enc_bucket (snd kb))) t).
Definition enc_store (d h : table) : pyval :=
  PDict [("daily"%string, enc_table d); ("hourly"%string, enc_table h)].

(** What is on disk: no file, a file that cannot be read or parsed, or a
    file holding a daily and an hourly table. *)
Inductive store : Type :=
| NoFile
| BadFile
| Tables (d h : table).

Definition file_of (s : store) : file_state :=
  match s with
  | NoFile => FileMissing
  | BadFile => FileUnreadable
  | Tables d h => FileJson (enc_store d h)
  end.

Definition daily_of (s : store) : table :=
  match s with Tables d _ => d | _ => [] end.
Definition hourly_of (s : store) : table :=
  match s with Tables _ h => h | _ => [] end.

Fixpoint nodupb (l : list string) : bool :=
  match l with
  | [] => true
  | x :: r => negb (existsb (String.eqb x) r) && nodupb r
  end.

Definition parses (parse : string -> result datetime) (label : string) : bool :=
  match parse label with Ok _ => true | Raise _ => false end.

(** Labels are distinct (it is a dict) and each one parses in its format. *)
Definition wf_table (parse : string -> result datetime) (t : table) : bool :=
  nodupb (keys t) && forallb (fun kb => parses parse (fst kb)) t.

Definition wf_store (s : store) : bool :=
  wf_table strptime_day (daily_of s) && wf_table strptime_hour (hourly_of s).

(** The count of a session in a bucket, 0 when either is absent. *)
Definition count (t : table) (label session_id : string) : Z :=
  match dict_get label t with
  | Some b => match dict_get session_id b with Some n => n | None => 0 end
  | None => 0
  end.

(** The table [check_rate_limit] works on after its clean-up loop. *)
Definition pruned (parse : string -> result datetime) (recent : datetime -> bool)
           (t : table) : table :=
  filter (fun kb => match parse (fst kb) with
                    | Ok dt => recent dt
                    | Raise _ => false
                    end) t.
Definition pruned_daily (now : datetime) : table -> table :=
  pruned strptime_day (recent_day now).
Definition pruned_hourly (now : datetime) : table -> table :=
  pruned strptime_hour (recent_hour now).

(** A bucket is older than its window: its label is a time more than one
    day, respectively more than 3600 seconds, before [now]. *)
Definition older_than_day (now : datetime) (label : string) : bool :=
  match strptime_day label with
  | Ok dt => day_us <? dt_sub now dt
  | Raise _ => false
  end.
Definition older_than_hour (now : datetime) (label : string) : bool :=
  match strptime_hour label with
  | Ok dt => hour_us <? dt_sub now dt
  | Raise _ => false
  end.

Definition drop_old (old : string -> bool) (t : table) : table :=
  filter (fun kb => negb (old (fst kb))) t.

(** The decision in the words of the specification: the daily limit
    first, then the hourly one. *)
Definition limit_decision (daily_count hourly_count : Z) : bool * string :=
  if 15 <=? daily_count then (false, daily_message)
  else if 5 <=? hourly_count then (false, hourly_message)
  else (true, EmptyString).

(** What [increment_rate_limit] does to one table. *)
Definition ensure (label : string) (t : table) : table :=
  if dict_mem label t then t else dict_set label [] t.
Definition bump (label session_id : string) (t : table) : table :=
  match dict_get label t with
  | Some b =>
      dict_set label
        (dict_set session_id
           (match dict_get session_id b with Some n => n | None => 0 end + 1) b) t
  | None => t
  end.
Definition incr_table (label session_id : string) (t : table) : table :=
  bump label session_id (ensure label t).

(** A run of accepted generations: each one calls [increment_rate_limit]
    once, for its session and at its time. *)
Fixpoint accept_all (evs : list (string * datetime)) : M unit :=
  match evs with
  | [] => ret tt
  | ev :: rest => increment_rate_limit (fst ev) (snd ev) ;;; accept_all rest
  end.

(** How many of them were for [session_id] in the bucket of [now]. *)
Definition accepted_in (label_of : datetime -> string) (session_id : string)
           (now : datetime) (evs : list (string * datetime)) : Z :=
  Z.of_nat (List.length (filter (fun ev => String.eqb (fst ev) session_id
                                      && String.eqb (label_of (snd ev)) (label_of now))
                           evs)).

(** The store after one accepted generation, and after a run of them. *)
Definition incr_store (session_id : string) (t : datetime) (s : store) : store :=
  Tables (incr_table (strftime_day t) session_id (daily_of s))
         (incr_table (strftime_hour t) session_id (hourly_of s)).

Definition apply_events (evs : list (string * datetime)) (s : store) : store :=
  fold_left (fun s ev => incr_store (fst ev) (snd ev) s) evs s.

(** A computation that leaves the file and the archive as they were,
    whatever it returns or raises. *)
Definition read_only {A} (c : M A) : Prop := forall w, snd (c w) = w.

(** A computation that leaves the archive as it was. *)
Definition keeps_archive {A} (c : M A) : Prop :=
  forall w, saved_emails (snd (c w)) = saved_emails w.

(* ================================================================== *)
(** ** The e-mail archive and the generation handler *)

Definition get_saved : M (list email) := fun w => (Ok (saved_emails w), w).
Definition put_saved (l : list email) : M unit :=
  fun w => (Ok tt, mkWorld (rate_limit_file w) l).

(** [len(l)] *)
Definition len {A} (l : list A) : Z := Z.of_nat (List.length l).

(** [str(n)] for an integer. *)
Definition str (n : Z) : string := NilZero.string_of_int (Z.to_int n).

(** [bool(s)] for a string. *)
Definition truthy (s : string) : bool := negb (String.eqb s EmptyString).

(** Leading white space removed; [skip] as in [ws_star_from]. *)
Fixpoint lstrip_from (skip : nat) (s : string) : string :=
  match s with
  | EmptyString => EmptyString
  | String c r =>
      match skip with
      | S k => lstrip_from k r
      | O => match space_len s with
             | S k => lstrip_from k r
             | O => s
             end
      end
  end.

Definition lstrip (s : string) : string := lstrip_from 0 s.

(** [s] is white space throughout. *)
Fixpoint all_space_from (skip : nat) (s : string) : bool :=
  match s with
  | EmptyString => true
  | String c r =>
      match skip with
      | S k => all_space_from k r
      | O => match space_len s with
             | S k => all_space_from k r
             | O => false
             end
      end
  end.

(** Trailing white space removed: the string is cut where only white
    space follows. *)
Fixpoint rstrip (s : string) : string :=
  match s with
  | EmptyString => EmptyString
  | String c r => if all_space_from 0 s then EmptyString else String c (rstrip r)
  end.

(** [s.strip()] *)
Definition strip (s : string) : string := rstrip (lstrip s).

(** The fields of [EmailGenerationRequest]; [length] and [session_id] carry
    a prefix here. *)
Record EmailGenerationRequest : Type := mkRequest {
  sender_company : string;
  target_company : string;
  industry : string;
  person_name : string;
  role : string;
  email_subject : string;
  tone : string;
  req_length : string;
  custom_instructions : option string;
  req_session_id : option string
}.

Record EmailResponse : Type := mkResponse {
  email_text : string;
  response_subject : string
}.

(** How one call to the provider ends: with the text of the first choice,
    with an [AttributeError] (the client has no such attribute, or the
    content has no [strip]), or with any other exception; the failures
    carry [str(e)]. *)
Inductive completion : Type :=
| Completed (text : string)
| NoAttribute (msg : string)
| Failed (msg : string).

(** What one request takes from outside the program: the random draws,
    the clock at each reading, and the answers of the two client forms. *)
Record environment : Type := mkEnv {
  rand_session : Z;             (* random.randint(10000, 99999) *)
  now_check : datetime;         (* datetime.now() in check_rate_limit *)
  now_increment : datetime;     (* datetime.now() in increment_rate_limit *)
  chat_completions : completion;(* client.chat.completions.create(...) *)
  ChatCompletion : completion;  (* client.ChatCompletion.create(...) *)
  rand_id : Z;                  (* random.randint(1000, 9999) *)
  now_saved : datetime          (* datetime.now() for the entry's date *)
}.

(** The two provider calls of the [try] block: the new client form first,
    the older one when that raises [AttributeError].  A failure is what the
    enclosing [except Exception as e] receives, as [str(e)].  ([client] is
    the [openai] module, so [if not client] never fires.) *)
Definition generate (env : environment) : string + string :=
  match chat_completions env with
  | Completed text => inl (strip text)
  | NoAttribute _ =>
      match ChatCompletion env with
      | Completed text => inl (strip text)
      | NoAttribute msg => inr msg
      | Failed msg => inr msg
      end
  | Failed msg => inr msg
  end.

Definition valid_request (request : EmailGenerationRequest) : bool :=
  forallb truthy [sender_company request; target_company request;
                  person_name request; role request; email_subject request].

(** [request.session_id or str(random.randint(10000, 99999))] *)
Definition session_of (request : EmailGenerationRequest) (env : environment) : string :=
  match req_session_id request with
  | Some s => if truthy s then s else str (rand_session env)
  | None => str (rand_session env)
  end.

(** The prompt only reaches the provider, whose answer is an input here;
    it is not built. *)
Definition generate_email (request : EmailGenerationRequest) (env : environment)
  : M EmailResponse :=
  if negb (valid_request request)
  then raise (HTTPException 400 "All fields are required")
  else
    let session_id := session_of request env in
    checked <- check_rate_limit session_id (now_check env) ;;
    if negb (fst checked) then raise (HTTPException 429 (snd checked))
    else
      increment_rate_limit session_id (now_increment env) ;;;
      match generate env with
      | inr msg => raise (HTTPException 500 ("Error generating email: " ++ msg)%string)
      | inl response_text =>
          emails <- get_saved ;;
          let email_id := (str (len emails + 1) ++ "_" ++ str (rand_id env))%string in
          put_saved (emails ++ [mkEmail email_id
                                        (strftime_minute (now_saved env))
                                        (person_name request)
                                        (target_company request)
                                        (email_subject request)
                                        response_text]) ;;;
          ret (mkResponse response_text (email_subject request))
      end.

(** The status a client sees: the code of an [HTTPException], 500 for any
    other exception, 200 otherwise. *)
Definition status_of {A} (r : result A) : Z :=
  match r with
  | Ok _ => 200
  | Raise (HTTPException code _) => code
  | Raise _ => 500
  end.

(** A slice bound as Python normalises it for a sequence of length [n]. *)
Definition slice_index (n i : Z) : Z :=
  if i <? 0 then Z.max (i + n) 0 else Z.min i n.

(** [l[start:stop]] *)
Definition py_slice {A} (l : list A) (start stop : Z) : list A :=
  let a := slice_index (len l) start in
  let b := slice_index (len l) stop in
  firstn (Z.to_nat (b - a)) (skipn (Z.to_nat a) l).

Definition get_saved_emails (limit offset : Z) : M (list email) :=
  emails <- get_saved ;;
  let start := Z.min offset (len emails) in
  let stop := Z.min (offset + limit) (len emails) in
  ret (py_slice emails start stop).

Definition delete_email (email_id : string) : M string :=
  emails <- get_saved ;;
  let original_count := len emails in
  let kept := filter (fun e => negb (String.eqb (id e) email_id)) emails in
  put_saved kept ;;;
  if len kept =? original_count
  then raise (HTTPException 404 "Email not found")
  else ret "Email deleted successfully"%string.

(* ================================================================== *)
(** ** Analytics *)

Record analytics : Type := mkAnalytics {
  total_emails : Z;
  weekly_emails : Z;
  avg_length : Z;
  email_over_time : list (string * Z);
  top_companies : list (string * Z)
}.

(** [for k in l: d[k] = d.get(k, 0) + 1] *)
Definition count_keys_into (d : list (string * Z)) (l : list string) : list (string * Z) :=
  fold_left (fun d k => dict_set k (match dict_get k d with Some n => n | None => 0 end + 1) d)
            l d.
Definition count_keys (l : list string) : list (string * Z) := count_keys_into [] l.

(** [sorted(items, key=lambda x: x[1], reverse=True)]: a stable sort, by
    descending count; equal counts keep their order. *)
Fixpoint insert_desc (x : string * Z) (l : list (string * Z)) : list (string * Z) :=
  match l with
  | [] => [x]
  | y :: r => if snd x <? snd y then y :: insert_desc x r else x :: y :: r
  end.
Definition sorted_desc (l : list (string * Z)) : list (string * Z) :=
  fold_right insert_desc [] l.

(** [len(s.split())]: the number of maximal runs without white space;
    [skip] as in [ws_star_from]. *)
Fixpoint count_words_from (skip : nat) (in_word : bool) (s : string) : Z :=
  match s with
  | EmptyString => 0
  | String c r =>
      match skip with
      | S k => count_words_from k false r
      | O => match space_len s with
             | S k => count_words_from k false r
             | O => (if in_word then 0 else 1) + count_words_from 0 true r
             end
      end
  end.
Definition count_words (s : string) : Z := count_words_from 0 false s.

(** [today - timedelta(days=7)], as microseconds; below [datetime.min]
    the subtraction is an [OverflowError]. *)
Definition one_week_before (today : datetime) : result Z :=
  let u := to_us today - 7 * day_us in
  if u <? day_us then Raise OverflowError else Ok u.

(** The first loop: entries whose date parses and is after [one_week_ago]. *)
Definition weekly_count (one_week_ago : Z) (emails : list email) : Z :=
  fold_left (fun n e => match strptime_minute (date e) with
                        | Ok email_date => if one_week_ago <? to_us email_date
                                           then n + 1 else n
                        | Raise _ => n
                        end) emails 0.

Definition total_words (emails : list email) : Z :=
  fold_left (fun n e => n + count_words (content e)) emails 0.

(** The third loop: the day of every entry whose date parses. *)
Definition dates_of (emails : list email) : list string :=
  flat_map (fun e => match strptime_minute (date e) with
                     | Ok email_date => [strftime_day email_date]
                     | Raise _ => []
                     end) emails.

Definition top_companies_of (emails : list email) : list (string * Z) :=
  firstn 10 (sorted_desc (count_keys (map company emails))).

Definition get_analytics (now : datetime) : M analytics :=
  emails <- get_saved ;;
  match emails with
  | [] => ret (mkAnalytics 0 0 0 [] [])
  | _ :: _ =>
      one_week_ago <- lift (one_week_before now) ;;
      ret (mkAnalytics (len emails)
                       (weekly_count one_week_ago emails)
                       (total_words emails / Z.max 1 (len emails))
                       (count_keys (dates_of emails))
                       (top_companies_of emails))
  end.

(* ================================================================== *)
(** ** A run with a deletion between two generations *)

Definition run_request : EmailGenerationRequest :=
  mkRequest "Acme" "Globex" "Software" "Ann" "CTO" "Hello" "Professional" "Concise"
            None (Some "s1"%string).
Definition run_time : datetime := mkdt 2024 3 7 9 30 0 0.
Definition run_env (r : Z) : environment :=
  mkEnv 12345 run_time run_time (Completed "Dear Ann, ...") (Failed EmptyString) r run_time.

(** Two generations, the deletion of the first entry, one more generation. *)
Definition run_with_delete : M EmailResponse :=
  generate_email run_request (run_env 1000) ;;;
  generate_email run_request (run_env 2000) ;;;
  delete_email "1_1000" ;;;
  generate_email run_request (run_env 2000).

(** Sample stores, environments and archives. *)
Definition c2_now : datetime := mkdt 2024 3 7 9 30 0 0.
Definition c2_store : store :=
  Tables [("2024-03-05"%string, [("bob"%string, 40)]);
          ("2024-03-07"%string, [("bob"%string, 3)])]
         [("2024-03-07-08"%string, [("bob"%string, 9)]);
          ("2024-03-07-09"%string, [("bob"%string, 3)])].
Definition c2_store' : store :=
  Tables [("2024-03-07"%string, [("bob"%string, 3)])]
         [("2024-03-07-09"%string, [("bob"%string, 3)])].

Definition c4_env : environment :=
  mkEnv 12345 run_time run_time (Failed "quota exceeded") (Completed "unused") 1000
        run_time.

Definition c6_archive : list email :=
  [mkEmail "1_1000" "2024-03-07 09:30" "Ann" "Globex" "Hello" "Dear Ann";
   mkEmail "2_2000" "2024-03-07 09:31" "Bob" "Initech" "Hello" "Dear Bob"].

Definition c8_archive : list email :=
  map (fun c => mkEmail "1_1000" "2024-03-07 09:30" "Ann" c "Hello" "Dear Ann")
      ["A"; "B"; "A"; "C"; "B"; "A"]%string.

Definition c9_archive : list email :=
  [mkEmail "1_1000" "2024-03-07 09:30" "Ann" "Globex" "Hello" "one two three";
   mkEmail "2_2000" "not a date" "Bob" "Initech" "Hello" "one two three four five"].

(* ================================================================== *)
(** ** Counting and ranking, as the specification words them *)

(** How often [c] occurs in [l]. *)
Definition occurrences (c : string) (l : list string) : Z :=
  len (filter (String.eqb c) l).

(** The distinct elements of [l], in the order of their first appearance. *)
Fixpoint first_occurrences (l : list string) : list string :=
  match l with
  | [] => []
  | x :: r => x :: filter (fun y => negb (String.eqb x y)) (first_occurrences r)
  end.

(** [d.get(k, 0)] *)
Definition get_or_zero (d : list (string * Z)) (k : string) : Z :=
  match dict_get k d with Some n => n | None => 0 end.

(** The entry's date parses in the archive's format. *)
Definition date_parses (e : email) : bool := parses strptime_minute (date e).

(** The entry's date parses and is after [one_week_ago]. *)
Definition in_last_week (one_week_ago : Z) (e : email) : bool :=
  match strptime_minute (date e) with
  | Ok email_date => one_week_ago <? to_us email_date
  | Raise _ => false
  end.

(* ================================================================== *)
(** ** Handler calls in sequence *)

(** One call of a handler that touches the archive or the rate limits. *)
Inductive handler_call : Type :=
| CallGenerate (request : EmailGenerationRequest) (env : environment)
| CallDelete (email_id : string)
| CallList (limit offset : Z)
| CallAnalytics (now : datetime).

(** The state a call leaves, whatever it answers. *)
Definition handle (c : handler_call) (w : world) : world :=
  match c with
  | CallGenerate request env => snd (generate_email request env w)
  | CallDelete email_id => snd (delete_email email_id w)
  | CallList limit offset => snd (get_saved_emails limit offset w)
  | CallAnalytics now => snd (get_analytics now w)
  end.

Definition serve (calls : list handler_call) (w : world) : world :=
  fold_left (fun w c => handle c w) calls w.

(** The clock read for the entry's date is a real time. *)
Definition clock_valid (c : handler_call) : bool :=
  match c with
  | CallGenerate _ env => valid_datetime (now_saved env)
  | _ => true
  end.

Definition is_delete (c : handler_call) : bool :=
  match c with CallDelete _ => true | _ => false end.

(** The two times fall in the same calendar day, respectively hour. *)
Definition same_day (a b : datetime) : bool :=
  (year a =? year b) && (month a =? month b) && (day a =? day b).
Definition same_hour (a b : datetime) : bool :=
  same_day a b && (hour a =? hour b).

(** The sum of the counts of a dict. *)
Definition sum_values (d : list (string * Z)) : Z :=
  fold_right (fun kv n => snd kv + n) 0 d.

(** The entry [generate_email] appends. *)
Definition new_entry (request : EmailGenerationRequest) (env : environment)
           (emails : list email) (text : string) : email :=
  mkEmail (str (len emails + 1) ++ "_" ++ str (rand_id env))%string
          (strftime_minute (now_saved env))
          (person_name request) (target_company request)
          (email_subject request) text.

(** The exception is not an [HTTPException]: a client sees it as 500. *)
Definition unhandled (e : exn) : bool :=
  match e with HTTPException _ _ => false | _ => true end.

(** The result is a value or an exception that is not an [HTTPException]. *)
Definition plain {A} (r : result A) : bool :=
  match r with Ok _ => true | Raise e => unhandled e end.

(** The part of a string before its first underscore. *)
Fixpoint before_underscore (s : string) : string :=
  match s with
  | EmptyString => EmptyString
  | String c r => if Ascii.eqb c "_" then EmptyString else String c (before_underscore r)
  end.

(** Every identifier starts with its position: the entry at index [i]
    (counted from [start]) has [str i] before the underscore. *)
Fixpoint ids_in_order (start : Z) (emails : list email) : bool :=
  match emails with
  | [] => true
  | e :: r => String.eqb (before_underscore (id e)) (str start)
              && ids_in_order (start + 1) r
  end.

(** Both clock readings of a generation are real times in the same
    calendar hour. *)
Definition clocks_agree (c : handler_call) : bool :=
  match c with
  | CallGenerate _ env =>
      valid_datetime (now_check env) && valid_datetime (now_increment env)
      && same_hour (now_check env) (now_increment env)
  | _ => true
  end.

(** No count of the tables is above its limit. *)
Definition within_limits (s : store) : Prop :=
  forall label u,
    count (daily_of s) label u <= MAX_REQUESTS_PER_DAY
    /\ count (hourly_of s) label u <= MAX_REQUESTS_PER_HOUR.

(** Text with white space outside ASCII: U+00A0 and U+2009. *)
Definition nbsp : string :=
  String (ascii_of_N 194) (String (ascii_of_N 160) EmptyString).
Definition thin_space : string :=
  String (ascii_of_N 226) (String (ascii_of_N 128) (String (ascii_of_N 137) EmptyString)).
Definition spaced_text : string :=
  ("Dear" ++ nbsp ++ "Ann, how" ++ thin_space ++ "are you")%string.
Definition spaced_archive : list email :=
  [mkEmail "1_1000" "2024-03-07 09:30" "Ann" "Globex" "Hello" spaced_text;
   mkEmail "2_2000" "not a date" "Bob" "Initech" "Hello" "one"].
Definition spaced_env : environment :=
  mkEnv 12345 run_time run_time
        (Completed (nbsp ++ " Hi there" ++ thin_space ++ nbsp)%string)
        (Failed EmptyString) 1000 run_time.

(* ================================================================== *)
(** * Properties *)

(** ** Formatting and parsing bucket labels *)

(** A property of every integer of a short interval, from its instances. *)
Lemma Z_interval_cases (P : Z -> Prop) (lo : Z) (n : nat) :
  Forall P (map (fun k => lo + Z.of_nat k) (seq 0 n)) ->
  forall z, lo <= z < lo + Z.of_nat n -> P z.
Proof.
  intros HF z Hz.
  rewrite Forall_forall in HF. apply HF.
  apply in_map_iff. exists (Z.to_nat (z - lo)). split; [lia|].
  apply in_seq. lia.
Qed.

Ltac zdiv := Z.div_mod_to_equations; lia.

Ltac interval_cases lo n :=
  match goal with
  | |- forall z, _ -> @?P z =>
      apply (Z_interval_cases P lo n); cbv [seq map];
      repeat (apply Forall_cons; [cbv beta|]); try apply Forall_nil
  end.

Lemma digit_of_digit_char d :
  0 <= d <= 9 -> digit_of (digit_char d) = Some d.
Proof.
  revert d.
  assert (H : forall d, 0 <= d < 0 + Z.of_nat 10 -> digit_of (digit_char d) = Some d).
  { interval_cases 0 10%nat; reflexivity. }
  intros d Hd. apply H. lia.
Qed.

Lemma one_digit_char p d r :
  0 <= d <= 9 ->
  one_digit p (String (digit_char d) r) = if p d then [(d, r)] else [].
Proof. intros Hd. unfold one_digit. now rewrite digit_of_digit_char. Qed.

Lemma two_digits_pad2 p1 p2 n r :
  0 <= n <= 99 ->
  two_digits p1 p2 (pad2 n ++ r) =
  if p1 (n / 10) && p2 (n mod 10) then [(n, r)] else [].
Proof.
  intros Hn. unfold two_digits, pad2. cbn [append].
  rewrite one_digit_char by zdiv.
  destruct (p1 (n / 10)); cbn [flat_map andb]; [|reflexivity].
  cbn [snd fst]. rewrite one_digit_char by zdiv.
  destruct (p2 (n mod 10)); cbn [map app fst snd]; [|reflexivity].
  do 2 f_equal. zdiv.
Qed.

Lemma re_Y_pad4 y r :
  0 <= y <= 9999 -> re_Y (pad4 y ++ r) = [(y, r)].
Proof.
  intros Hy. unfold re_Y, pad4.
  assert (E : (String (digit_char (y / 1000))
                 (String (digit_char (y / 100 mod 10)) (pad2 (y mod 100))) ++ r)%string
              = (pad2 (y / 100) ++ (pad2 (y mod 100) ++ r))%string).
  { unfold pad2. cbn [append].
    replace (y / 100 / 10) with (y / 1000) by zdiv. reflexivity. }
  rewrite E.
  rewrite two_digits_pad2 by zdiv.
  cbn [any_digit andb flat_map snd fst].
  rewrite two_digits_pad2 by zdiv.
  cbn [any_digit andb map app fst snd].
  do 2 f_equal. zdiv.
Qed.

(** The first way [%m], [%d], [%H] and [%M] match a zero-padded field is
    the whole field. *)
Lemma re_m_pad2 m :
  1 <= m <= 12 -> forall r, exists tl, re_m (pad2 m ++ r) = (m, r) :: tl.
Proof.
  assert (H : forall m, 1 <= m < 1 + Z.of_nat 12 ->
              forall r, exists tl, re_m (pad2 m ++ r) = (m, r) :: tl).
  { interval_cases 1 12%nat; intros r; vm_compute; eexists; reflexivity. }
  intros Hm. apply H. lia.
Qed.

Lemma re_d_pad2 d :
  1 <= d <= 31 -> forall r, exists tl, re_d (pad2 d ++ r) = (d, r) :: tl.
Proof.
  assert (H : forall d, 1 <= d < 1 + Z.of_nat 31 ->
              forall r, exists tl, re_d (pad2 d ++ r) = (d, r) :: tl).
  { interval_cases 1 31%nat; intros r; vm_compute; eexists; reflexivity. }
  intros Hd. apply H. lia.
Qed.

Lemma re_H_pad2 h :
  0 <= h <= 23 -> forall r, exists tl, re_H (pad2 h ++ r) = (h, r) :: tl.
Proof.
  assert (H : forall h, 0 <= h < 0 + Z.of_nat 24 ->
              forall r, exists tl, re_H (pad2 h ++ r) = (h, r) :: tl).
  { interval_cases 0 24%nat; intros r; vm_compute; eexists; reflexivity. }
  intros Hh. apply H. lia.
Qed.

Lemma re_M_pad2 mi :
  0 <= mi <= 59 -> forall r, exists tl, re_M (pad2 mi ++ r) = (mi, r) :: tl.
Proof.
  assert (H : forall mi, 0 <= mi < 0 + Z.of_nat 60 ->
              forall r, exists tl, re_M (pad2 mi ++ r) = (mi, r) :: tl).
  { interval_cases 0 60%nat; intros r; vm_compute; eexists; reflexivity. }
  intros Hh. apply H. lia.
Qed.

Lemma append_assoc (a b c : string) : ((a ++ b) ++ c = a ++ (b ++ c))%string.
Proof. induction a as [|x a IH]; cbn; [reflexivity|now rewrite IH]. Qed.

Lemma days_in_month_le y m : days_in_month y m <= 31.
Proof.
  unfold days_in_month.
  repeat match goal with |- context [if ?b then _ else _] => destruct b end; lia.
Qed.

Lemma valid_date_bounds y m d :
  valid_date y m d = true ->
  1 <= y <= 9999 /\ 1 <= m <= 12 /\ 1 <= d <= 31.
Proof.
  unfold valid_date. intros H.
  repeat (apply andb_true_iff in H; destruct H as [H ?]).
  pose proof (days_in_month_le y m). lia.
Qed.

Lemma re_ymd_format y m d r :
  valid_date y m d = true ->
  exists tl, re_ymd (pad4 y ++ "-" ++ pad2 m ++ "-" ++ pad2 d ++ r)
             = (y, m, d, r) :: tl.
Proof.
  intros Hv. apply valid_date_bounds in Hv. destruct Hv as (Hy & Hm & Hd).
  unfold re_ymd.
  rewrite re_Y_pad4 by zdiv. cbn [flat_map fst snd append lit Ascii.eqb Bool.eqb].
  rewrite !app_nil_r.
  destruct (re_m_pad2 m Hm (String "-" (pad2 d ++ r))) as [tl1 E1].
  rewrite E1. cbn [flat_map fst snd append lit Ascii.eqb Bool.eqb].
  destruct (re_d_pad2 d Hd r) as [tl2 E2]. rewrite E2.
  cbn [map app fst snd]. eexists; reflexivity.
Qed.

Lemma valid_datetime_date t :
  valid_datetime t = true -> valid_date (year t) (month t) (day t) = true.
Proof.
  unfold valid_datetime. intros H.
  do 8 (apply andb_true_iff in H; destruct H as [H _]). exact H.
Qed.

Lemma valid_datetime_time t :
  valid_datetime t = true ->
  0 <= hour t <= 23 /\ 0 <= minute t <= 59 /\ 0 <= second t <= 59
  /\ 0 <= microsecond t <= 999999.
Proof.
  unfold valid_datetime. intros H.
  repeat (apply andb_true_iff in H; destruct H as [H ?]). lia.
Qed.

Lemma valid_datetime_intro t :
  valid_date (year t) (month t) (day t) = true ->
  0 <= hour t <= 23 -> 0 <= minute t <= 59 -> 0 <= second t <= 59 ->
  0 <= microsecond t <= 999999 -> valid_datetime t = true.
Proof.
  intros Hd ? ? ? ?. unfold valid_datetime. rewrite Hd.
  repeat (apply andb_true_iff; split); try reflexivity; lia.
Qed.

Lemma strptime_strftime_day t :
  valid_datetime t = true ->
  strptime_day (strftime_day t) = Ok (day_start t).
Proof.
  intros Hv. pose proof (valid_datetime_date _ Hv) as Hd.
  unfold strptime_day, strftime_day.
  destruct (re_ymd_format _ _ _ EmptyString Hd) as [tl E].
  replace (pad4 (year t) ++ "-" ++ pad2 (month t) ++ "-" ++ pad2 (day t))%string
    with (pad4 (year t) ++ "-" ++ pad2 (month t) ++ "-" ++ pad2 (day t) ++ EmptyString)%string.
  2:{ unfold pad2 at 2. reflexivity. }
  rewrite E. cbn [hd_error whole rbind]. unfold make_datetime.
  rewrite valid_datetime_intro; cbn; try lia; [reflexivity|assumption].
Qed.

Lemma strftime_hour_shape t :
  strftime_hour t =
  (pad4 (year t) ++ "-" ++ pad2 (month t) ++ "-" ++ pad2 (day t)
   ++ "-" ++ pad2 (hour t) ++ EmptyString)%string.
Proof.
  unfold strftime_hour, strftime_day, pad4, pad2. cbn [append]. reflexivity.
Qed.

Lemma strptime_strftime_hour t :
  valid_datetime t = true ->
  strptime_hour (strftime_hour t) = Ok (hour_start t).
Proof.
  intros Hv. pose proof (valid_datetime_date _ Hv) as Hd.
  pose proof (valid_datetime_time _ Hv) as (Hh & _).
  unfold strptime_hour. rewrite strftime_hour_shape.
  destruct (re_ymd_format _ _ _ ("-" ++ pad2 (hour t) ++ EmptyString)%string Hd) as [tl E].
  rewrite E. cbn [flat_map fst snd append lit Ascii.eqb Bool.eqb].
  destruct (re_H_pad2 _ Hh EmptyString) as [tl2 E2]. rewrite E2.
  cbn [map app hd_error whole rbind fst snd]. unfold make_datetime.
  rewrite valid_datetime_intro; cbn; try lia; [reflexivity|assumption].
Qed.

Lemma strftime_minute_shape t :
  strftime_minute t =
  (pad4 (year t) ++ "-" ++ pad2 (month t) ++ "-" ++ pad2 (day t)
   ++ " " ++ pad2 (hour t) ++ ":" ++ pad2 (minute t) ++ EmptyString)%string.
Proof.
  unfold strftime_minute, strftime_day, pad4, pad2. cbn [append]. reflexivity.
Qed.

Lemma strptime_strftime_minute t :
  valid_datetime t = true ->
  strptime_minute (strftime_minute t) = Ok (minute_start t).
Proof.
  intros Hv. pose proof (valid_datetime_date _ Hv) as Hd.
  pose proof (valid_datetime_time _ Hv) as (Hh & Hm & _).
  unfold strptime_minute. rewrite strftime_minute_shape.
  destruct (re_ymd_format _ _ _
              (" " ++ pad2 (hour t) ++ ":" ++ pad2 (minute t) ++ EmptyString)%string Hd)
    as [tl E].
  rewrite E. cbn [flat_map fst snd append].
  assert (W : ws_plus (String " " (pad2 (hour t) ++ String ":" (pad2 (minute t) ++ EmptyString)))
              = [(pad2 (hour t) ++ String ":" (pad2 (minute t) ++ EmptyString))%string]).
  { assert (Hc : forall d s, 0 <= d <= 9 -> ws_star (String (digit_char d) s)
                                            = [String (digit_char d) s]).
    { intros d s Hd'. revert s.
      assert (H : forall d, 0 <= d < 0 + Z.of_nat 10 ->
                  forall s, ws_star (String (digit_char d) s) = [String (digit_char d) s]).
      { interval_cases 0 10%nat; intros s; reflexivity. }
      apply H. lia. }
    change (ws_plus (String " " ?s)) with (ws_star s).
    unfold pad2 at 1. cbn [append]. apply Hc.
    zdiv. }
  rewrite W. cbn [flat_map]. rewrite !app_nil_r.
  destruct (re_H_pad2 _ Hh (String ":" (pad2 (minute t) ++ EmptyString))) as [tl2 E2].
  rewrite E2. cbn [flat_map fst snd append lit Ascii.eqb Bool.eqb].
  destruct (re_M_pad2 _ Hm EmptyString) as [tl3 E3]. rewrite E3.
  cbn [map app hd_error whole rbind fst snd]. unfold make_datetime.
  rewrite valid_datetime_intro; cbn; try lia; [reflexivity|assumption].
Qed.

(** ** Dictionaries *)

Section DictFacts.
Context {V : Type}.
Implicit Types (d : list (string * V)) (k : string) (v : V).

Lemma dict_get_set_eq k v d : dict_get k (dict_set k v d) = Some v.
Proof.
  induction d as [|[k' v'] r IH]; cbn.
  - now rewrite String.eqb_refl.
  - destruct (String.eqb k k') eqn:E; cbn; rewrite ?String.eqb_refl, ?E; auto.
Qed.

Lemma dict_get_set_neq k k' v d :
  k <> k' -> dict_get k' (dict_set k v d) = dict_get k' d.
Proof.
  intros Hne. induction d as [|[k0 v0] r IH]; cbn.
  - destruct (String.eqb_spec k' k); congruence.
  - destruct (String.eqb_spec k k0) as [->|]; cbn.
    + destruct (String.eqb_spec k' k0); congruence.
    + now rewrite IH.
Qed.

Lemma dict_mem_in k d : dict_mem k d = true <-> In k (keys d).
Proof.
  unfold dict_mem. induction d as [|[k0 v0] r IH]; cbn.
  - split; [discriminate|tauto].
  - destruct (String.eqb_spec k k0) as [->|]; [tauto|].
    rewrite IH. split; [tauto|]. intros [?|?]; [congruence|assumption].
Qed.

Lemma dict_mem_false k d : dict_mem k d = false <-> ~ In k (keys d).
Proof.
  rewrite <- dict_mem_in. destruct (dict_mem k d); split; congruence.
Qed.

Lemma dict_set_new k v d :
  dict_mem k d = false -> dict_set k v d = d ++ [(k, v)].
Proof.
  unfold dict_mem. induction d as [|[k0 v0] r IH]; cbn; [reflexivity|].
  destruct (String.eqb k k0); [discriminate|]. intros H. now rewrite IH.
Qed.

Lemma keys_dict_set k v d :
  keys (dict_set k v d) = if dict_mem k d then keys d else keys d ++ [k].
Proof.
  unfold dict_mem, keys. induction d as [|[k0 v0] r IH]; cbn; [reflexivity|].
  destruct (String.eqb_spec k k0) as [->|]; cbn; [reflexivity|].
  rewrite IH. now destruct (dict_get k r).
Qed.

Lemma dict_get_filter_key (q : string -> bool) k d :
  dict_get k (filter (fun kv => q (fst kv)) d) = if q k then dict_get k d else None.
Proof.
  induction d as [|[k0 v0] r IH]; cbn.
  - now destruct (q k).
  - destruct (q k0) eqn:Q; cbn; destruct (String.eqb_spec k k0) as [->|];
      rewrite ?Q; auto.
    rewrite IH, Q. reflexivity.
Qed.

Lemma dict_mem_set k k' v d :
  dict_mem k' (dict_set k v d) = String.eqb k' k || dict_mem k' d.
Proof.
  unfold dict_mem. destruct (String.eqb_spec k' k) as [->|Hne].
  - now rewrite dict_get_set_eq.
  - rewrite dict_get_set_neq by congruence. reflexivity.
Qed.
End DictFacts.

Lemma dict_get_map {A B} (f : A -> B) k (d : list (string * A)) :
  dict_get k (map (fun kv => (fst kv, f (snd kv))) d) = option_map f (dict_get k d).
Proof.
  induction d as [|[k0 v0] r IH]; cbn; [reflexivity|].
  now destruct (String.eqb k k0).
Qed.

Lemma dict_mem_map {A B} (f : A -> B) k (d : list (string * A)) :
  dict_mem k (map (fun kv => (fst kv, f (snd kv))) d) = dict_mem k d.
Proof. unfold dict_mem. rewrite dict_get_map. now destruct (dict_get k d). Qed.

Lemma dict_set_map {A B} (f : A -> B) k v (d : list (string * A)) :
  dict_set k (f v) (map (fun kv => (fst kv, f (snd kv))) d)
  = map (fun kv => (fst kv, f (snd kv))) (dict_set k v d).
Proof.
  induction d as [|[k0 v0] r IH]; cbn; [reflexivity|].
  destruct (String.eqb k k0); cbn; [reflexivity|]. now rewrite IH.
Qed.

Lemma nodupb_NoDup l : nodupb l = true <-> NoDup l.
Proof.
  induction l as [|x r IH]; cbn.
  - split; [constructor|reflexivity].
  - rewrite andb_true_iff, negb_true_iff, IH. split.
    + intros [Hx Hr]. constructor; [|assumption].
      intros Hin. assert (existsb (String.eqb x) r = true); [|congruence].
      apply existsb_exists. exists x. split; [assumption|apply String.eqb_refl].
    + intros Hnd. inversion Hnd as [|? ? Hx Hr]; subst. split; [|assumption].
      destruct (existsb (String.eqb x) r) eqn:E; [|reflexivity].
      apply existsb_exists in E. destruct E as (y & Hy & Exy).
      apply String.eqb_eq in Exy. subst. contradiction.
Qed.

Lemma nodupb_dict_set {V} k (v : V) d :
  nodupb (keys d) = true -> nodupb (keys (dict_set k v d)) = true.
Proof.
  rewrite !nodupb_NoDup, keys_dict_set. intros Hnd.
  destruct (dict_mem k d) eqn:E; [assumption|].
  apply dict_mem_false in E.
  apply NoDup_app; [assumption|repeat constructor; auto|].
  intros x Hx [<-|[]]. contradiction.
Qed.

(** ** The clean-up loop *)

Lemma prune_spec parse recent (its acc : list (string * pyval)) :
  NoDup (keys acc ++ keys its) ->
  forallb (fun kv => parses parse (fst kv)) its = true ->
  prune parse recent its acc
  = Ok (acc ++ filter (fun kv => match parse (fst kv) with
                                 | Ok dt => recent dt
                                 | Raise _ => false
                                 end) its).
Proof.
  revert acc. induction its as [|[label users] rest IH]; intros acc Hnd Hp.
  - cbn. now rewrite app_nil_r.
  - cbn in Hp. apply andb_true_iff in Hp. destruct Hp as [Hl Hp].
    unfold parses in Hl. cbn [prune filter fst].
    destruct (parse label) as [dt|e]; [|discriminate]. cbn [rbind].
    assert (Hfresh : dict_mem label acc = false).
    { apply dict_mem_false. intros Hin.
      apply NoDup_remove_2 in Hnd. apply Hnd. apply in_or_app. now left. }
    destruct (recent dt).
    + rewrite dict_set_new by assumption. rewrite IH; [|
        unfold keys in *; rewrite map_app, <- app_assoc; exact Hnd | assumption].
      now rewrite <- app_assoc.
    + apply IH; [|assumption].
      apply NoDup_remove_1 in Hnd. exact Hnd.
Qed.

Lemma filter_map_fst {A B} (q : string -> bool) (f : A -> B) (l : list (string * A)) :
  filter (fun kv => q (fst kv)) (map (fun kv => (fst kv, f (snd kv))) l)
  = map (fun kv => (fst kv, f (snd kv))) (filter (fun kv => q (fst kv)) l).
Proof.
  induction l as [|[k v] r IH]; cbn; [reflexivity|].
  destruct (q k); cbn; now rewrite IH.
Qed.

Lemma keys_map {A B} (f : A -> B) (l : list (string * A)) :
  keys (map (fun kv => (fst kv, f (snd kv))) l) = keys l.
Proof. unfold keys. rewrite map_map. reflexivity. Qed.

Lemma wf_table_inv parse t :
  wf_table parse t = true ->
  NoDup (keys t) /\ forallb (fun kb => parses parse (fst kb)) t = true.
Proof.
  unfold wf_table. rewrite andb_true_iff, nodupb_NoDup. tauto.
Qed.

Lemma prune_enc parse recent t :
  wf_table parse t = true ->
  prune parse recent (map (fun kb => (fst kb, enc_bucket (snd kb))) t) []
  = Ok (map (fun kb => (fst kb, enc_bucket (snd kb))) (pruned parse recent t)).
Proof.
  intros Hwf. apply wf_table_inv in Hwf. destruct Hwf as [Hnd Hp].
  rewrite prune_spec.
  - cbn [app]. unfold pruned.
    rewrite (filter_map_fst
               (fun k => match parse k with Ok dt => recent dt | Raise _ => false end)).
    reflexivity.
  - cbn [keys app map]. now rewrite keys_map.
  - clear Hnd. induction t as [|kb r IH]; [reflexivity|].
    cbn in Hp |- *. apply andb_true_iff in Hp. destruct Hp as [-> Hp]. now apply IH.
Qed.

(** ** [check_rate_limit] and [increment_rate_limit] on well-formed tables *)

Lemma getitem_daily d h : getitem (enc_store d h) "daily" = Ok (enc_table d).
Proof. reflexivity. Qed.

Lemma getitem_hourly d h : getitem (enc_store d h) "hourly" = Ok (enc_table h).
Proof. reflexivity. Qed.

Lemma setitem_daily d h t :
  setitem (enc_store d h) "daily" (enc_table t) = Ok (enc_store t h).
Proof. reflexivity. Qed.

Lemma setitem_hourly d h t :
  setitem (enc_store d h) "hourly" (enc_table t) = Ok (enc_store d t).
Proof. reflexivity. Qed.

Lemma contains_enc_table t label :
  contains (enc_table t) label = Ok (dict_mem label t).
Proof. unfold enc_table. cbn [contains]. now rewrite dict_mem_map. Qed.

Lemma setitem_enc_table t label b :
  setitem (enc_table t) label (enc_bucket b) = Ok (enc_table (dict_set label b t)).
Proof.
  unfold enc_table. cbn [setitem]. now rewrite (dict_set_map enc_bucket).
Qed.

Lemma init_bucket_daily d h label :
  init_bucket (enc_store d h) "daily" label = Ok (enc_store (ensure label d) h).
Proof.
  unfold init_bucket, ensure. rewrite getitem_daily. cbn [rbind].
  rewrite contains_enc_table. cbn [rbind].
  destruct (dict_mem label d); [reflexivity|].
  unfold setitem2. rewrite getitem_daily. cbn [rbind].
  change (PDict []) with (enc_bucket []). rewrite setitem_enc_table. cbn [rbind].
  apply setitem_daily.
Qed.

Lemma init_bucket_hourly d h label :
  init_bucket (enc_store d h) "hourly" label = Ok (enc_store d (ensure label h)).
Proof.
  unfold init_bucket, ensure. rewrite getitem_hourly. cbn [rbind].
  rewrite contains_enc_table. cbn [rbind].
  destruct (dict_mem label h); [reflexivity|].
  unfold setitem2. rewrite getitem_hourly. cbn [rbind].
  change (PDict []) with (enc_bucket []). rewrite setitem_enc_table. cbn [rbind].
  apply setitem_hourly.
Qed.

Lemma table_count_enc t label session_id :
  dict_mem label t = true ->
  rbind (getitem (enc_table t) label)
        (fun users => get_method users session_id (PInt 0))
  = Ok (PInt (count t label session_id)).
Proof.
  unfold dict_mem, count, enc_table. cbn [getitem]. rewrite dict_get_map.
  destruct (dict_get label t) as [b|]; [intros _|discriminate].
  cbn [option_map rbind enc_bucket get_method]. rewrite dict_get_map.
  now destruct (dict_get session_id b).
Qed.

Lemma current_count_daily d h label session_id :
  dict_mem label d = true ->
  current_count (enc_store d h) "daily" label session_id
  = Ok (PInt (count d label session_id)).
Proof.
  intros H. unfold current_count. rewrite getitem_daily. cbn [rbind].
  now apply table_count_enc.
Qed.

Lemma current_count_hourly d h label session_id :
  dict_mem label h = true ->
  current_count (enc_store d h) "hourly" label session_id
  = Ok (PInt (count h label session_id)).
Proof.
  intros H. unfold current_count. rewrite getitem_hourly. cbn [rbind].
  now apply table_count_enc.
Qed.

Lemma dict_mem_ensure label t : dict_mem label (ensure label t) = true.
Proof.
  unfold ensure. destruct (dict_mem label t) eqn:E; [assumption|].
  rewrite dict_mem_set. now rewrite String.eqb_refl.
Qed.

Lemma count_ensure label t l s : count (ensure label t) l s = count t l s.
Proof.
  unfold ensure. destruct (dict_mem label t) eqn:E; [reflexivity|].
  unfold count. destruct (String.eqb_spec label l) as [<-|Hne].
  - rewrite dict_get_set_eq. unfold dict_mem in E.
    now destruct (dict_get label t).
  - now rewrite dict_get_set_neq.
Qed.

Lemma bump_table_enc t label session_id :
  dict_mem label t = true ->
  rbind (getitem (enc_table t) label) (fun users =>
  rbind (setitem users session_id (PInt (count t label session_id + 1))) (fun users' =>
  setitem (enc_table t) label users'))
  = Ok (enc_table (bump label session_id t)).
Proof.
  unfold dict_mem, count, bump. unfold enc_table at 1. cbn [getitem].
  rewrite dict_get_map.
  destruct (dict_get label t) as [b|]; [intros _|discriminate].
  cbn [option_map rbind]. unfold enc_bucket at 1. cbn [setitem rbind].
  rewrite (dict_set_map PInt). fold (enc_bucket (dict_set session_id
    (match dict_get session_id b with Some n => n | None => 0 end + 1) b)).
  apply setitem_enc_table.
Qed.

Lemma bump_count_daily d h label session_id :
  dict_mem label d = true ->
  bump_count (enc_store d h) "daily" label session_id
  = Ok (enc_store (bump label session_id d) h).
Proof.
  intros H. unfold bump_count. rewrite current_count_daily by assumption.
  cbn [rbind add_int]. unfold setitem3. rewrite getitem_daily. cbn [rbind].
  pose proof (bump_table_enc d label session_id H) as E.
  destruct (getitem (enc_table d) label) as [users|]; [|discriminate].
  cbn [rbind] in E |- *.
  destruct (setitem users session_id _) as [users'|]; [|discriminate].
  cbn [rbind] in E |- *. rewrite E. cbn [rbind]. apply setitem_daily.
Qed.

Lemma bump_count_hourly d h label session_id :
  dict_mem label h = true ->
  bump_count (enc_store d h) "hourly" label session_id
  = Ok (enc_store d (bump label session_id h)).
Proof.
  intros H. unfold bump_count. rewrite current_count_hourly by assumption.
  cbn [rbind add_int]. unfold setitem3. rewrite getitem_hourly. cbn [rbind].
  pose proof (bump_table_enc h label session_id H) as E.
  destruct (getitem (enc_table h) label) as [users|]; [|discriminate].
  cbn [rbind] in E |- *.
  destruct (setitem users session_id _) as [users'|]; [|discriminate].
  cbn [rbind] in E |- *. rewrite E. cbn [rbind]. apply setitem_hourly.
Qed.

(** What [load_rate_limits] returns for each state of the file. *)
Lemma load_rate_limits_store s emails :
  load_rate_limits (mkWorld (file_of s) emails)
  = (Ok (enc_store (daily_of s) (hourly_of s)), mkWorld (file_of s) emails).
Proof. destruct s; reflexivity. Qed.

Lemma items_enc_table t :
  items (enc_table t) = Ok (map (fun kb => (fst kb, enc_bucket (snd kb))) t).
Proof. reflexivity. Qed.

Ltac run_step L := rewrite L; cbv beta iota.

Lemma check_rate_limit_tables s emails session_id now :
  wf_store s = true ->
  check_rate_limit session_id now (mkWorld (file_of s) emails)
  = (Ok (limit_decision
           (count (pruned_daily now (daily_of s)) (strftime_day now) session_id)
           (count (pruned_hourly now (hourly_of s)) (strftime_hour now) session_id)),
     mkWorld (file_of s) emails).
Proof.
  intros Hwf. unfold wf_store in Hwf. apply andb_true_iff in Hwf.
  destruct Hwf as [Hd Hh].
  unfold check_rate_limit. cbv zeta. unfold bind at 1.
  run_step load_rate_limits_store.
  unfold bind, lift, ret.
  run_step getitem_daily. run_step items_enc_table.
  run_step (prune_enc strptime_day (recent_day now) _ Hd).
  fold (enc_table (pruned strptime_day (recent_day now) (daily_of s))).
  run_step setitem_daily.
  run_step getitem_hourly. run_step items_enc_table.
  run_step (prune_enc strptime_hour (recent_hour now) _ Hh).
  fold (enc_table (pruned strptime_hour (recent_hour now) (hourly_of s))).
  run_step setitem_hourly.
  run_step init_bucket_daily. run_step init_bucket_hourly.
  run_step current_count_daily; [|apply dict_mem_ensure].
  run_step current_count_hourly; [|apply dict_mem_ensure].
  rewrite !count_ensure. cbn [ge_int].
  unfold limit_decision, MAX_REQUESTS_PER_DAY, MAX_REQUESTS_PER_HOUR,
    pruned_daily, pruned_hourly.
  destruct (15 <=? _); [reflexivity|]. destruct (5 <=? _); reflexivity.
Qed.

Lemma increment_rate_limit_tables s emails session_id t :
  increment_rate_limit session_id t (mkWorld (file_of s) emails)
  = (Ok tt, mkWorld (file_of (incr_store session_id t s)) emails).
Proof.
  unfold increment_rate_limit. cbv zeta. unfold bind at 1.
  run_step load_rate_limits_store.
  unfold bind, lift.
  run_step init_bucket_daily. run_step init_bucket_hourly.
  run_step bump_count_daily; [|apply dict_mem_ensure].
  run_step bump_count_hourly; [|apply dict_mem_ensure].
  reflexivity.
Qed.

(** ** Counts after increments *)

Lemma count_bump label session_id t l s :
  dict_mem label t = true ->
  count (bump label session_id t) l s
  = count t l s + (if String.eqb label l && String.eqb session_id s then 1 else 0).
Proof.
  unfold dict_mem, bump, count.
  destruct (dict_get label t) as [b|] eqn:E; [intros _|discriminate].
  destruct (String.eqb_spec label l) as [<-|Hne]; cbn [andb].
  - rewrite dict_get_set_eq, E.
    destruct (String.eqb_spec session_id s) as [<-|Hs].
    + now rewrite dict_get_set_eq.
    + rewrite dict_get_set_neq by assumption.
      destruct (dict_get s b); lia.
  - rewrite dict_get_set_neq by assumption.
    destruct (dict_get l t) as [b'|]; [destruct (dict_get s b')|]; lia.
Qed.

Lemma count_incr_table label session_id t l s :
  count (incr_table label session_id t) l s
  = count t l s + (if String.eqb label l && String.eqb session_id s then 1 else 0).
Proof.
  unfold incr_table. rewrite count_bump by apply dict_mem_ensure.
  now rewrite count_ensure.
Qed.

Lemma forallb_dict_set {V} (p : string -> bool) k (v : V) d :
  forallb (fun kv => p (fst kv)) d = true -> p k = true ->
  forallb (fun kv => p (fst kv)) (dict_set k v d) = true.
Proof.
  intros Hd Hk. induction d as [|[k0 v0] r IH]; cbn in *.
  - now rewrite Hk.
  - apply andb_true_iff in Hd. destruct Hd as [H0 Hr].
    destruct (String.eqb k k0); cbn; rewrite ?Hk, ?H0, ?Hr; auto.
Qed.

Lemma wf_table_dict_set parse t label b :
  wf_table parse t = true -> parses parse label = true ->
  wf_table parse (dict_set label b t) = true.
Proof.
  unfold wf_table. rewrite !andb_true_iff. intros [Hn Hp] Hl. split.
  - now apply nodupb_dict_set.
  - now apply (forallb_dict_set (parses parse)).
Qed.

Lemma wf_incr_table parse t label session_id :
  wf_table parse t = true -> parses parse label = true ->
  wf_table parse (incr_table label session_id t) = true.
Proof.
  intros Hwf Hl. unfold incr_table, bump.
  assert (He : wf_table parse (ensure label t) = true).
  { unfold ensure. destruct (dict_mem label t); [assumption|].
    now apply wf_table_dict_set. }
  destruct (dict_get label (ensure label t)); [|assumption].
  now apply wf_table_dict_set.
Qed.

Lemma wf_incr_store s session_id t :
  wf_store s = true -> valid_datetime t = true ->
  wf_store (incr_store session_id t s) = true.
Proof.
  unfold wf_store. rewrite !andb_true_iff. intros [Hd Hh] Hv.
  cbn [incr_store daily_of hourly_of]. split; apply wf_incr_table; try assumption.
  - unfold parses. now rewrite strptime_strftime_day.
  - unfold parses. now rewrite strptime_strftime_hour.
Qed.

Lemma accept_all_tables evs : forall s emails,
  accept_all evs (mkWorld (file_of s) emails)
  = (Ok tt, mkWorld (file_of (apply_events evs s)) emails).
Proof.
  induction evs as [|ev rest IH]; intros s emails; [reflexivity|].
  cbn [accept_all apply_events fold_left]. unfold bind.
  rewrite increment_rate_limit_tables. apply IH.
Qed.

Lemma wf_apply_events evs : forall s,
  wf_store s = true ->
  forallb (fun ev => valid_datetime (snd ev)) evs = true ->
  wf_store (apply_events evs s) = true.
Proof.
  induction evs as [|ev rest IH]; intros s Hwf Hv; [assumption|].
  cbn in Hv. apply andb_true_iff in Hv. destruct Hv as [Hv Hr].
  cbn [apply_events fold_left]. apply IH; [|assumption].
  now apply wf_incr_store.
Qed.

Lemma count_apply_events_daily session_id now evs : forall s,
  count (daily_of (apply_events evs s)) (strftime_day now) session_id
  = count (daily_of s) (strftime_day now) session_id
    + accepted_in strftime_day session_id now evs.
Proof.
  unfold accepted_in.
  induction evs as [|ev rest IH]; intros s; [cbn; lia|].
  cbn [apply_events fold_left]. fold (apply_events rest (incr_store (fst ev) (snd ev) s)).
  rewrite IH. cbn [incr_store daily_of]. rewrite count_incr_table.
  cbn [filter]. rewrite (andb_comm (String.eqb (fst ev) session_id)).
  destruct (_ && _); cbn [List.length]; lia.
Qed.

Lemma count_apply_events_hourly session_id now evs : forall s,
  count (hourly_of (apply_events evs s)) (strftime_hour now) session_id
  = count (hourly_of s) (strftime_hour now) session_id
    + accepted_in strftime_hour session_id now evs.
Proof.
  unfold accepted_in.
  induction evs as [|ev rest IH]; intros s; [cbn; lia|].
  cbn [apply_events fold_left]. fold (apply_events rest (incr_store (fst ev) (snd ev) s)).
  rewrite IH. cbn [incr_store hourly_of]. rewrite count_incr_table.
  cbn [filter]. rewrite (andb_comm (String.eqb (fst ev) session_id)).
  destruct (_ && _); cbn [List.length]; lia.
Qed.

(** ** The current buckets survive the clean-up *)

Lemma recent_day_today now :
  valid_datetime now = true -> recent_day now (day_start now) = true.
Proof.
  intros Hv. apply valid_datetime_time in Hv. destruct Hv as (Hh & Hm & Hs & Hu).
  unfold recent_day, td_days, dt_sub, to_us, day_start, day_us, hour_us.
  cbn [year month day hour minute second microsecond].
  apply Z.ltb_lt.
  match goal with |- ?a / ?b < 1 => assert (E : a / b = 0); [|lia] end.
  apply Z.div_small. lia.
Qed.

Lemma recent_hour_now now :
  valid_datetime now = true -> recent_hour now (hour_start now) = true.
Proof.
  intros Hv. apply valid_datetime_time in Hv. destruct Hv as (Hh & Hm & Hs & Hu).
  unfold recent_hour, total_seconds_lt, dt_sub, to_us, hour_start, day_us, hour_us.
  cbn [year month day hour minute second microsecond].
  apply Z.ltb_lt. lia.
Qed.

Lemma count_pruned parse recent t label session_id :
  (match parse label with Ok dt => recent dt | Raise _ => false end) = true ->
  count (pruned parse recent t) label session_id = count t label session_id.
Proof.
  intros Hk. unfold count, pruned.
  rewrite (dict_get_filter_key
             (fun k => match parse k with Ok dt => recent dt | Raise _ => false end)).
  now rewrite Hk.
Qed.

Lemma count_pruned_daily_today now t session_id :
  valid_datetime now = true ->
  count (pruned_daily now t) (strftime_day now) session_id
  = count t (strftime_day now) session_id.
Proof.
  intros Hv. apply count_pruned.
  rewrite strptime_strftime_day by assumption. now apply recent_day_today.
Qed.

Lemma count_pruned_hourly_now now t session_id :
  valid_datetime now = true ->
  count (pruned_hourly now t) (strftime_hour now) session_id
  = count t (strftime_hour now) session_id.
Proof.
  intros Hv. apply count_pruned.
  rewrite strptime_strftime_hour by assumption. now apply recent_hour_now.
Qed.

(** [check_rate_limit] after a run of accepted generations. *)
Lemma check_after_events s emails session_id now evs :
  wf_store s = true -> valid_datetime now = true ->
  forallb (fun ev => valid_datetime (snd ev)) evs = true ->
  exists w',
    accept_all evs (mkWorld (file_of s) emails) = (Ok tt, w')
    /\ check_rate_limit session_id now w'
       = (Ok (limit_decision
                (count (daily_of s) (strftime_day now) session_id
                 + accepted_in strftime_day session_id now evs)
                (count (hourly_of s) (strftime_hour now) session_id
                 + accepted_in strftime_hour session_id now evs)), w').
Proof.
  intros Hwf Hv Hevs. eexists. split; [apply accept_all_tables|].
  rewrite check_rate_limit_tables by (now apply wf_apply_events).
  rewrite count_pruned_daily_today, count_pruned_hourly_now by assumption.
  now rewrite count_apply_events_daily, count_apply_events_hourly.
Qed.

(* ------------------------------------------------------------------ *)

(** C1.  For a well-formed store (no file, an unreadable file, or stored
    tables with parseable labels), every session and every time [now],
    [check_rate_limit] answers by the session's counts in the current
    daily and hourly buckets after pruning: not allowed with the daily
    message from 15 on, otherwise not allowed with the hourly message from
    5 on, otherwise allowed; pruning leaves those two counts as they are
    stored.  After a run of accepted generations from a state where the
    session has no count yet, of which [kd] fall in the current day and
    [kh] in the current hour: with [kd < 15] and [kh < 5] the next check
    is allowed; with [kh >= 5] (the 6th in the hour) it is refused with the
    hourly message, and with [kd >= 15] (the 16th in the day) with the
    daily one. *)
Theorem C1_check_rate_limit_decision :
  forall (s : store) (emails : list email) (session_id : string) (now : datetime),
    wf_store s = true -> valid_datetime now = true ->
    let w := mkWorld (file_of s) emails in
    let daily_count :=
      count (pruned_daily now (daily_of s)) (strftime_day now) session_id in
    let hourly_count :=
      count (pruned_hourly now (hourly_of s)) (strftime_hour now) session_id in
    fst (check_rate_limit session_id now w)
      = Ok (if MAX_REQUESTS_PER_DAY <=? daily_count then (false, daily_message)
            else if MAX_REQUESTS_PER_HOUR <=? hourly_count then (false, hourly_message)
            else (true, EmptyString))
    /\ daily_count = count (daily_of s) (strftime_day now) session_id
    /\ hourly_count = count (hourly_of s) (strftime_hour now) session_id
    /\ forall evs : list (string * datetime),
         forallb (fun ev => valid_datetime (snd ev)) evs = true ->
         daily_count = 0 -> hourly_count = 0 ->
         let kd := accepted_in strftime_day session_id now evs in
         let kh := accepted_in strftime_hour session_id now evs in
         exists w',
           accept_all evs w = (Ok tt, w')
           /\ (kd < 15 -> kh < 5 ->
               fst (check_rate_limit session_id now w') = Ok (true, EmptyString))
           /\ (kd < 15 -> 5 <= kh ->
               fst (check_rate_limit session_id now w') = Ok (false, hourly_message))
           /\ (15 <= kd ->
               fst (check_rate_limit session_id now w') = Ok (false, daily_message)).
Proof.
  intros s emails session_id now Hwf Hv w daily_count hourly_count.
  assert (Ed : daily_count = count (daily_of s) (strftime_day now) session_id)
    by (now apply count_pruned_daily_today).
  assert (Eh : hourly_count = count (hourly_of s) (strftime_hour now) session_id)
    by (now apply count_pruned_hourly_now).
  split; [|split; [exact Ed|split; [exact Eh|]]].
  - subst w. rewrite check_rate_limit_tables by assumption. reflexivity.
  - intros evs Hevs Zd Zh kd kh.
    destruct (check_after_events s emails session_id now evs Hwf Hv Hevs)
      as (w' & Hrun & Hchk).
    exists w'. split; [exact Hrun|].
    rewrite Hchk. cbn [fst]. rewrite <- Ed, <- Eh, Zd, Zh. cbn [Z.add].
    fold kd kh. unfold limit_decision.
    repeat split; intros.
    + destruct (15 <=? kd) eqn:E1; [lia|]. destruct (5 <=? kh) eqn:E2; [lia|reflexivity].
    + destruct (15 <=? kd) eqn:E1; [lia|]. destruct (5 <=? kh) eqn:E2; [reflexivity|lia].
    + destruct (15 <=? kd) eqn:E1; [reflexivity|lia].
Qed.

Lemma C1_check_rate_limit_decision_witness :
  let now := mkdt 2024 3 7 9 30 0 0 in
  let evs := repeat ("bob"%string, mkdt 2024 3 7 9 12 40 0) 5 in
  wf_store NoFile = true /\ valid_datetime now = true
  /\ fst (check_rate_limit "bob" now (mkWorld FileMissing [])) = Ok (true, EmptyString)
  /\ exists w', accept_all evs (mkWorld FileMissing []) = (Ok tt, w')
               /\ fst (check_rate_limit "bob" now w') = Ok (false, hourly_message).
Proof.
  intros now evs.
  pose proof (C1_check_rate_limit_decision NoFile [] "bob"%string now eq_refl eq_refl)
    as (Hchk & _ & _ & Hevs).
  split; [reflexivity|split; [reflexivity|split; [exact Hchk|]]].
  destruct (Hevs evs eq_refl eq_refl eq_refl) as (w' & Hrun & _ & Hhour & _).
  exists w'. split; [exact Hrun|]. apply Hhour; vm_compute; congruence.
Defined.

(** ** Buckets older than their window *)

Lemma old_day_not_recent now dt :
  (day_us <? dt_sub now dt) = true -> recent_day now dt = false.
Proof.
  unfold recent_day, td_days. intros H. apply Z.ltb_lt in H. apply Z.ltb_ge.
  assert (0 < day_us) by (unfold day_us, hour_us; lia).
  apply Z.div_le_lower_bound; lia.
Qed.

Lemma old_hour_not_recent now dt :
  (hour_us <? dt_sub now dt) = true -> recent_hour now dt = false.
Proof.
  unfold recent_hour, total_seconds_lt, hour_us. intros H.
  apply Z.ltb_lt in H. apply Z.ltb_ge. lia.
Qed.

Lemma pruned_drop_old parse recent (old : string -> bool) t :
  (forall label dt, parse label = Ok dt -> old label = true -> recent dt = false) ->
  pruned parse recent (drop_old old t) = pruned parse recent t.
Proof.
  intros Hold. unfold pruned, drop_old.
  induction t as [|[label b] r IH]; cbn [filter fst]; [reflexivity|].
  destruct (old label) eqn:Eo; cbn [negb filter fst].
  - destruct (parse label) as [dt|e] eqn:Ep; [|exact IH].
    rewrite (Hold _ _ Ep Eo). exact IH.
  - now rewrite IH.
Qed.

Lemma pruned_daily_drop_old now t :
  pruned_daily now (drop_old (older_than_day now) t) = pruned_daily now t.
Proof.
  apply pruned_drop_old. intros label dt Ep. unfold older_than_day. rewrite Ep.
  apply old_day_not_recent.
Qed.

Lemma pruned_hourly_drop_old now t :
  pruned_hourly now (drop_old (older_than_hour now) t) = pruned_hourly now t.
Proof.
  apply pruned_drop_old. intros label dt Ep. unfold older_than_hour. rewrite Ep.
  apply old_hour_not_recent.
Qed.

Lemma dict_mem_pruned parse recent t label :
  dict_mem label (pruned parse recent t)
  = (match parse label with Ok dt => recent dt | Raise _ => false end)
    && dict_mem label t.
Proof.
  unfold dict_mem, pruned.
  rewrite (dict_get_filter_key
             (fun k => match parse k with Ok dt => recent dt | Raise _ => false end)).
  now destruct (match parse label with Ok dt => recent dt | Raise _ => false end).
Qed.

Lemma old_day_pruned now t label :
  older_than_day now label = true -> dict_mem label (pruned_daily now t) = false.
Proof.
  unfold older_than_day, pruned_daily. intros H. rewrite dict_mem_pruned.
  destruct (strptime_day label) as [dt|]; [|reflexivity].
  now rewrite (old_day_not_recent _ _ H).
Qed.

Lemma old_hour_pruned now t label :
  older_than_hour now label = true -> dict_mem label (pruned_hourly now t) = false.
Proof.
  unfold older_than_hour, pruned_hourly. intros H. rewrite dict_mem_pruned.
  destruct (strptime_hour label) as [dt|]; [|reflexivity].
  now rewrite (old_hour_not_recent _ _ H).
Qed.

(** C2.  For well-formed stored tables and every [now], the clean-up loops
    of [check_rate_limit] build the tables without any bucket whose label is
    more than one day (daily) or more than 3600 seconds (hourly) before
    [now]; and two stores that differ only in such buckets get the same
    answer from [check_rate_limit], so what is recorded in them does not
    contribute to the decision. *)
Theorem C2_old_buckets_do_not_count :
  forall (s : store) (emails : list email) (session_id : string) (now : datetime),
    wf_store s = true ->
    rbind (items (enc_table (daily_of s))) (fun its =>
      prune strptime_day (recent_day now) its [])
      = items (enc_table (pruned_daily now (daily_of s)))
    /\ rbind (items (enc_table (hourly_of s))) (fun its =>
         prune strptime_hour (recent_hour now) its [])
       = items (enc_table (pruned_hourly now (hourly_of s)))
    /\ (forall label, older_than_day now label = true ->
          dict_mem label (pruned_daily now (daily_of s)) = false)
    /\ (forall label, older_than_hour now label = true ->
          dict_mem label (pruned_hourly now (hourly_of s)) = false)
    /\ (forall (s' : store) (emails' : list email),
          wf_store s' = true ->
          drop_old (older_than_day now) (daily_of s')
            = drop_old (older_than_day now) (daily_of s) ->
          drop_old (older_than_hour now) (hourly_of s')
            = drop_old (older_than_hour now) (hourly_of s) ->
          fst (check_rate_limit session_id now (mkWorld (file_of s') emails'))
          = fst (check_rate_limit session_id now (mkWorld (file_of s) emails))).
Proof.
  intros s emails session_id now Hwf.
  pose proof Hwf as Hwf0. unfold wf_store in Hwf0.
  apply andb_true_iff in Hwf0. destruct Hwf0 as [Hd Hh].
  repeat split.
  - rewrite items_enc_table. cbn [rbind]. now rewrite prune_enc.
  - rewrite items_enc_table. cbn [rbind]. now rewrite prune_enc.
  - intros label. apply old_day_pruned.
  - intros label. apply old_hour_pruned.
  - intros s' emails' Hwf' Ed Eh.
    rewrite !check_rate_limit_tables by assumption. cbn [fst].
    rewrite <- (pruned_daily_drop_old now (daily_of s')), Ed, pruned_daily_drop_old.
    rewrite <- (pruned_hourly_drop_old now (hourly_of s')), Eh, pruned_hourly_drop_old.
    reflexivity.
Qed.

Lemma C2_old_buckets_do_not_count_witness :
  wf_store c2_store = true
  /\ older_than_day c2_now "2024-03-05" = true
  /\ dict_mem "2024-03-05" (pruned_daily c2_now (daily_of c2_store)) = false
  /\ older_than_hour c2_now "2024-03-07-08" = true
  /\ dict_mem "2024-03-07-08" (pruned_hourly c2_now (hourly_of c2_store)) = false
  /\ fst (check_rate_limit "bob" c2_now (mkWorld (file_of c2_store') []))
     = fst (check_rate_limit "bob" c2_now (mkWorld (file_of c2_store) [])).
Proof.
  pose proof (C2_old_buckets_do_not_count c2_store [] "bob"%string c2_now eq_refl)
    as (_ & _ & Hday & Hhour & Hsame).
  split; [reflexivity|]. split; [reflexivity|]. split; [apply Hday; reflexivity|].
  split; [reflexivity|]. split; [apply Hhour; reflexivity|].
  apply Hsame; reflexivity.
Defined.

(** ** [check_rate_limit] does not write *)

Lemma read_only_ret {A} (a : A) : read_only (ret a).
Proof. intros w. reflexivity. Qed.

Lemma read_only_lift {A} (r : result A) : read_only (lift r).
Proof. intros w. reflexivity. Qed.

Lemma read_only_load : read_only load_rate_limits.
Proof. intros w. unfold load_rate_limits. now destruct (rate_limit_file w). Qed.

Lemma read_only_bind {A B} (c : M A) (k : A -> M B) :
  read_only c -> (forall a, read_only (k a)) -> read_only (bind c k).
Proof.
  intros Hc Hk w. unfold bind. specialize (Hc w).
  destruct (c w) as [[a|e] w']; cbn [snd] in Hc; subst w'; [apply Hk|reflexivity].
Qed.

Lemma read_only_check session_id now : read_only (check_rate_limit session_id now).
Proof.
  unfold check_rate_limit. cbv zeta.
  repeat (apply read_only_bind;
          [first [apply read_only_load | apply read_only_lift]|intros ?]).
  match goal with |- read_only (if ?b then _ else _) => destruct b end;
    [apply read_only_ret|].
  apply read_only_bind; [apply read_only_lift|intros b].
  destruct b; apply read_only_ret.
Qed.

Lemma dict_get_incr_table_other label session_id t l :
  label <> l -> dict_get l (incr_table label session_id t) = dict_get l t.
Proof.
  intros Hne. unfold incr_table, bump.
  assert (E : dict_get l (ensure label t) = dict_get l t).
  { unfold ensure. destruct (dict_mem label t); [reflexivity|].
    now apply dict_get_set_neq. }
  destruct (dict_get label (ensure label t)); [|exact E].
  now rewrite dict_get_set_neq.
Qed.

Lemma today_not_old now :
  valid_datetime now = true -> older_than_day now (strftime_day now) = false.
Proof.
  intros Hv. unfold older_than_day. rewrite strptime_strftime_day by assumption.
  pose proof (recent_day_today now Hv) as Hr.
  destruct (day_us <? dt_sub now (day_start now)) eqn:E; [|reflexivity].
  apply old_day_not_recent in E. congruence.
Qed.

Lemma this_hour_not_old now :
  valid_datetime now = true -> older_than_hour now (strftime_hour now) = false.
Proof.
  intros Hv. unfold older_than_hour. rewrite strptime_strftime_hour by assumption.
  pose proof (recent_hour_now now Hv) as Hr.
  destruct (hour_us <? dt_sub now (hour_start now)) eqn:E; [|reflexivity].
  apply old_hour_not_recent in E. congruence.
Qed.

(** C10.  [check_rate_limit] never writes: whatever the file holds and
    whatever the call returns or raises, the file (and the archive) are the
    same after the call.  For well-formed tables, a bucket that the call
    drops from its in-memory copy is still in the file afterwards, and it is
    still there, unchanged, after the [increment_rate_limit] that follows,
    which saves without pruning. *)
Theorem C10_check_does_not_write :
  forall (session_id : string) (now : datetime),
    (forall w : world, snd (check_rate_limit session_id now w) = w)
    /\ (forall (s : store) (emails : list email) (label : string),
          wf_store s = true -> valid_datetime now = true ->
          older_than_day now label = true ->
          dict_mem label (daily_of s) = true ->
          dict_mem label (pruned_daily now (daily_of s)) = false
          /\ exists s',
               (check_rate_limit session_id now ;;; increment_rate_limit session_id now)
                 (mkWorld (file_of s) emails)
               = (Ok tt, mkWorld (file_of s') emails)
               /\ dict_get label (daily_of s') = dict_get label (daily_of s))
    /\ (forall (s : store) (emails : list email) (label : string),
          wf_store s = true -> valid_datetime now = true ->
          older_than_hour now label = true ->
          dict_mem label (hourly_of s) = true ->
          dict_mem label (pruned_hourly now (hourly_of s)) = false
          /\ exists s',
               (check_rate_limit session_id now ;;; increment_rate_limit session_id now)
                 (mkWorld (file_of s) emails)
               = (Ok tt, mkWorld (file_of s') emails)
               /\ dict_get label (hourly_of s') = dict_get label (hourly_of s)).
Proof.
  intros session_id now. split; [apply read_only_check|].
  split; intros s emails label Hwf Hv Hold Hin.
  - split; [now apply old_day_pruned|].
    exists (incr_store session_id now s). split.
    + unfold bind. rewrite check_rate_limit_tables by assumption.
      apply increment_rate_limit_tables.
    + cbn [incr_store daily_of]. apply dict_get_incr_table_other.
      intros <-. rewrite today_not_old in Hold by assumption. discriminate.
  - split; [now apply old_hour_pruned|].
    exists (incr_store session_id now s). split.
    + unfold bind. rewrite check_rate_limit_tables by assumption.
      apply increment_rate_limit_tables.
    + cbn [incr_store hourly_of]. apply dict_get_incr_table_other.
      intros <-. rewrite this_hour_not_old in Hold by assumption. discriminate.
Qed.

Lemma C10_check_does_not_write_witness :
  wf_store c2_store = true /\ valid_datetime c2_now = true
  /\ older_than_day c2_now "2024-03-05" = true
  /\ dict_mem "2024-03-05" (daily_of c2_store) = true
  /\ snd (check_rate_limit "bob" c2_now (mkWorld (file_of c2_store) []))
     = mkWorld (file_of c2_store) []
  /\ dict_mem "2024-03-05" (pruned_daily c2_now (daily_of c2_store)) = false.
Proof.
  pose proof (C10_check_does_not_write "bob"%string c2_now) as (Hro & Hday & _).
  do 4 (split; [reflexivity|]).
  split; [apply Hro|].
  exact (proj1 (Hday c2_store [] "2024-03-05"%string eq_refl eq_refl eq_refl eq_refl)).
Defined.

(** ** Loading the rate-limit file *)

(** C3.  [load_rate_limits] answers the empty table pair when the file is
    missing and when reading or parsing it fails.  But content that
    [json.load] accepts is handed on as it is, and the rate-limiting
    operations raise on it: an empty JSON object has no ["daily"] key
    ([KeyError]), a JSON array cannot be indexed by a string ([TypeError]),
    and a bucket label that is not a date makes [strptime] raise
    ([ValueError]). *)
Theorem C3_loaded_content_can_raise :
  forall (emails : list email) (session_id : string) (now : datetime),
    fst (load_rate_limits (mkWorld FileMissing emails)) = Ok empty_limits
    /\ fst (load_rate_limits (mkWorld FileUnreadable emails)) = Ok empty_limits
    /\ fst (check_rate_limit session_id now (mkWorld FileMissing emails))
       = Ok (true, EmptyString)
    /\ fst (check_rate_limit session_id now (mkWorld FileUnreadable emails))
       = Ok (true, EmptyString)
    /\ fst (check_rate_limit session_id now (mkWorld (FileJson (PDict [])) emails))
       = Raise KeyError
    /\ fst (increment_rate_limit session_id now (mkWorld (FileJson (PDict [])) emails))
       = Raise KeyError
    /\ fst (check_rate_limit session_id now (mkWorld (FileJson (PList [])) emails))
       = Raise TypeError
    /\ fst (increment_rate_limit session_id now (mkWorld (FileJson (PList [])) emails))
       = Raise TypeError
    /\ fst (check_rate_limit session_id now
              (mkWorld (FileJson (PDict [("daily"%string,
                                          PDict [("yesterday"%string, PDict [])]);
                                         ("hourly"%string, PDict [])])) emails))
       = Raise ValueError.
Proof.
  intros emails session_id now.
  repeat split; try reflexivity.
  - now rewrite (check_rate_limit_tables NoFile).
  - now rewrite (check_rate_limit_tables BadFile).
Qed.

(** ** The generation handler *)

Lemma keeps_archive_ret {A} (a : A) : keeps_archive (ret a).
Proof. intros w. reflexivity. Qed.

Lemma keeps_archive_lift {A} (r : result A) : keeps_archive (lift r).
Proof. intros w. reflexivity. Qed.

Lemma keeps_archive_load : keeps_archive load_rate_limits.
Proof. intros w. unfold load_rate_limits. now destruct (rate_limit_file w). Qed.

Lemma keeps_archive_save data : keeps_archive (save_rate_limits data).
Proof. intros w. reflexivity. Qed.

Lemma keeps_archive_bind {A B} (c : M A) (k : A -> M B) :
  keeps_archive c -> (forall a, keeps_archive (k a)) -> keeps_archive (bind c k).
Proof.
  intros Hc Hk w. unfold bind. specialize (Hc w).
  destruct (c w) as [[a|e] w']; cbn [snd] in Hc |- *; [|exact Hc].
  rewrite Hk. exact Hc.
Qed.

Lemma keeps_archive_increment session_id t :
  keeps_archive (increment_rate_limit session_id t).
Proof.
  unfold increment_rate_limit. cbv zeta.
  repeat (apply keeps_archive_bind;
          [first [apply keeps_archive_load | apply keeps_archive_lift]|intros ?]).
  apply keeps_archive_save.
Qed.

(** An accepted generation: one increment, then one entry appended. *)
Lemma generate_email_accepted request env w w2 msg text :
  valid_request request = true ->
  fst (check_rate_limit (session_of request env) (now_check env) w) = Ok (true, msg) ->
  increment_rate_limit (session_of request env) (now_increment env) w = (Ok tt, w2) ->
  generate env = inl text ->
  generate_email request env w
  = (Ok (mkResponse text (email_subject request)),
     mkWorld (rate_limit_file w2)
             (saved_emails w2
              ++ [mkEmail (str (len (saved_emails w2) + 1) ++ "_" ++ str (rand_id env))
                          (strftime_minute (now_saved env))
                          (person_name request) (target_company request)
                          (email_subject request) text])).
Proof.
  intros Hvalid Hcheck Hincr Hgen.
  unfold generate_email. rewrite Hvalid. cbn [negb]. cbv zeta. unfold bind at 1.
  pose proof (read_only_check (session_of request env) (now_check env) w) as Hro.
  destruct (check_rate_limit (session_of request env) (now_check env) w)
    as [r w'] eqn:Ec.
  cbn [fst snd] in Hcheck, Hro. subst r w'. cbn [fst snd negb].
  unfold bind at 1. rewrite Hincr, Hgen. reflexivity.
Qed.

(** C4.  A request passes validation and the rate check, the increment is
    saved, and then both provider calls fail: the handler raises an
    [HTTPException] with status 500, the archive is as before the request,
    and the state is the one the increment left, so the session's counts
    in the buckets of that moment are one higher than before and are not
    taken back. *)
Theorem C4_generation_failure :
  forall (request : EmailGenerationRequest) (env : environment)
         (w w2 : world) (msg err : string),
    valid_request request = true ->
    fst (check_rate_limit (session_of request env) (now_check env) w) = Ok (true, msg) ->
    increment_rate_limit (session_of request env) (now_increment env) w = (Ok tt, w2) ->
    generate env = inr err ->
    generate_email request env w
      = (Raise (HTTPException 500 ("Error generating email: " ++ err)%string), w2)
    /\ status_of (fst (generate_email request env w)) = 500
    /\ saved_emails w2 = saved_emails w
    /\ forall s : store,
         rate_limit_file w = file_of s ->
         let session_id := session_of request env in
         let t := now_increment env in
         rate_limit_file w2 = file_of (incr_store session_id t s)
         /\ count (daily_of (incr_store session_id t s)) (strftime_day t) session_id
            = count (daily_of s) (strftime_day t) session_id + 1
         /\ count (hourly_of (incr_store session_id t s)) (strftime_hour t) session_id
            = count (hourly_of s) (strftime_hour t) session_id + 1.
Proof.
  intros request env w w2 msg err Hvalid Hcheck Hincr Hgen.
  assert (Hrun : generate_email request env w
                 = (Raise (HTTPException 500 ("Error generating email: " ++ err)%string), w2)).
  { unfold generate_email. rewrite Hvalid. cbn [negb]. cbv zeta. unfold bind at 1.
    pose proof (read_only_check (session_of request env) (now_check env) w) as Hro.
    destruct (check_rate_limit (session_of request env) (now_check env) w)
      as [r w'] eqn:Ec.
    cbn [fst snd] in Hcheck, Hro. subst r w'. cbn [fst snd negb].
    unfold bind. rewrite Hincr, Hgen. reflexivity. }
  split; [exact Hrun|]. split; [now rewrite Hrun|].
  assert (Hkeep : saved_emails w2 = saved_emails w).
  { pose proof (keeps_archive_increment (session_of request env) (now_increment env) w)
      as Hk. now rewrite Hincr in Hk. }
  split; [exact Hkeep|].
  intros s Hfile session_id t.
  destruct w as [file emails]. cbn [rate_limit_file] in Hfile. subst file.
  rewrite increment_rate_limit_tables in Hincr. inversion Hincr; subst w2.
  split; [reflexivity|].
  cbn [incr_store daily_of hourly_of]. rewrite !count_incr_table, !String.eqb_refl.
  split; reflexivity.
Qed.

Lemma C4_generation_failure_witness :
  let w := mkWorld FileMissing [] in
  valid_request run_request = true
  /\ fst (check_rate_limit (session_of run_request c4_env) (now_check c4_env) w)
     = Ok (true, EmptyString)
  /\ generate c4_env = inr "quota exceeded"%string
  /\ status_of (fst (generate_email run_request c4_env w)) = 500
  /\ saved_emails (snd (generate_email run_request c4_env w)) = [].
Proof.
  intros w.
  pose proof (C4_generation_failure run_request c4_env w
                (snd (increment_rate_limit (session_of run_request c4_env)
                                           (now_increment c4_env) w))
                EmptyString "quota exceeded"%string
                eq_refl eq_refl eq_refl eq_refl) as (Hrun & Hstatus & Hkeep & _).
  split; [reflexivity|]. split; [reflexivity|]. split; [reflexivity|].
  split; [exact Hstatus|]. rewrite Hrun. exact Hkeep.
Defined.

(** ** Identifiers of archive entries *)

(** C5.  Identifiers can repeat.  The identifier is the archive length
    plus one, an underscore and a random number from 1000 to 9999; after a
    deletion the length comes back to an earlier value.  Here two entries
    are created, the first is deleted, and a third is created with the same
    random draw as the second: the archive then holds two entries with the
    identifier ["2_2000"]. *)
Theorem C5_identifiers_can_repeat :
  let '(r, w) := run_with_delete (mkWorld FileMissing []) in
  status_of r = 200
  /\ map id (saved_emails w) = ["2_2000"%string; "2_2000"%string].
Proof. vm_compute. split; reflexivity. Qed.

(** ** Deleting by identifier *)

Lemma filter_length_split {A} (p : A -> bool) (l : list A) :
  len (filter p l) + len (filter (fun x => negb (p x)) l) = len l.
Proof.
  unfold len. induction l as [|x r IH]; cbn [filter]; [reflexivity|].
  destruct (p x); cbn [negb List.length]; lia.
Qed.

Lemma filter_all {A} (p : A -> bool) (l : list A) :
  filter (fun x => negb (p x)) l = [] -> filter p l = l.
Proof.
  induction l as [|x r IH]; cbn [filter]; [reflexivity|].
  destruct (p x); cbn [negb]; [|discriminate]. intros H. now rewrite IH.
Qed.

Lemma filter_twice_neg {A} (p : A -> bool) (l : list A) :
  filter (fun x => negb (p x)) (filter p l) = [].
Proof.
  induction l as [|x r IH]; cbn [filter]; [reflexivity|].
  destruct (p x) eqn:E; cbn [filter]; [rewrite E|]; exact IH.
Qed.

Lemma len_nil_iff {A} (l : list A) : len l = 0 <-> l = [].
Proof. unfold len. destruct l; cbn; split; intros; try reflexivity; try discriminate; lia. Qed.

Lemma nodup_matches_once (ids : list string) (k : string) :
  NoDup ids -> len (filter (String.eqb k) ids) <= 1.
Proof.
  unfold len. induction 1 as [|x r Hx Hr IH]; cbn [filter List.length]; [lia|].
  destruct (String.eqb_spec k x) as [->|]; [|exact IH].
  assert (E : filter (String.eqb x) r = []).
  { clear -Hx. induction r as [|y r IH]; cbn [filter]; [reflexivity|].
    destruct (String.eqb_spec x y) as [->|]; [exfalso; apply Hx; now left|].
    apply IH. intros Hin. apply Hx. now right. }
  rewrite E. cbn. lia.
Qed.

Lemma filter_map_ids (k : string) (l : list email) :
  len (filter (fun e => String.eqb (id e) k) l) = len (filter (String.eqb k) (map id l)).
Proof.
  unfold len. induction l as [|e r IH]; cbn [filter map]; [reflexivity|].
  rewrite (String.eqb_sym k (id e)).
  destruct (String.eqb (id e) k); cbn [List.length]; lia.
Qed.

Lemma filter_same {A} (p : A -> bool) (l : list A) :
  filter p (filter p l) = filter p l.
Proof.
  induction l as [|x r IH]; cbn [filter]; [reflexivity|].
  destruct (p x) eqn:E; cbn [filter]; [rewrite E, IH; reflexivity|exact IH].
Qed.

Lemma delete_email_run email_id w :
  delete_email email_id w
  = (if len (filter (fun e => negb (String.eqb (id e) email_id)) (saved_emails w))
        =? len (saved_emails w)
     then Raise (HTTPException 404 "Email not found")
     else Ok "Email deleted successfully"%string,
     mkWorld (rate_limit_file w)
             (filter (fun e => negb (String.eqb (id e) email_id)) (saved_emails w))).
Proof.
  unfold delete_email, bind, get_saved, put_saved. cbv zeta.
  destruct (_ =? _); reflexivity.
Qed.

(** C6 as stated fails on an archive that holds an identifier twice (the
    archive reached by [run_with_delete]): deleting ["2_2000"] takes the
    archive from two entries to none, not to one. *)
Lemma C6_delete_removes_all_counterexample :
  ~ (forall (w : world) (email_id : string),
       existsb (fun e => String.eqb (id e) email_id) (saved_emails w) = true ->
       len (saved_emails (snd (delete_email email_id w))) = len (saved_emails w) - 1).
Proof.
  intros H.
  specialize (H (snd (run_with_delete (mkWorld FileMissing []))) "2_2000"%string eq_refl).
  vm_compute in H. discriminate.
Qed.

(** C6, amended.  With [m] the number of entries that carry the
    identifier: when [m] is zero, [delete_email] raises the 404
    [HTTPException] and file and archive are unchanged; otherwise it
    answers with the success message, the archive becomes the entries with
    another identifier, in their order, so its size is [N - m] and no entry
    with the identifier is left, and deleting the same identifier again
    raises the 404.  When the identifiers of the archive are pairwise
    distinct, [m] is one and the size is [N - 1]. *)
Theorem C6_delete_email :
  forall (w : world) (email_id : string),
    let emails := saved_emails w in
    let matching := filter (fun e => String.eqb (id e) email_id) emails in
    let kept := filter (fun e => negb (String.eqb (id e) email_id)) emails in
    (matching = [] ->
       delete_email email_id w = (Raise (HTTPException 404 "Email not found"), w)
       /\ status_of (fst (delete_email email_id w)) = 404)
    /\ (matching <> [] ->
          delete_email email_id w
            = (Ok "Email deleted successfully"%string, mkWorld (rate_limit_file w) kept)
          /\ len kept = len emails - len matching
          /\ (forall e, In e kept -> id e <> email_id)
          /\ (forall e, In e emails -> id e <> email_id -> In e kept)
          /\ fst (delete_email email_id (snd (delete_email email_id w)))
             = Raise (HTTPException 404 "Email not found")
          /\ (NoDup (map id emails) -> len kept = len emails - 1)).
Proof.
  intros w email_id emails matching kept.
  pose proof (filter_length_split (fun e => String.eqb (id e) email_id) emails) as Hlen.
  cbv beta in Hlen. fold matching kept in Hlen.
  split.
  - intros Hnone.
    assert (Hkept : kept = emails).
    { apply (filter_all (fun e => negb (String.eqb (id e) email_id))).
      rewrite <- Hnone. unfold matching. apply filter_ext.
      intros e. now rewrite negb_involutive. }
    rewrite delete_email_run. fold emails kept. rewrite Hkept, Z.eqb_refl.
    destruct w; split; reflexivity.
  - intros Hsome.
    assert (Hpos : 0 < len matching).
    { destruct matching; [congruence|]. unfold len. cbn. lia. }
    split; [|split; [lia|split; [|split; [|split]]]].
    + rewrite delete_email_run. fold emails kept.
      destruct (Z.eqb_spec (len kept) (len emails)); [lia|reflexivity].
    + intros e He. apply filter_In in He. destruct He as [_ He].
      apply negb_true_iff in He. now apply String.eqb_neq.
    + intros e He Hne. apply filter_In. split; [assumption|].
      apply negb_true_iff. now apply String.eqb_neq.
    + rewrite !delete_email_run. cbn [fst snd saved_emails]. fold emails kept.
      assert (E : filter (fun e => negb (String.eqb (id e) email_id)) kept = kept)
        by apply filter_same.
      rewrite E, Z.eqb_refl. reflexivity.
    + intros Hnd.
      pose proof (nodup_matches_once (map id emails) email_id Hnd) as Hone.
      rewrite <- filter_map_ids in Hone. fold matching in Hone. lia.
Qed.

Lemma C6_delete_email_witness :
  let w := mkWorld FileMissing c6_archive in
  filter (fun e => String.eqb (id e) "9_9999") c6_archive = []
  /\ status_of (fst (delete_email "9_9999" w)) = 404
  /\ filter (fun e => String.eqb (id e) "1_1000") c6_archive <> []
  /\ NoDup (map id c6_archive)
  /\ len (saved_emails (snd (delete_email "1_1000" w))) = len c6_archive - 1.
Proof.
  intros w.
  pose proof (C6_delete_email w "9_9999"%string) as (Hnone & _).
  pose proof (C6_delete_email w "1_1000"%string) as (_ & Hsome).
  assert (Hm : filter (fun e => String.eqb (id e) "1_1000") c6_archive <> [])
    by (vm_compute; discriminate).
  assert (Hnd : NoDup (map id c6_archive)).
  { apply nodupb_NoDup. reflexivity. }
  split; [reflexivity|]. split; [exact (proj2 (Hnone eq_refl))|].
  split; [exact Hm|]. split; [exact Hnd|].
  destruct (Hsome Hm) as (Hrun & _ & _ & _ & _ & Hone).
  rewrite Hrun. cbn [snd saved_emails]. exact (Hone Hnd).
Defined.

(** ** Listing the archive *)

Lemma len_nonneg {A} (l : list A) : 0 <= len l.
Proof. unfold len. lia. Qed.

Lemma to_nat_len {A} (l : list A) : Z.to_nat (len l) = List.length l.
Proof. unfold len. apply Nat2Z.id. Qed.

Lemma firstn_min_length {A} (k : nat) (l : list A) :
  firstn (Nat.min k (List.length l)) l = firstn k l.
Proof.
  destruct (Nat.le_ge_cases k (List.length l)) as [H|H].
  - now rewrite Nat.min_l.
  - rewrite Nat.min_r by assumption. now rewrite !firstn_all2 by lia.
Qed.

Lemma get_saved_emails_run limit offset w :
  get_saved_emails limit offset w
  = (Ok (py_slice (saved_emails w) (Z.min offset (len (saved_emails w)))
                  (Z.min (offset + limit) (len (saved_emails w)))), w).
Proof. reflexivity. Qed.

(** C7.  [get_saved_emails] never raises and leaves the state alone; it
    returns the Python slice of the archive between [min(offset, len)] and
    [min(offset + limit, len)], which is always a run of consecutive
    entries in archive order.  An offset at or beyond the length gives the
    empty list, and for a non-negative offset and limit the result is the
    [limit] entries that follow the first [offset] ones (fewer at the
    end). *)
Theorem C7_get_saved_emails :
  forall (w : world) (limit offset : Z),
    let emails := saved_emails w in
    let start := Z.min offset (len emails) in
    let stop := Z.min (offset + limit) (len emails) in
    exists page,
      get_saved_emails limit offset w = (Ok page, w)
      /\ page = py_slice emails start stop
      /\ start <= len emails /\ stop <= len emails
      /\ (exists before after, emails = before ++ page ++ after)
      /\ (len emails <= offset -> page = [])
      /\ (0 <= offset -> 0 <= limit ->
          page = firstn (Z.to_nat limit) (skipn (Z.to_nat offset) emails)).
Proof.
  intros w limit offset emails start stop.
  exists (py_slice emails start stop).
  split; [apply get_saved_emails_run|]. split; [reflexivity|].
  split; [subst start; lia|]. split; [subst stop; lia|].
  pose proof (len_nonneg emails) as Hn.
  split; [|split].
  - unfold py_slice. cbv zeta.
    exists (firstn (Z.to_nat (slice_index (len emails) start)) emails).
    exists (skipn (Z.to_nat (slice_index (len emails) stop
                             - slice_index (len emails) start))
                  (skipn (Z.to_nat (slice_index (len emails) start)) emails)).
    now rewrite !firstn_skipn.
  - intros Hoff. unfold py_slice. cbv zeta.
    assert (Ea : slice_index (len emails) start = len emails).
    { unfold slice_index. subst start.
      destruct (Z.ltb_spec (Z.min offset (len emails)) 0); lia. }
    rewrite Ea, to_nat_len, skipn_all. apply firstn_nil.
  - intros Hoff Hlim. unfold py_slice. cbv zeta.
    assert (Ea : slice_index (len emails) start = start).
    { unfold slice_index. subst start.
      destruct (Z.ltb_spec (Z.min offset (len emails)) 0); lia. }
    assert (Eb : slice_index (len emails) stop = stop).
    { unfold slice_index. subst stop.
      destruct (Z.ltb_spec (Z.min (offset + limit) (len emails)) 0); lia. }
    rewrite Ea, Eb.
    destruct (Z.le_gt_cases (len emails) offset) as [Hge|Hlt].
    + assert (Es : start = len emails) by (subst start; lia).
      rewrite Es, to_nat_len, skipn_all.
      rewrite (skipn_all2 emails) by (unfold len in Hge; lia).
      now rewrite !firstn_nil.
    + assert (Es : start = offset) by (subst start; lia).
      rewrite Es. rewrite <- (firstn_min_length (Z.to_nat limit)).
      f_equal. rewrite length_skipn. subst stop. unfold len in *. lia.
Qed.

Lemma C7_get_saved_emails_witness :
  let w := mkWorld FileMissing c6_archive in
  len c6_archive <= 7
  /\ fst (get_saved_emails 50 7 w) = Ok []
  /\ 0 <= 1 /\ 0 <= 50
  /\ fst (get_saved_emails 50 1 w) = Ok (firstn 50 (skipn 1 c6_archive)).
Proof.
  intros w.
  destruct (C7_get_saved_emails w 50 7) as (p1 & Hrun1 & _ & _ & _ & _ & Hempty & _).
  destruct (C7_get_saved_emails w 50 1) as (p2 & Hrun2 & _ & _ & _ & _ & _ & Hpage).
  split; [vm_compute; discriminate|].
  split; [rewrite Hrun1; cbn [fst]; f_equal; apply Hempty; vm_compute; discriminate|].
  split; [lia|]. split; [lia|].
  rewrite Hrun2. cbn [fst]. f_equal. apply Hpage; lia.
Defined.

(** ** Counting keys into a dict *)

Lemma get_or_zero_set k v d c :
  get_or_zero (dict_set k v d) c = if String.eqb k c then v else get_or_zero d c.
Proof.
  unfold get_or_zero. destruct (String.eqb_spec k c) as [<-|Hne].
  - now rewrite dict_get_set_eq.
  - now rewrite dict_get_set_neq.
Qed.

Lemma occurrences_cons c x l :
  occurrences c (x :: l) = (if String.eqb x c then 1 else 0) + occurrences c l.
Proof.
  unfold occurrences, len. cbn [filter]. rewrite (String.eqb_sym c x).
  destruct (String.eqb x c); cbn [List.length]; lia.
Qed.

Lemma count_keys_into_value l : forall d c,
  get_or_zero (count_keys_into d l) c = get_or_zero d c + occurrences c l.
Proof.
  induction l as [|x r IH]; intros d c.
  - unfold occurrences, len. cbn. lia.
  - unfold count_keys_into in *. cbn [fold_left]. rewrite IH.
    fold (get_or_zero d x). rewrite get_or_zero_set, occurrences_cons.
    destruct (String.eqb_spec x c) as [<-|]; lia.
Qed.

Lemma filter_comm {A} (p q : A -> bool) (l : list A) :
  filter p (filter q l) = filter q (filter p l).
Proof.
  induction l as [|x r IH]; cbn [filter]; [reflexivity|].
  destruct (p x) eqn:Ep, (q x) eqn:Eq; cbn [filter]; rewrite ?Ep, ?Eq, IH; reflexivity.
Qed.

Lemma filter_andb {A} (p q : A -> bool) (l : list A) :
  filter p (filter q l) = filter (fun x => p x && q x) l.
Proof.
  induction l as [|x r IH]; cbn [filter]; [reflexivity|].
  destruct (q x); cbn [filter]; rewrite ?andb_true_r, ?andb_false_r.
  - destruct (p x); now rewrite IH.
  - exact IH.
Qed.

Lemma filter_absorb (q : string -> bool) (y : string) (l : list string) :
  q y = false ->
  filter q (filter (fun z => negb (String.eqb y z)) l) = filter q l.
Proof.
  intros Hq. induction l as [|x r IH]; cbn [filter]; [reflexivity|].
  destruct (String.eqb_spec y x) as [<-|Hne]; cbn [negb filter].
  - now rewrite Hq.
  - now rewrite IH.
Qed.

Lemma first_occurrences_filter (q : string -> bool) (l : list string) :
  first_occurrences (filter q l) = filter q (first_occurrences l).
Proof.
  induction l as [|x r IH]; cbn [filter first_occurrences]; [reflexivity|].
  destruct (q x) eqn:Eq; cbn [first_occurrences].
  - rewrite IH. f_equal. apply filter_comm.
  - rewrite IH. symmetry. now apply filter_absorb.
Qed.

Lemma count_keys_into_keys l : forall d,
  keys (count_keys_into d l)
  = keys d ++ first_occurrences (filter (fun c => negb (dict_mem c d)) l).
Proof.
  induction l as [|x r IH]; intros d.
  - cbn. now rewrite app_nil_r.
  - unfold count_keys_into in *. cbn [fold_left filter]. rewrite IH.
    rewrite keys_dict_set.
    destruct (dict_mem x d) eqn:Ex; cbn [negb].
    + f_equal. f_equal. apply filter_ext. intros c. rewrite dict_mem_set.
      destruct (String.eqb_spec c x) as [->|]; [now rewrite Ex|reflexivity].
    + cbn [first_occurrences]. rewrite <- app_assoc. cbn [app]. do 2 f_equal.
      rewrite <- first_occurrences_filter. f_equal.
      rewrite filter_andb. apply filter_ext. intros c.
      rewrite dict_mem_set, negb_orb, (String.eqb_sym c x). reflexivity.
Qed.

Lemma first_occurrences_In l c : In c (first_occurrences l) <-> In c l.
Proof.
  induction l as [|x r IH]; cbn [first_occurrences In]; [tauto|].
  rewrite filter_In, IH, negb_true_iff.
  destruct (String.eqb_spec x c) as [->|Hne]; [tauto|].
  split; [tauto|]. intros [?|?]; [tauto|]. right. split; [assumption|reflexivity].
Qed.

Lemma NoDup_filter' {A} (p : A -> bool) (l : list A) : NoDup l -> NoDup (filter p l).
Proof.
  induction 1 as [|x r Hx Hr IH]; cbn [filter]; [constructor|].
  destruct (p x); [|assumption]. constructor; [|assumption].
  intros Hin. apply filter_In in Hin. tauto.
Qed.

Lemma first_occurrences_NoDup l : NoDup (first_occurrences l).
Proof.
  induction l as [|x r IH]; cbn [first_occurrences]; constructor.
  - intros Hin. apply filter_In in Hin. destruct Hin as [_ Hin].
    now rewrite String.eqb_refl in Hin.
  - now apply NoDup_filter'.
Qed.

Lemma dict_items_by_keys (d : list (string * Z)) :
  NoDup (keys d) -> d = map (fun k => (k, get_or_zero d k)) (keys d).
Proof.
  unfold keys. induction d as [|[k v] r IH]; cbn [map fst]; intros Hnd;
    [reflexivity|].
  inversion Hnd as [|? ? Hk Hr]; subst. f_equal.
  - unfold get_or_zero. cbn [dict_get]. now rewrite String.eqb_refl.
  - rewrite IH at 1 by assumption. apply map_ext_in. intros k' Hin.
    unfold get_or_zero. cbn [dict_get].
    destruct (String.eqb_spec k' k) as [->|]; [contradiction|reflexivity].
Qed.

Lemma count_keys_items l :
  count_keys l = map (fun c => (c, occurrences c l)) (first_occurrences l).
Proof.
  assert (Hk : keys (count_keys l) = first_occurrences l).
  { unfold count_keys. rewrite count_keys_into_keys. cbn [keys map app].
    f_equal. rewrite (filter_ext _ (fun _ => true)) by reflexivity.
    clear. induction l as [|x r IH]; cbn [filter]; [reflexivity|now rewrite IH]. }
  rewrite (dict_items_by_keys (count_keys l)) at 1
    by (rewrite Hk; apply first_occurrences_NoDup).
  rewrite Hk. apply map_ext. intros c. unfold count_keys.
  rewrite count_keys_into_value. reflexivity.
Qed.

(** ** The stable descending sort *)

Lemma insert_desc_perm x l : Permutation (insert_desc x l) (x :: l).
Proof.
  induction l as [|y r IH]; cbn [insert_desc]; [reflexivity|].
  destruct (snd x <? snd y); [|reflexivity].
  rewrite IH. apply perm_swap.
Qed.

Lemma sorted_desc_perm l : Permutation (sorted_desc l) l.
Proof.
  induction l as [|x r IH]; cbn [sorted_desc fold_right]; [reflexivity|].
  fold (sorted_desc r). rewrite insert_desc_perm. now constructor.
Qed.

Lemma insert_desc_sorted x l :
  StronglySorted (fun a b => snd b <= snd a) l ->
  StronglySorted (fun a b => snd b <= snd a) (insert_desc x l).
Proof.
  induction 1 as [|y r Hr IH Hy]; cbn [insert_desc].
  - repeat constructor.
  - destruct (Z.ltb_spec (snd x) (snd y)) as [Hlt|Hge].
    + constructor; [exact IH|].
      rewrite (Forall_forall (fun b => snd b <= snd y)). intros z Hz.
      apply (Permutation_in _ (insert_desc_perm x r)) in Hz.
      destruct Hz as [<-|Hz]; [lia|].
      rewrite Forall_forall in Hy. now apply Hy.
    + constructor; [now constructor|]. constructor; [assumption|].
      rewrite Forall_forall in Hy |- *. intros z Hz. specialize (Hy z Hz). lia.
Qed.

Lemma sorted_desc_sorted l : StronglySorted (fun a b => snd b <= snd a) (sorted_desc l).
Proof.
  induction l as [|x r IH]; cbn [sorted_desc fold_right]; [constructor|].
  now apply insert_desc_sorted.
Qed.

Lemma insert_desc_stable n x l :
  filter (fun y => snd y =? n) (insert_desc x l)
  = filter (fun y => snd y =? n) (x :: l).
Proof.
  induction l as [|y r IH]; cbn [insert_desc]; [reflexivity|].
  destruct (Z.ltb_spec (snd x) (snd y)) as [Hlt|Hge]; [|reflexivity].
  cbn [filter] in IH |- *. rewrite IH.
  destruct (Z.eqb_spec (snd x) n), (Z.eqb_spec (snd y) n); try reflexivity. lia.
Qed.

Lemma sorted_desc_stable n l :
  filter (fun y => snd y =? n) (sorted_desc l) = filter (fun y => snd y =? n) l.
Proof.
  induction l as [|x r IH]; cbn [sorted_desc fold_right]; [reflexivity|].
  fold (sorted_desc r). rewrite insert_desc_stable. cbn [filter]. now rewrite IH.
Qed.

(** ** Analytics *)

Lemma one_week_before_ok now :
  (8 * day_us <=? to_us now) = true ->
  one_week_before now = Ok (to_us now - 7 * day_us).
Proof.
  intros H. apply Z.leb_le in H. unfold one_week_before. cbv zeta.
  destruct (Z.ltb_spec (to_us now - 7 * day_us) day_us); [lia|reflexivity].
Qed.

Lemma get_analytics_run now w :
  (8 * day_us <=? to_us now) = true ->
  get_analytics now w
  = (Ok (mkAnalytics (len (saved_emails w))
                     (weekly_count (to_us now - 7 * day_us) (saved_emails w))
                     (total_words (saved_emails w) / Z.max 1 (len (saved_emails w)))
                     (count_keys (dates_of (saved_emails w)))
                     (top_companies_of (saved_emails w))), w).
Proof.
  intros H. unfold get_analytics, bind, get_saved.
  destruct (saved_emails w) as [|e r] eqn:E; [reflexivity|].
  unfold lift. rewrite one_week_before_ok by assumption. reflexivity.
Qed.

(** C8.  [top_companies] is the first ten entries of the ranking of the
    archive's companies: the distinct companies, each with the number of
    its entries, in first-appearance order, sorted by descending count by
    a sort that keeps entries of equal count in that order.  On
    ["A";"B";"A";"C";"B";"A"] the answer is A 3, B 2, C 1. *)
Theorem C8_top_companies :
  forall (w : world) (now : datetime),
    (8 * day_us <=? to_us now) = true ->
    let companies := map company (saved_emails w) in
    let counted := count_keys companies in
    let ranking := sorted_desc counted in
    exists a,
      get_analytics now w = (Ok a, w)
      /\ top_companies a = firstn 10 ranking
      /\ len (top_companies a) <= 10
      /\ counted = map (fun c => (c, occurrences c companies)) (first_occurrences companies)
      /\ NoDup (first_occurrences companies)
      /\ (forall c, In c (first_occurrences companies) <-> In c companies)
      /\ Permutation ranking counted
      /\ StronglySorted (fun x y => snd y <= snd x) ranking
      /\ (forall n, filter (fun x => snd x =? n) ranking
                    = filter (fun x => snd x =? n) counted)
      /\ (companies = ["A"; "B"; "A"; "C"; "B"; "A"]%string ->
          top_companies a = [("A", 3); ("B", 2); ("C", 1)]%string).
Proof.
  intros w now Hnow companies counted ranking.
  eexists. split; [apply get_analytics_run; assumption|].
  cbn [top_companies]. unfold top_companies_of. fold companies counted ranking.
  split; [reflexivity|].
  split; [unfold len; pose proof (firstn_le_length 10 ranking); lia|].
  split; [apply count_keys_items|].
  split; [apply first_occurrences_NoDup|].
  split; [intros c; apply first_occurrences_In|].
  split; [apply sorted_desc_perm|].
  split; [apply sorted_desc_sorted|].
  split; [intros n; apply sorted_desc_stable|].
  intros E. subst ranking counted. rewrite E. reflexivity.
Qed.

Lemma C8_top_companies_witness :
  (8 * day_us <=? to_us run_time) = true
  /\ exists a,
       get_analytics run_time (mkWorld FileMissing c8_archive) = (Ok a, mkWorld FileMissing c8_archive)
       /\ top_companies a = [("A", 3); ("B", 2); ("C", 1)]%string.
Proof.
  split; [reflexivity|].
  destruct (C8_top_companies (mkWorld FileMissing c8_archive) run_time eq_refl)
    as (a & Hrun & _ & _ & _ & _ & _ & _ & _ & _ & Hex).
  exists a. split; [exact Hrun|]. apply Hex. reflexivity.
Defined.

Lemma weekly_count_filter one_week_ago emails :
  weekly_count one_week_ago emails = len (filter (in_last_week one_week_ago) emails).
Proof.
  unfold weekly_count.
  assert (H : forall l n,
             fold_left (fun n e => match strptime_minute (date e) with
                                   | Ok email_date => if one_week_ago <? to_us email_date
                                                      then n + 1 else n
                                   | Raise _ => n
                                   end) l n
             = n + len (filter (in_last_week one_week_ago) l)).
  { induction l as [|e r IH]; intros n; cbn [fold_left filter].
    - unfold len. cbn. lia.
    - rewrite IH. unfold in_last_week at 2.
      destruct (strptime_minute (date e)) as [d|]; [|reflexivity].
      destruct (one_week_ago <? to_us d); [|reflexivity].
      unfold len. cbn [List.length]. lia. }
  rewrite H. lia.
Qed.

Lemma in_last_week_parses one_week_ago e :
  in_last_week one_week_ago e = in_last_week one_week_ago e && date_parses e.
Proof.
  unfold in_last_week, date_parses, parses.
  destruct (strptime_minute (date e)); [now rewrite andb_true_r|reflexivity].
Qed.

Lemma weekly_count_parsed one_week_ago emails :
  weekly_count one_week_ago (filter date_parses emails)
  = weekly_count one_week_ago emails.
Proof.
  rewrite !weekly_count_filter, filter_andb. f_equal.
  apply filter_ext. intros e. symmetry. apply in_last_week_parses.
Qed.

Lemma dates_of_parsed emails :
  dates_of (filter date_parses emails) = dates_of emails.
Proof.
  unfold dates_of. induction emails as [|e r IH]; cbn [filter flat_map]; [reflexivity|].
  unfold date_parses at 1, parses.
  destruct (strptime_minute (date e)) as [d|] eqn:E; cbn [flat_map].
  - now rewrite E, IH.
  - exact IH.
Qed.

Lemma total_words_sum emails :
  total_words emails = fold_right (fun e n => count_words (content e) + n) 0 emails.
Proof.
  unfold total_words.
  assert (H : forall l n,
             fold_left (fun n e => n + count_words (content e)) l n
             = n + fold_right (fun e n => count_words (content e) + n) 0 l).
  { induction l as [|e r IH]; intros n; cbn [fold_left fold_right]; [lia|].
    rewrite IH. lia. }
  rewrite H. lia.
Qed.

Lemma total_words_insert before e after :
  total_words (before ++ e :: after)
  = total_words (before ++ after) + count_words (content e).
Proof.
  rewrite !total_words_sum.
  induction before as [|x r IH]; cbn [app fold_right]; [lia|]. rewrite IH. lia.
Qed.

Lemma filter_insert_rejected {A} (p : A -> bool) before e after :
  p e = false -> filter p (before ++ e :: after) = filter p (before ++ after).
Proof.
  intros H. rewrite !filter_app. cbn [filter]. now rewrite H.
Qed.

(** C9.  With [now] at least seven days after [datetime.min], the
    analytics never raise, whatever the dates stored in the archive.  The
    two time-based metrics are those of the entries whose date parses:
    [weekly_emails] counts the entries whose date parses and is after
    [now - 7 days], [email_over_time] counts the days of the entries whose
    date parses.  [total_emails] is the size of the whole archive and
    [avg_length] divides the words of all entries by it.  So an entry whose
    date does not parse adds one to [total_emails] and its words to the
    word total, and nothing to the time-based metrics. *)
Theorem C9_malformed_dates :
  forall (w : world) (now : datetime),
    (8 * day_us <=? to_us now) = true ->
    let emails := saved_emails w in
    let parsed := filter date_parses emails in
    let one_week_ago := to_us now - 7 * day_us in
    exists a,
      get_analytics now w = (Ok a, w)
      /\ total_emails a = len emails
      /\ weekly_emails a = weekly_count one_week_ago parsed
      /\ weekly_emails a = len (filter (in_last_week one_week_ago) emails)
      /\ email_over_time a = count_keys (dates_of parsed)
      /\ avg_length a = total_words emails / Z.max 1 (len emails)
      /\ (forall before e after,
            emails = before ++ e :: after -> date_parses e = false ->
            total_emails a = len (before ++ after) + 1
            /\ weekly_emails a = weekly_count one_week_ago (before ++ after)
            /\ email_over_time a = count_keys (dates_of (before ++ after))
            /\ total_words emails
               = total_words (before ++ after) + count_words (content e)).
Proof.
  intros w now Hnow emails parsed one_week_ago.
  eexists. split; [apply get_analytics_run; assumption|].
  cbn [total_emails weekly_emails email_over_time avg_length].
  fold emails one_week_ago.
  split; [reflexivity|].
  split; [subst parsed; now rewrite weekly_count_parsed|].
  split; [apply weekly_count_filter|].
  split; [subst parsed; now rewrite dates_of_parsed|].
  split; [reflexivity|].
  intros before e after E Hbad. rewrite E.
  split; [unfold len; rewrite !length_app; cbn [List.length]; lia|].
  split; [|split].
  - rewrite <- (weekly_count_parsed _ (before ++ e :: after)),
            <- (weekly_count_parsed _ (before ++ after)).
    now rewrite (filter_insert_rejected date_parses).
  - rewrite <- (dates_of_parsed (before ++ e :: after)),
            <- (dates_of_parsed (before ++ after)).
    now rewrite (filter_insert_rejected date_parses).
  - apply total_words_insert.
Qed.

Lemma C9_malformed_dates_witness :
  (8 * day_us <=? to_us run_time) = true
  /\ date_parses (mkEmail "2_2000" "not a date" "Bob" "Initech" "Hello" "one") = false
  /\ count_words spaced_text = 5
  /\ exists a,
       get_analytics run_time (mkWorld FileMissing spaced_archive)
       = (Ok a, mkWorld FileMissing spaced_archive)
       /\ total_emails a = 2 /\ weekly_emails a = 1
       /\ email_over_time a = [("2024-03-07"%string, 1)]
       /\ avg_length a = 3.
Proof.
  split; [reflexivity|]. split; [reflexivity|]. split; [reflexivity|].
  destruct (C9_malformed_dates (mkWorld FileMissing spaced_archive) run_time eq_refl)
    as (a & Hrun & Htotal & Hweekly & _ & Htime & Havg & _).
  exists a. split; [exact Hrun|].
  split; [exact Htotal|]. split; [exact Hweekly|].
  split; [exact Htime|exact Havg].
Defined.

(* ================================================================== *)
(** * Further properties of the rate limiter *)

Lemma dict_mem_incr_table label session_id t l :
  dict_mem l (incr_table label session_id t) = String.eqb l label || dict_mem l t.
Proof.
  unfold incr_table, bump.
  assert (E : dict_mem l (ensure label t) = String.eqb l label || dict_mem l t).
  { unfold ensure. destruct (dict_mem label t) eqn:Em.
    - destruct (String.eqb_spec l label) as [->|]; [now rewrite Em|reflexivity].
    - apply dict_mem_set. }
  destruct (dict_get label (ensure label t)) eqn:Eg; [|exact E].
  rewrite dict_mem_set, E. now destruct (String.eqb l label).
Qed.

(** X1.  On a file that holds tables, [increment_rate_limit] never raises:
    it adds exactly one to the session's count in the bucket of the day and
    in the bucket of the hour of its clock, leaves every other count as it
    was, keeps every bucket that was there, and does not touch the
    archive. *)
Theorem X1_increment_exact :
  forall (s : store) (emails : list email) (session_id : string) (t : datetime),
    exists s',
      increment_rate_limit session_id t (mkWorld (file_of s) emails)
        = (Ok tt, mkWorld (file_of s') emails)
      /\ (forall label u,
            count (daily_of s') label u
            = count (daily_of s) label u
              + (if String.eqb (strftime_day t) label && String.eqb session_id u
                 then 1 else 0))
      /\ (forall label u,
            count (hourly_of s') label u
            = count (hourly_of s) label u
              + (if String.eqb (strftime_hour t) label && String.eqb session_id u
                 then 1 else 0))
      /\ (forall label, dict_mem label (daily_of s) = true ->
                        dict_mem label (daily_of s') = true)
      /\ (forall label, dict_mem label (hourly_of s) = true ->
                        dict_mem label (hourly_of s') = true).
Proof.
  intros s emails session_id t. exists (incr_store session_id t s).
  split; [apply increment_rate_limit_tables|].
  cbn [incr_store daily_of hourly_of].
  split; [intros; apply count_incr_table|].
  split; [intros; apply count_incr_table|].
  split; intros label H; rewrite dict_mem_incr_table, H; apply orb_true_r.
Qed.

Lemma X1_increment_exact_witness :
  dict_mem "2024-03-05" (daily_of c2_store) = true
  /\ exists s',
       increment_rate_limit "bob" c2_now (mkWorld (file_of c2_store) [])
       = (Ok tt, mkWorld (file_of s') [])
       /\ count (daily_of s') "2024-03-07" "bob" = 4
       /\ dict_mem "2024-03-05" (daily_of s') = true.
Proof.
  split; [reflexivity|].
  destruct (X1_increment_exact c2_store [] "bob"%string c2_now)
    as (s' & Hrun & Hd & _ & Hkeep & _).
  exists s'. split; [exact Hrun|]. split; [|apply Hkeep; reflexivity].
  rewrite Hd. reflexivity.
Defined.

(** X2.  The program keeps its own file readable: starting from no file,
    an unreadable file or well-formed tables, after any run of accepted
    generations at real clock times the file again holds well-formed
    tables, and [check_rate_limit] returns an answer (it does not raise)
    for every session and every clock value. *)
Theorem X2_file_stays_well_formed :
  forall (s : store) (emails : list email) (evs : list (string * datetime))
         (session_id : string) (now : datetime),
    wf_store s = true ->
    forallb (fun ev => valid_datetime (snd ev)) evs = true ->
    exists s' answer,
      accept_all evs (mkWorld (file_of s) emails) = (Ok tt, mkWorld (file_of s') emails)
      /\ wf_store s' = true
      /\ check_rate_limit session_id now (mkWorld (file_of s') emails)
         = (Ok answer, mkWorld (file_of s') emails).
Proof.
  intros s emails evs session_id now Hwf Hevs.
  exists (apply_events evs s). eexists.
  split; [apply accept_all_tables|].
  assert (Hwf' : wf_store (apply_events evs s) = true) by now apply wf_apply_events.
  split; [exact Hwf'|]. now apply check_rate_limit_tables.
Qed.

Lemma X2_file_stays_well_formed_witness :
  let evs := [("bob"%string, c2_now); ("eve"%string, run_time)] in
  wf_store BadFile = true
  /\ forallb (fun ev => valid_datetime (snd ev)) evs = true
  /\ exists s' answer,
       accept_all evs (mkWorld FileUnreadable []) = (Ok tt, mkWorld (file_of s') [])
       /\ wf_store s' = true
       /\ check_rate_limit "bob" c2_now (mkWorld (file_of s') [])
          = (Ok answer, mkWorld (file_of s') []).
Proof.
  intros evs. split; [reflexivity|]. split; [reflexivity|].
  exact (X2_file_stays_well_formed BadFile [] evs "bob"%string c2_now eq_refl eq_refl).
Defined.

Lemma accepted_in_none label_of session_id now evs :
  forallb (fun ev => negb (String.eqb (fst ev) session_id)) evs = true ->
  accepted_in label_of session_id now evs = 0.
Proof.
  unfold accepted_in. induction evs as [|ev r IH]; cbn [forallb filter]; [reflexivity|].
  rewrite andb_true_iff, negb_true_iff. intros [-> Hr]. cbn [andb]. now apply IH.
Qed.

(** X3.  Sessions do not interfere: accepted generations of other sessions
    leave the answer of [check_rate_limit] for a session as it was. *)
Theorem X3_sessions_are_independent :
  forall (s : store) (emails : list email) (evs : list (string * datetime))
         (session_id : string) (now : datetime),
    wf_store s = true -> valid_datetime now = true ->
    forallb (fun ev => valid_datetime (snd ev)) evs = true ->
    forallb (fun ev => negb (String.eqb (fst ev) session_id)) evs = true ->
    exists w',
      accept_all evs (mkWorld (file_of s) emails) = (Ok tt, w')
      /\ fst (check_rate_limit session_id now w')
         = fst (check_rate_limit session_id now (mkWorld (file_of s) emails)).
Proof.
  intros s emails evs session_id now Hwf Hv Hevs Hother.
  destruct (check_after_events s emails session_id now evs Hwf Hv Hevs)
    as (w' & Hrun & Hchk).
  exists w'. split; [exact Hrun|].
  rewrite Hchk, check_rate_limit_tables by assumption. cbn [fst].
  rewrite !accepted_in_none, !Z.add_0_r by assumption.
  now rewrite count_pruned_daily_today, count_pruned_hourly_now.
Qed.

Lemma X3_sessions_are_independent_witness :
  let evs := repeat ("eve"%string, c2_now) 20 in
  wf_store c2_store = true /\ valid_datetime c2_now = true
  /\ forallb (fun ev => valid_datetime (snd ev)) evs = true
  /\ forallb (fun ev => negb (String.eqb (fst ev) "bob")) evs = true
  /\ exists w',
       accept_all evs (mkWorld (file_of c2_store) []) = (Ok tt, w')
       /\ fst (check_rate_limit "bob" c2_now w')
          = fst (check_rate_limit "bob" c2_now (mkWorld (file_of c2_store) [])).
Proof.
  intros evs. do 4 (split; [reflexivity|]).
  exact (X3_sessions_are_independent c2_store [] evs "bob"%string c2_now
           eq_refl eq_refl eq_refl eq_refl).
Defined.

(** ** Labels and calendar fields *)

Lemma same_day_fields a b :
  same_day a b = true <-> day_start a = day_start b.
Proof.
  unfold same_day, day_start. rewrite !andb_true_iff, !Z.eqb_eq. split.
  - intros [[-> ->] ->]. reflexivity.
  - intros H. inversion H. auto.
Qed.

Lemma same_hour_fields a b :
  same_hour a b = true <-> hour_start a = hour_start b.
Proof.
  unfold same_hour, same_day, hour_start. rewrite !andb_true_iff, !Z.eqb_eq. split.
  - intros [[[-> ->] ->] ->]. reflexivity.
  - intros H. inversion H. auto.
Qed.

Lemma strftime_day_same a b :
  valid_datetime a = true -> valid_datetime b = true ->
  String.eqb (strftime_day a) (strftime_day b) = same_day a b.
Proof.
  intros Ha Hb. apply eq_true_iff_eq. rewrite String.eqb_eq, same_day_fields. split.
  - intros E. pose proof (strptime_strftime_day a Ha) as Pa.
    rewrite E, strptime_strftime_day in Pa by assumption. congruence.
  - intros E. unfold day_start in E. inversion E as [[Ey Em Ed]].
    unfold strftime_day. now rewrite Ey, Em, Ed.
Qed.

Lemma strftime_hour_same a b :
  valid_datetime a = true -> valid_datetime b = true ->
  String.eqb (strftime_hour a) (strftime_hour b) = same_hour a b.
Proof.
  intros Ha Hb. apply eq_true_iff_eq. rewrite String.eqb_eq, same_hour_fields. split.
  - intros E. pose proof (strptime_strftime_hour a Ha) as Pa.
    rewrite E, strptime_strftime_hour in Pa by assumption. congruence.
  - intros E. unfold hour_start in E. inversion E as [[Ey Em Ed Eh]].
    unfold strftime_hour, strftime_day. now rewrite Ey, Em, Ed, Eh.
Qed.

(** X4.  Bucket labels round-trip: for a real clock time, parsing the
    daily, hourly or minute label that [strftime] printed gives back the
    start of that day, hour or minute; so two times get the same daily
    label exactly when they fall in the same calendar day, and the same
    hourly label exactly when they fall in the same calendar hour. *)
Theorem X4_labels_round_trip :
  forall t t' : datetime,
    valid_datetime t = true -> valid_datetime t' = true ->
    strptime_day (strftime_day t) = Ok (day_start t)
    /\ strptime_hour (strftime_hour t) = Ok (hour_start t)
    /\ strptime_minute (strftime_minute t) = Ok (minute_start t)
    /\ (strftime_day t = strftime_day t' <-> same_day t t' = true)
    /\ (strftime_hour t = strftime_hour t' <-> same_hour t t' = true).
Proof.
  intros t t' Ht Ht'.
  split; [now apply strptime_strftime_day|].
  split; [now apply strptime_strftime_hour|].
  split; [now apply strptime_strftime_minute|].
  rewrite <- (strftime_day_same t t'), <- (strftime_hour_same t t') by assumption.
  rewrite !String.eqb_eq. tauto.
Qed.

Lemma X4_labels_round_trip_witness :
  valid_datetime c2_now = true /\ valid_datetime run_time = true
  /\ strptime_minute (strftime_minute c2_now) = Ok (minute_start c2_now)
  /\ strftime_hour c2_now = strftime_hour run_time.
Proof.
  pose proof (X4_labels_round_trip c2_now run_time eq_refl eq_refl)
    as (_ & _ & Hm & _ & Hh).
  split; [reflexivity|]. split; [reflexivity|]. split; [exact Hm|].
  apply Hh. reflexivity.
Defined.

Lemma accepted_in_day_fields session_id now evs :
  valid_datetime now = true ->
  forallb (fun ev => valid_datetime (snd ev)) evs = true ->
  accepted_in strftime_day session_id now evs
  = len (filter (fun ev => String.eqb (fst ev) session_id && same_day (snd ev) now) evs).
Proof.
  intros Hv. unfold accepted_in, len.
  induction evs as [|ev r IH]; cbn [forallb filter]; [reflexivity|].
  rewrite andb_true_iff. intros [He Hr].
  rewrite strftime_day_same by assumption.
  destruct (_ && _); cbn [List.length]; rewrite ?Nat2Z.inj_succ, IH by assumption;
    reflexivity.
Qed.

Lemma accepted_in_hour_fields session_id now evs :
  valid_datetime now = true ->
  forallb (fun ev => valid_datetime (snd ev)) evs = true ->
  accepted_in strftime_hour session_id now evs
  = len (filter (fun ev => String.eqb (fst ev) session_id && same_hour (snd ev) now) evs).
Proof.
  intros Hv. unfold accepted_in, len.
  induction evs as [|ev r IH]; cbn [forallb filter]; [reflexivity|].
  rewrite andb_true_iff. intros [He Hr].
  rewrite strftime_hour_same by assumption.
  destruct (_ && _); cbn [List.length]; rewrite ?Nat2Z.inj_succ, IH by assumption;
    reflexivity.
Qed.

(** X5.  The windows are calendar windows.  Starting without a file,
    after any run of accepted generations, [check_rate_limit] decides by
    the number of the session's generations in the calendar day of [now]
    and the number in the calendar hour of [now]; generations of an earlier
    hour no longer count against the hourly limit, so a session with no
    generation in the current hour and fewer than 15 in the current day is
    allowed. *)
Theorem X5_calendar_windows :
  forall (emails : list email) (evs : list (string * datetime))
         (session_id : string) (now : datetime),
    valid_datetime now = true ->
    forallb (fun ev => valid_datetime (snd ev)) evs = true ->
    let in_day := len (filter (fun ev => String.eqb (fst ev) session_id
                                         && same_day (snd ev) now) evs) in
    let in_hour := len (filter (fun ev => String.eqb (fst ev) session_id
                                          && same_hour (snd ev) now) evs) in
    exists w',
      accept_all evs (mkWorld FileMissing emails) = (Ok tt, w')
      /\ fst (check_rate_limit session_id now w') = Ok (limit_decision in_day in_hour)
      /\ (in_hour = 0 -> in_day < 15 ->
          fst (check_rate_limit session_id now w') = Ok (true, EmptyString)).
Proof.
  intros emails evs session_id now Hv Hevs in_day in_hour.
  destruct (check_after_events NoFile emails session_id now evs eq_refl Hv Hevs)
    as (w' & Hrun & Hchk).
  exists w'. split; [exact Hrun|].
  assert (E : fst (check_rate_limit session_id now w')
              = Ok (limit_decision in_day in_hour)).
  { rewrite Hchk. cbn [fst daily_of hourly_of count dict_get Z.add].
    now rewrite accepted_in_day_fields, accepted_in_hour_fields. }
  split; [exact E|]. intros Hh Hd. rewrite E, Hh. unfold limit_decision.
  destruct (Z.leb_spec 15 in_day); [lia|reflexivity].
Qed.

Lemma X5_calendar_windows_witness :
  let evs := repeat ("bob"%string, mkdt 2024 3 7 8 59 59 999999) 5 in
  valid_datetime c2_now = true
  /\ forallb (fun ev => valid_datetime (snd ev)) evs = true
  /\ exists w',
       accept_all evs (mkWorld FileMissing []) = (Ok tt, w')
       /\ fst (check_rate_limit "bob" c2_now w') = Ok (true, EmptyString).
Proof.
  intros evs. split; [reflexivity|]. split; [reflexivity|].
  destruct (X5_calendar_windows [] evs "bob"%string c2_now eq_refl eq_refl)
    as (w' & Hrun & _ & Hfree).
  exists w'. split; [exact Hrun|]. apply Hfree; [reflexivity|vm_compute; reflexivity].
Defined.

Lemma td_days_lt_one x : (td_days x <? 1) = (x <? day_us).
Proof.
  unfold td_days. assert (0 < day_us) by (unfold day_us, hour_us; lia).
  apply eq_true_iff_eq. rewrite !Z.ltb_lt. split; intros Hx.
  - destruct (Z.lt_ge_cases x day_us) as [|Hge]; [assumption|].
    assert (1 <= x / day_us) by (apply Z.div_le_lower_bound; lia). lia.
  - apply Z.div_lt_upper_bound; lia.
Qed.

(** X6.  What the clean-up loops keep, to the microsecond.  On well-formed
    tables both loops end normally; a daily bucket is in the table the
    check works on exactly when it is in the file and [now] is less than
    one whole day after the midnight its label names, an hourly bucket
    exactly when [now] is less than 3600 seconds after the hour its label
    names.  So a bucket exactly one day, or exactly one hour, old is already
    dropped, and a bucket labelled in the future is kept. *)
Theorem X6_pruning_boundary :
  forall (s : store) (now : datetime),
    wf_store s = true ->
    exists daily_limits hourly_limits,
      rbind (items (enc_table (daily_of s)))
            (fun its => prune strptime_day (recent_day now) its []) = Ok daily_limits
      /\ rbind (items (enc_table (hourly_of s)))
               (fun its => prune strptime_hour (recent_hour now) its []) = Ok hourly_limits
      /\ (forall label dt, strptime_day label = Ok dt ->
            dict_mem label daily_limits
            = dict_mem label (daily_of s) && (to_us now - to_us dt <? day_us))
      /\ (forall label dt, strptime_hour label = Ok dt ->
            dict_mem label hourly_limits
            = dict_mem label (hourly_of s) && (to_us now - to_us dt <? hour_us))
      /\ (forall label dt, strptime_day label = Ok dt ->
            to_us now - to_us dt = day_us -> dict_mem label daily_limits = false)
      /\ (forall label dt, strptime_day label = Ok dt ->
            dict_mem label (daily_of s) = true ->
            to_us now < to_us dt -> dict_mem label daily_limits = true).
Proof.
  intros s now Hwf. unfold wf_store in Hwf. apply andb_true_iff in Hwf.
  destruct Hwf as [Hd Hh].
  exists (map (fun kb => (fst kb, enc_bucket (snd kb))) (pruned_daily now (daily_of s))).
  exists (map (fun kb => (fst kb, enc_bucket (snd kb))) (pruned_hourly now (hourly_of s))).
  assert (Ed : forall label dt, strptime_day label = Ok dt ->
               dict_mem label (map (fun kb => (fst kb, enc_bucket (snd kb)))
                                   (pruned_daily now (daily_of s)))
               = dict_mem label (daily_of s) && (to_us now - to_us dt <? day_us)).
  { intros label dt Ep. rewrite dict_mem_map. unfold pruned_daily.
    rewrite dict_mem_pruned, Ep. unfold recent_day, dt_sub.
    rewrite td_days_lt_one. apply andb_comm. }
  split; [rewrite items_enc_table; cbn [rbind]; now apply prune_enc|].
  split; [rewrite items_enc_table; cbn [rbind]; now apply prune_enc|].
  split; [exact Ed|]. split; [|split].
  - intros label dt Ep. rewrite dict_mem_map. unfold pruned_hourly.
    rewrite dict_mem_pruned, Ep. unfold recent_hour, total_seconds_lt, dt_sub, hour_us.
    apply andb_comm.
  - intros label dt Ep Hage. rewrite (Ed _ _ Ep), Hage, Z.ltb_irrefl.
    apply andb_false_r.
  - intros label dt Ep Hin Hfut. rewrite (Ed _ _ Ep), Hin. cbn [andb].
    apply Z.ltb_lt. unfold day_us, hour_us. lia.
Qed.

Lemma X6_pruning_boundary_witness :
  let now := mkdt 2024 3 8 0 0 0 0 in
  let s := Tables [("2024-03-07"%string, [("bob"%string, 15)]);
                   ("2024-03-09"%string, [("bob"%string, 1)])] [] in
  wf_store s = true
  /\ exists daily_limits,
       rbind (items (enc_table (daily_of s)))
             (fun its => prune strptime_day (recent_day now) its []) = Ok daily_limits
       /\ dict_mem "2024-03-07" daily_limits = false
       /\ dict_mem "2024-03-09" daily_limits = true.
Proof.
  intros now s. split; [reflexivity|].
  destruct (X6_pruning_boundary s now eq_refl)
    as (dl & hl & Hd & _ & _ & _ & Hedge & Hfuture).
  exists dl. split; [exact Hd|]. split.
  - apply (Hedge _ (mkdt 2024 3 7 0 0 0 0)); reflexivity.
  - apply (Hfuture _ (mkdt 2024 3 9 0 0 0 0)); reflexivity.
Defined.

Lemma count_incr_table_ge label session_id t l u :
  count t l u <= count (incr_table label session_id t) l u.
Proof. rewrite count_incr_table. destruct (_ && _); lia. Qed.

Lemma apply_events_grows evs : forall s,
  (forall l u, count (daily_of s) l u <= count (daily_of (apply_events evs s)) l u)
  /\ (forall l u, count (hourly_of s) l u <= count (hourly_of (apply_events evs s)) l u)
  /\ (forall l, dict_mem l (daily_of s) = true ->
                dict_mem l (daily_of (apply_events evs s)) = true)
  /\ (forall l, dict_mem l (hourly_of s) = true ->
                dict_mem l (hourly_of (apply_events evs s)) = true).
Proof.
  induction evs as [|ev r IH]; intros s.
  - cbn. repeat split; intros; auto; lia.
  - cbn [apply_events fold_left]. fold (apply_events r (incr_store (fst ev) (snd ev) s)).
    destruct (IH (incr_store (fst ev) (snd ev) s)) as (Hd & Hh & Md & Mh).
    cbn [incr_store daily_of hourly_of] in Hd, Hh, Md, Mh.
    repeat split.
    + intros l u. etransitivity; [|apply Hd]. apply count_incr_table_ge.
    + intros l u. etransitivity; [|apply Hh]. apply count_incr_table_ge.
    + intros l Hl. apply Md. rewrite dict_mem_incr_table, Hl. apply orb_true_r.
    + intros l Hl. apply Mh. rewrite dict_mem_incr_table, Hl. apply orb_true_r.
Qed.

(** X7.  The persisted tables only grow.  Over any run of accepted
    generations no count in the file goes down and no bucket leaves the
    file: nothing that [increment_rate_limit] saves is ever pruned, however
    old it is. *)
Theorem X7_file_only_grows :
  forall (s : store) (emails : list email) (evs : list (string * datetime)),
    exists s',
      accept_all evs (mkWorld (file_of s) emails) = (Ok tt, mkWorld (file_of s') emails)
      /\ (forall label u, count (daily_of s) label u <= count (daily_of s') label u)
      /\ (forall label u, count (hourly_of s) label u <= count (hourly_of s') label u)
      /\ (forall label, dict_mem label (daily_of s) = true ->
                        dict_mem label (daily_of s') = true)
      /\ (forall label, dict_mem label (hourly_of s) = true ->
                        dict_mem label (hourly_of s') = true).
Proof.
  intros s emails evs. exists (apply_events evs s).
  split; [apply accept_all_tables|apply apply_events_grows].
Qed.

Lemma X7_file_only_grows_witness :
  let evs := repeat ("eve"%string, run_time) 3 in
  dict_mem "2024-03-05" (daily_of c2_store) = true
  /\ exists s',
       accept_all evs (mkWorld (file_of c2_store) [])
       = (Ok tt, mkWorld (file_of s') [])
       /\ dict_mem "2024-03-05" (daily_of s') = true
       /\ 40 <= count (daily_of s') "2024-03-05" "bob".
Proof.
  intros evs. split; [reflexivity|].
  destruct (X7_file_only_grows c2_store [] evs) as (s' & Hrun & Hd & _ & Hkeep & _).
  exists s'. split; [exact Hrun|]. split; [apply Hkeep; reflexivity|].
  exact (Hd "2024-03-05"%string "bob"%string).
Defined.

(* ================================================================== *)
(** * Further properties of the generation handler *)

Lemma to_int_not_nil n : Z.to_int n <> Decimal.Pos Decimal.Nil
                         /\ Z.to_int n <> Decimal.Neg Decimal.Nil.
Proof.
  destruct n as [|p|p]; cbn; split; try discriminate; intros H; inversion H as [E];
    now apply DecimalPos.Unsigned.to_uint_nonnil in E.
Qed.

(** [str] prints different integers differently. *)
Lemma str_inj a b : str a = str b -> a = b.
Proof.
  unfold str. intros E. apply DecimalZ.to_int_inj.
  destruct (to_int_not_nil a) as [Ha1 Ha2], (to_int_not_nil b) as [Hb1 Hb2].
  pose proof (NilZero.isi (Z.to_int a) Ha1 Ha2) as Ia.
  pose proof (NilZero.isi (Z.to_int b) Hb1 Hb2) as Ib.
  rewrite E in Ia. congruence.
Qed.

Lemma truthy_false s : truthy s = false <-> s = EmptyString.
Proof.
  unfold truthy. rewrite negb_false_iff. apply String.eqb_eq.
Qed.

(** ** No [HTTPException] comes out of the rate limiter *)

Lemma plain_rbind {A B} (r : result A) (k : A -> result B) :
  plain r = true -> (forall a, plain (k a) = true) -> plain (rbind r k) = true.
Proof. destruct r as [a|e]; cbn; auto. Qed.

Lemma plain_getitem v k : plain (getitem v k) = true.
Proof. destruct v; cbn; try reflexivity. now destruct (dict_get k d). Qed.

Lemma plain_setitem v k x : plain (setitem v k x) = true.
Proof. now destruct v. Qed.

Lemma plain_items v : plain (items v) = true.
Proof. now destruct v. Qed.

Lemma plain_get_method v k x : plain (get_method v k x) = true.
Proof. now destruct v. Qed.

Lemma plain_contains v k : plain (contains v k) = true.
Proof. now destruct v. Qed.

Lemma plain_ge_int v n : plain (ge_int v n) = true.
Proof. now destruct v. Qed.

Lemma plain_add_int v n : plain (add_int v n) = true.
Proof. now destruct v. Qed.

Lemma plain_make_datetime y m d h mi : plain (make_datetime y m d h mi) = true.
Proof. unfold make_datetime. now destruct (valid_datetime _). Qed.

Lemma plain_whole {A} (m : option (A * string)) : plain (whole m) = true.
Proof. destruct m as [[a [|c s]]|]; reflexivity. Qed.

Lemma plain_strptime_day s : plain (strptime_day s) = true.
Proof.
  unfold strptime_day. apply plain_rbind; [apply plain_whole|].
  intros [[y m] d]. apply plain_make_datetime.
Qed.

Lemma plain_strptime_hour s : plain (strptime_hour s) = true.
Proof.
  unfold strptime_hour. apply plain_rbind; [apply plain_whole|].
  intros [[[y m] d] h]. apply plain_make_datetime.
Qed.

Lemma plain_prune parse recent :
  (forall s, plain (parse s) = true) ->
  forall its acc, plain (prune parse recent its acc) = true.
Proof.
  intros Hp. induction its as [|[label users] rest IH]; intros acc; cbn [prune];
    [reflexivity|].
  apply plain_rbind; [apply Hp|]. intros dt. apply IH.
Qed.

Lemma plain_setitem2 v k1 k2 x : plain (setitem2 v k1 k2 x) = true.
Proof.
  unfold setitem2. apply plain_rbind; [apply plain_getitem|]. intros inner.
  apply plain_rbind; [apply plain_setitem|]. intros inner'. apply plain_setitem.
Qed.

Lemma plain_setitem3 v k1 k2 k3 x : plain (setitem3 v k1 k2 k3 x) = true.
Proof.
  unfold setitem3. repeat (apply plain_rbind; [first [apply plain_getitem
                                                    | apply plain_setitem]|intros ?]).
  apply plain_setitem.
Qed.

Lemma plain_init_bucket v table label : plain (init_bucket v table label) = true.
Proof.
  unfold init_bucket. apply plain_rbind; [apply plain_getitem|]. intros t.
  apply plain_rbind; [apply plain_contains|]. intros [|]; [reflexivity|].
  apply plain_setitem2.
Qed.

Lemma plain_current_count v table label u : plain (current_count v table label u) = true.
Proof.
  unfold current_count. apply plain_rbind; [apply plain_getitem|]. intros t.
  apply plain_rbind; [apply plain_getitem|]. intros users. apply plain_get_method.
Qed.

Lemma plain_bump_count v table label u : plain (bump_count v table label u) = true.
Proof.
  unfold bump_count. apply plain_rbind; [apply plain_current_count|]. intros c.
  apply plain_rbind; [apply plain_add_int|]. intros c'. apply plain_setitem3.
Qed.

(** The same for computations on the state. *)
Lemma plain_bind {A B} (c : M A) (k : A -> M B) :
  (forall w, plain (fst (c w)) = true) ->
  (forall a w, plain (fst (k a w)) = true) ->
  forall w, plain (fst (bind c k w)) = true.
Proof.
  intros Hc Hk w. unfold bind. specialize (Hc w).
  destruct (c w) as [[a|e] w']; [apply Hk|exact Hc].
Qed.

Lemma plain_load w : plain (fst (load_rate_limits w)) = true.
Proof. unfold load_rate_limits. now destruct (rate_limit_file w). Qed.

Ltac plain_step :=
  first [ apply plain_getitem | apply plain_setitem | apply plain_items
        | apply plain_init_bucket | apply plain_current_count
        | apply plain_bump_count | apply plain_ge_int
        | apply plain_prune; first [apply plain_strptime_day | apply plain_strptime_hour] ].

Lemma plain_check session_id now w :
  plain (fst (check_rate_limit session_id now w)) = true.
Proof.
  revert w. unfold check_rate_limit. cbv zeta.
  apply plain_bind; [apply plain_load|intros rate_limits].
  repeat (apply plain_bind; [intros w; unfold lift; cbn [fst]; plain_step|intros ?]).
  intros w. match goal with |- context [if ?b then _ else _] => destruct b end;
    [reflexivity|].
  revert w. apply plain_bind; [intros w; unfold lift; cbn [fst]; plain_step|].
  intros [|] w; reflexivity.
Qed.

Lemma plain_increment session_id t w :
  plain (fst (increment_rate_limit session_id t w)) = true.
Proof.
  revert w. unfold increment_rate_limit. cbv zeta.
  apply plain_bind; [apply plain_load|intros rate_limits].
  repeat (apply plain_bind; [intros w; unfold lift; cbn [fst]; plain_step|intros ?]).
  intros w. reflexivity.
Qed.

Lemma plain_status {A} (r : result A) :
  plain r = true -> status_of r = 200 \/ status_of r = 500.
Proof. destruct r as [a|[]]; cbn; auto; discriminate. Qed.

(** ** The handler, path by path *)

Lemma generate_email_run request env w :
  generate_email request env w
  = if negb (valid_request request)
    then (Raise (HTTPException 400 "All fields are required"), w)
    else
      match fst (check_rate_limit (session_of request env) (now_check env) w) with
      | Raise e => (Raise e, w)
      | Ok (false, limit_message) => (Raise (HTTPException 429 limit_message), w)
      | Ok (true, _) =>
          match increment_rate_limit (session_of request env) (now_increment env) w with
          | (Raise e, w2) => (Raise e, w2)
          | (Ok _, w2) =>
              match generate env with
              | inr msg =>
                  (Raise (HTTPException 500 ("Error generating email: " ++ msg)%string), w2)
              | inl text =>
                  (Ok (mkResponse text (email_subject request)),
                   mkWorld (rate_limit_file w2)
                           (saved_emails w2
                            ++ [new_entry request env (saved_emails w2) text]))
              end
          end
      end.
Proof.
  unfold generate_email. destruct (valid_request request); cbn [negb]; [|reflexivity].
  cbv zeta. unfold bind at 1.
  pose proof (read_only_check (session_of request env) (now_check env) w) as Hro.
  destruct (check_rate_limit (session_of request env) (now_check env) w)
    as [[[can limit_message]|e] w1]; cbn [fst snd] in Hro |- *; subst w1;
    [|reflexivity].
  destruct can; cbn [negb]; [|reflexivity].
  unfold bind at 1.
  destruct (increment_rate_limit (session_of request env) (now_increment env) w)
    as [[[]|e] w2]; [|reflexivity].
  destruct (generate env) as [text|msg]; reflexivity.
Qed.

(** X8.  A request is refused with status 400 exactly when one of
    [sender_company], [target_company], [person_name], [role] and
    [email_subject] is the empty string ([industry] is not looked at); the
    refusal comes before anything else, so neither the rate-limit file nor
    the archive changes. *)
Theorem X8_missing_field :
  forall (request : EmailGenerationRequest) (env : environment) (w : world),
    (valid_request request = false <->
       sender_company request = EmptyString \/ target_company request = EmptyString
       \/ person_name request = EmptyString \/ role request = EmptyString
       \/ email_subject request = EmptyString)
    /\ (valid_request request = false ->
        generate_email request env w
        = (Raise (HTTPException 400 "All fields are required"), w))
    /\ (status_of (fst (generate_email request env w)) = 400
        <-> valid_request request = false).
Proof.
  intros request env w. split; [|split].
  - unfold valid_request. cbn [forallb]. rewrite andb_true_r.
    rewrite <- !truthy_false.
    destruct (truthy (sender_company request)), (truthy (target_company request)),
      (truthy (person_name request)), (truthy (role request)),
      (truthy (email_subject request)); cbn; intuition congruence.
  - intros H. rewrite generate_email_run, H. reflexivity.
  - rewrite generate_email_run.
    destruct (valid_request request); cbn [negb]; [|split; reflexivity].
    split; [|discriminate]. intros H. exfalso. revert H.
    pose proof (plain_check (session_of request env) (now_check env) w) as Pc.
    destruct (fst (check_rate_limit _ _ w)) as [[[|] limit_message]|e].
    + pose proof (plain_increment (session_of request env) (now_increment env) w) as Pi.
      destruct (increment_rate_limit _ _ w) as [[[]|e] w2]; cbn [fst] in Pi |- *.
      * destruct (generate env); cbn; discriminate.
      * destruct e; cbn in Pi |- *; discriminate.
    + cbn. discriminate.
    + destruct e; cbn in Pc |- *; discriminate.
Qed.

Lemma X8_missing_field_witness :
  let request := mkRequest "Acme" "Globex" "Software" EmptyString "CTO" "Hello"
                           "Professional" "Concise" None None in
  let w := mkWorld (file_of c2_store) c6_archive in
  valid_request request = false
  /\ generate_email request (run_env 1000) w
     = (Raise (HTTPException 400 "All fields are required"), w).
Proof.
  intros request w. split; [reflexivity|].
  exact (proj1 (proj2 (X8_missing_field request (run_env 1000) w)) eq_refl).
Defined.

(** X9.  The statuses of the generation handler.  Every request ends with
    200, 400, 429 or 500.  It ends with 429 exactly when it is valid and
    [check_rate_limit] answers not-allowed, and then nothing has changed:
    no count, no archive entry.  It ends with 200 exactly when it is
    valid, the check allows it, the increment is saved and one of the two
    provider calls returns a text. *)
Theorem X9_status_codes :
  forall (request : EmailGenerationRequest) (env : environment) (w : world),
    let session_id := session_of request env in
    let answer := generate_email request env w in
    (status_of (fst answer) = 200 \/ status_of (fst answer) = 400
     \/ status_of (fst answer) = 429 \/ status_of (fst answer) = 500)
    /\ (status_of (fst answer) = 429 <->
          valid_request request = true
          /\ exists limit_message,
               fst (check_rate_limit session_id (now_check env) w)
               = Ok (false, limit_message))
    /\ (status_of (fst answer) = 429 -> snd answer = w)
    /\ (status_of (fst answer) = 200 <->
          valid_request request = true
          /\ (exists m, fst (check_rate_limit session_id (now_check env) w) = Ok (true, m))
          /\ fst (increment_rate_limit session_id (now_increment env) w) = Ok tt
          /\ exists text, generate env = inl text).
Proof.
  intros request env w session_id answer. subst answer session_id.
  rewrite generate_email_run.
  destruct (valid_request request); cbn [negb].
  2:{ cbn. repeat split; try tauto; try discriminate; intros; try reflexivity.
      - destruct H; discriminate.
      - destruct H; discriminate. }
  pose proof (plain_check (session_of request env) (now_check env) w) as Pc.
  destruct (fst (check_rate_limit _ _ w)) as [[[|] limit_message]|e].
  - pose proof (plain_increment (session_of request env) (now_increment env) w) as Pi.
    destruct (increment_rate_limit _ _ w) as [[[]|e] w2]; cbn [fst snd] in Pi |- *.
    + destruct (generate env) as [text|msg]; cbn [status_of].
      * split; [auto|]. split; [split; [discriminate|]|split; [discriminate|]].
        -- intros (_ & m & Hm). discriminate.
        -- split; [intros _|reflexivity]. repeat split; eauto.
      * split; [auto|]. split; [split; [discriminate|]|split; [discriminate|]].
        -- intros (_ & m & Hm). discriminate.
        -- split; [discriminate|]. intros (_ & _ & _ & text & Ht). discriminate.
    + destruct e; cbn in Pi |- *; try discriminate;
        (split; [auto|]; split; [split; [discriminate|]|split; [discriminate|]];
         [intros (_ & m & Hm); discriminate
         |split; [discriminate|]; intros (_ & _ & Hi & _); discriminate]).
  - cbn [status_of fst snd].
    split; [auto|]. split; [split; [intros _|reflexivity]|split; [reflexivity|]].
    + split; [reflexivity|eauto].
    + split; [discriminate|]. intros (_ & (m & Hm) & _). discriminate.
  - destruct e; cbn in Pc |- *; try discriminate;
      (split; [auto|]; split; [split; [discriminate|]|split; [discriminate|]];
       [intros (_ & m & Hm); discriminate
       |split; [discriminate|]; intros (_ & (m & Hm) & _); discriminate]).
Qed.

Lemma X9_status_codes_witness :
  let s := Tables [("2024-03-07"%string, [("s1"%string, 15)])] [] in
  let w := mkWorld (file_of s) c6_archive in
  valid_request run_request = true
  /\ fst (check_rate_limit (session_of run_request (run_env 1000))
                           (now_check (run_env 1000)) w) = Ok (false, daily_message)
  /\ status_of (fst (generate_email run_request (run_env 1000) w)) = 429
  /\ snd (generate_email run_request (run_env 1000) w) = w.
Proof.
  intros s w.
  pose proof (X9_status_codes run_request (run_env 1000) w) as (_ & H429 & Hsame & _).
  assert (Hc : fst (check_rate_limit (session_of run_request (run_env 1000))
                                     (now_check (run_env 1000)) w)
               = Ok (false, daily_message)) by reflexivity.
  assert (Hs : status_of (fst (generate_email run_request (run_env 1000) w)) = 429).
  { apply H429. split; [reflexivity|]. exists daily_message. exact Hc. }
  split; [reflexivity|]. split; [exact Hc|]. split; [exact Hs|]. exact (Hsame Hs).
Defined.

(** X10.  An accepted request, end to end.  On well-formed tables, when
    the request is valid, the session's counts in the current buckets are
    under both limits and a provider call returns a text, the handler
    answers 200 with the stripped text and the submitted subject, adds one
    to the session's counts in the buckets of the increment's clock, and
    appends exactly one entry, last in the archive, built from the request's
    contact name, target company and subject. *)
Theorem X10_accepted_request :
  forall (request : EmailGenerationRequest) (env : environment)
         (s : store) (emails : list email) (text : string),
    let session_id := session_of request env in
    valid_request request = true ->
    wf_store s = true -> valid_datetime (now_check env) = true ->
    count (daily_of s) (strftime_day (now_check env)) session_id < 15 ->
    count (hourly_of s) (strftime_hour (now_check env)) session_id < 5 ->
    generate env = inl text ->
    generate_email request env (mkWorld (file_of s) emails)
      = (Ok (mkResponse text (email_subject request)),
         mkWorld (file_of (incr_store session_id (now_increment env) s))
                 (emails ++ [new_entry request env emails text]))
    /\ recipient (new_entry request env emails text) = person_name request
    /\ company (new_entry request env emails text) = target_company request
    /\ subject (new_entry request env emails text) = email_subject request
    /\ content (new_entry request env emails text) = text
    /\ (forall raw, chat_completions env = Completed raw -> text = strip raw)
    /\ (forall m raw, chat_completions env = NoAttribute m ->
                      ChatCompletion env = Completed raw -> text = strip raw).
Proof.
  intros request env s emails text session_id Hvalid Hwf Hv Hd Hh Hgen.
  split; [|repeat split].
  - rewrite generate_email_run, Hvalid. cbn [negb].
    rewrite check_rate_limit_tables by assumption. cbn [fst].
    rewrite count_pruned_daily_today, count_pruned_hourly_now by assumption.
    fold session_id. unfold limit_decision.
    destruct (Z.leb_spec 15 (count (daily_of s) (strftime_day (now_check env)) session_id));
      [lia|].
    destruct (Z.leb_spec 5 (count (hourly_of s) (strftime_hour (now_check env)) session_id));
      [lia|].
    rewrite increment_rate_limit_tables, Hgen. reflexivity.
  - intros raw Hc. unfold generate in Hgen. rewrite Hc in Hgen. congruence.
  - intros m raw Hc Hl. unfold generate in Hgen. rewrite Hc, Hl in Hgen. congruence.
Qed.

Lemma X10_accepted_request_witness :
  valid_request run_request = true /\ wf_store c2_store = true
  /\ valid_datetime (now_check spaced_env) = true
  /\ generate spaced_env = inl "Hi there"%string
  /\ fst (generate_email run_request spaced_env (mkWorld (file_of c2_store) []))
     = Ok (mkResponse "Hi there" "Hello").
Proof.
  do 4 (split; [reflexivity|]).
  pose proof (X10_accepted_request run_request spaced_env c2_store []
                "Hi there"%string eq_refl eq_refl eq_refl eq_refl eq_refl eq_refl)
    as (Hrun & _).
  rewrite Hrun. reflexivity.
Defined.

Lemma accepted_in_other_draws label_of now r (earlier : list (Z * datetime)) :
  ~ In r (map fst earlier) ->
  accepted_in label_of (str r) now (map (fun p => (str (fst p), snd p)) earlier) = 0.
Proof.
  intros Hnew. apply accepted_in_none.
  induction earlier as [|p rest IH]; cbn [map forallb fst]; [reflexivity|].
  cbn [map In] in Hnew. apply andb_true_iff. split.
  - apply negb_true_iff, String.eqb_neq. intros E. apply str_inj in E. tauto.
  - apply IH. tauto.
Qed.

(** X11.  Requests without a session identifier are not limited.  When
    [session_id] is absent or empty the session is the decimal text of a
    fresh random number; a request whose number has not been drawn before
    passes [check_rate_limit] however many such requests were accepted
    earlier, so it is never answered with 429. *)
Theorem X11_anonymous_requests :
  forall (request : EmailGenerationRequest) (env : environment)
         (earlier : list (Z * datetime)) (emails : list email),
    (req_session_id request = None \/ req_session_id request = Some EmptyString) ->
    valid_datetime (now_check env) = true ->
    forallb (fun p => valid_datetime (snd p)) earlier = true ->
    ~ In (rand_session env) (map fst earlier) ->
    session_of request env = str (rand_session env)
    /\ exists w',
         accept_all (map (fun p => (str (fst p), snd p)) earlier)
                    (mkWorld FileMissing emails) = (Ok tt, w')
         /\ fst (check_rate_limit (session_of request env) (now_check env) w')
            = Ok (true, EmptyString)
         /\ status_of (fst (generate_email request env w')) <> 429.
Proof.
  intros request env earlier emails Hanon Hv Hearlier Hnew.
  assert (Hs : session_of request env = str (rand_session env)).
  { unfold session_of. destruct Hanon as [-> | ->]; reflexivity. }
  split; [exact Hs|].
  set (evs := map (fun p => (str (fst p), snd p)) earlier).
  assert (Hevs : forallb (fun ev => valid_datetime (snd ev)) evs = true).
  { subst evs. clear -Hearlier. induction earlier as [|p r IH]; [reflexivity|].
    cbn [map forallb snd] in *. apply andb_true_iff in Hearlier.
    destruct Hearlier as [-> Hr]. now apply IH. }
  exists (mkWorld (file_of (apply_events evs NoFile)) emails).
  split; [apply (accept_all_tables evs NoFile)|].
  assert (Hwf : wf_store (apply_events evs NoFile) = true)
    by (now apply wf_apply_events).
  assert (Hc : fst (check_rate_limit (session_of request env) (now_check env)
                      (mkWorld (file_of (apply_events evs NoFile)) emails))
               = Ok (true, EmptyString)).
  { rewrite check_rate_limit_tables by assumption. cbn [fst].
    rewrite count_pruned_daily_today, count_pruned_hourly_now by assumption.
    rewrite count_apply_events_daily, count_apply_events_hourly, Hs.
    subst evs. rewrite !accepted_in_other_draws by assumption. reflexivity. }
  split; [exact Hc|].
  rewrite generate_email_run, Hc.
  destruct (valid_request request); cbn [negb]; [|cbn; discriminate].
  rewrite increment_rate_limit_tables.
  destruct (generate env); cbn; discriminate.
Qed.

Lemma X11_anonymous_requests_witness :
  let request := mkRequest "Acme" "Globex" "Software" "Ann" "CTO" "Hello"
                           "Professional" "Concise" None None in
  let earlier := map (fun r => (r, run_time)) [10000; 10001; 10002; 10003; 10004; 10005] in
  req_session_id request = None
  /\ valid_datetime (now_check (run_env 1000)) = true
  /\ forallb (fun p => valid_datetime (snd p)) earlier = true
  /\ exists w',
       accept_all (map (fun p => (str (fst p), snd p)) earlier)
                  (mkWorld FileMissing []) = (Ok tt, w')
       /\ fst (check_rate_limit (session_of request (run_env 1000))
                                (now_check (run_env 1000)) w')
          = Ok (true, EmptyString).
Proof.
  intros request earlier. do 3 (split; [reflexivity|]).
  assert (Hnew : ~ In (rand_session (run_env 1000)) (map fst earlier)).
  { cbn. intros H. repeat (destruct H as [H|H]; [discriminate|]). exact H. }
  destruct (X11_anonymous_requests request (run_env 1000) earlier []
              (or_introl eq_refl) eq_refl eq_refl Hnew) as (_ & w' & Hrun & Hc & _).
  exists w'. split; [exact Hrun|exact Hc].
Defined.

(* ================================================================== *)
(** * Further properties of the archive *)

Lemma slice_index_inside n i : 0 <= i <= n -> slice_index n i = i.
Proof. intros H. unfold slice_index. destruct (Z.ltb_spec i 0); lia. Qed.

Lemma page_nonneg w limit offset :
  0 <= offset -> 0 <= limit ->
  fst (get_saved_emails limit offset w)
  = Ok (firstn (Z.to_nat limit) (skipn (Z.to_nat offset) (saved_emails w))).
Proof.
  intros Hoff Hlim. rewrite get_saved_emails_run. cbn [fst]. f_equal.
  set (emails := saved_emails w). pose proof (len_nonneg emails) as Hn.
  unfold py_slice. cbv zeta. rewrite !slice_index_inside by lia.
  destruct (Z.le_gt_cases (len emails) offset) as [Hge|Hlt].
  - rewrite (Z.min_r offset) by lia. rewrite to_nat_len, skipn_all.
    rewrite (skipn_all2 emails) by (unfold len in Hge; lia).
    now rewrite !firstn_nil.
  - rewrite (Z.min_l offset) by lia.
    rewrite <- (firstn_min_length (Z.to_nat limit)). f_equal.
    rewrite length_skipn. unfold len in *. lia.
Qed.

Lemma firstn_add {A} (a b : nat) (l : list A) :
  firstn (a + b) l = firstn a l ++ firstn b (skipn a l).
Proof.
  revert l. induction a as [|a IH]; intros l; [reflexivity|].
  destruct l as [|x r]; cbn [Nat.add firstn skipn app].
  - now rewrite firstn_nil.
  - now rewrite IH.
Qed.

Lemma skipn_add {A} (a b : nat) (l : list A) :
  skipn (a + b) l = skipn b (skipn a l).
Proof.
  revert l. induction a as [|a IH]; intros l; [reflexivity|].
  destruct l as [|x r]; cbn [Nat.add skipn]; [now rewrite skipn_nil|apply IH].
Qed.

(** X12.  Pages fit together.  For a non-negative offset and non-negative
    limits, the page of [a] entries at [offset] followed by the page of [b]
    entries at [offset + a] is the page of [a + b] entries at [offset]:
    walking the archive page by page neither skips nor repeats an entry.
    The page at offset 0 with the archive length as limit is the whole
    archive. *)
Theorem X12_pages_compose :
  forall (w : world) (offset a b : Z),
    0 <= offset -> 0 <= a -> 0 <= b ->
    exists p1 p2 p12,
      fst (get_saved_emails a offset w) = Ok p1
      /\ fst (get_saved_emails b (offset + a) w) = Ok p2
      /\ fst (get_saved_emails (a + b) offset w) = Ok p12
      /\ p1 ++ p2 = p12
      /\ fst (get_saved_emails (len (saved_emails w)) 0 w) = Ok (saved_emails w).
Proof.
  intros w offset a b Ho Ha Hb.
  do 3 eexists.
  split; [apply page_nonneg; lia|]. split; [apply page_nonneg; lia|].
  split; [apply page_nonneg; lia|]. split.
  - rewrite !Z2Nat.inj_add by lia. now rewrite firstn_add, skipn_add.
  - rewrite page_nonneg by (try apply len_nonneg; lia).
    rewrite to_nat_len. cbn [Z.to_nat skipn]. now rewrite firstn_all.
Qed.

Lemma X12_pages_compose_witness :
  let w := mkWorld FileMissing c9_archive in
  0 <= 0 /\ 0 <= 1
  /\ exists p1 p2,
       fst (get_saved_emails 1 0 w) = Ok p1
       /\ fst (get_saved_emails 1 1 w) = Ok p2
       /\ p1 ++ p2 = c9_archive.
Proof.
  intros w. split; [lia|]. split; [lia|].
  destruct (X12_pages_compose w 0 1 1) as (p1 & p2 & p12 & H1 & H2 & H12 & Happ & _);
    try lia.
  exists p1, p2. split; [exact H1|]. split; [exact H2|].
  rewrite Happ.
  assert (E : fst (get_saved_emails (1 + 1) 0 w) = Ok c9_archive) by reflexivity.
  rewrite H12 in E. now inversion E.
Defined.

(** X13.  A negative offset counts from the end.  The offset is capped at
    the archive length but not at zero, and a negative slice bound is
    relative to the end of the list: with offset [-k] and a limit that
    reaches the end, the handler returns the last [k] entries (the whole
    archive when [k] exceeds its length), not an empty page and not an
    error. *)
Theorem X13_negative_offset :
  forall (w : world) (limit k : Z),
    0 < k -> len (saved_emails w) <= limit - k ->
    fst (get_saved_emails limit (- k) w)
    = Ok (skipn (Z.to_nat (len (saved_emails w) - k)) (saved_emails w)).
Proof.
  intros w limit k Hk Hlim. rewrite get_saved_emails_run. cbn [fst]. f_equal.
  set (emails := saved_emails w) in *. pose proof (len_nonneg emails) as Hn.
  unfold py_slice. cbv zeta.
  rewrite (Z.min_l (- k)) by lia. rewrite (Z.min_r (- k + limit)) by lia.
  rewrite (slice_index_inside (len emails) (len emails)) by lia.
  assert (Ea : Z.to_nat (slice_index (len emails) (- k)) = Z.to_nat (len emails - k)).
  { unfold slice_index. destruct (Z.ltb_spec (- k) 0); lia. }
  rewrite Ea. apply firstn_all2. rewrite length_skipn.
  unfold slice_index. destruct (Z.ltb_spec (- k) 0); unfold len in *; lia.
Qed.

Lemma X13_negative_offset_witness :
  let w := mkWorld FileMissing c9_archive in
  0 < 1 /\ len (saved_emails w) <= 50 - 1
  /\ fst (get_saved_emails 50 (- 1) w)
     = Ok [mkEmail "2_2000" "not a date" "Bob" "Initech" "Hello"
                   "one two three four five"].
Proof.
  intros w.
  assert (H1 : 0 < 1) by lia.
  assert (H2 : len (saved_emails w) <= 50 - 1) by (vm_compute; discriminate).
  split; [exact H1|]. split; [exact H2|].
  exact (X13_negative_offset w 50 1 H1 H2).
Defined.

(** X14.  What a 200 answer means for the archive.  Whenever
    [generate_email] returns a response, a provider call returned its text,
    the response carries that text and the submitted subject, the archive
    is the old archive with one entry added at the end, and listing one
    entry at the old length returns exactly that entry (with offset 0 on an
    archive that was empty). *)
Theorem X14_generated_entry_is_listed :
  forall (request : EmailGenerationRequest) (env : environment)
         (w w' : world) (response : EmailResponse),
    generate_email request env w = (Ok response, w') ->
    exists text,
      generate env = inl text
      /\ email_text response = text
      /\ response_subject response = email_subject request
      /\ saved_emails w' = saved_emails w ++ [new_entry request env (saved_emails w) text]
      /\ fst (get_saved_emails 1 (len (saved_emails w)) w')
         = Ok [new_entry request env (saved_emails w) text].
Proof.
  intros request env w w' response Hrun.
  rewrite generate_email_run in Hrun.
  destruct (valid_request request); cbn [negb] in Hrun; [|discriminate].
  destruct (fst (check_rate_limit _ _ w)) as [[[|] m]|e]; try discriminate.
  pose proof (keeps_archive_increment (session_of request env) (now_increment env) w)
    as Hkeep.
  destruct (increment_rate_limit _ _ w) as [[[]|e] w2]; [|discriminate].
  cbn [snd] in Hkeep.
  destruct (generate env) as [text|msg]; [|discriminate].
  inversion Hrun; subst response w'. exists text. rewrite Hkeep.
  repeat split.
  rewrite page_nonneg by (try apply len_nonneg; lia).
  cbn [saved_emails]. rewrite to_nat_len, skipn_app, skipn_all, Nat.sub_diag.
  reflexivity.
Qed.

Lemma X14_generated_entry_is_listed_witness :
  let w := mkWorld FileMissing [] in
  exists response w',
    generate_email run_request spaced_env w = (Ok response, w')
    /\ email_text response = "Hi there"%string
    /\ fst (get_saved_emails 1 0 w')
       = Ok [mkEmail "1_1000" "2024-03-07 09:30" "Ann" "Globex" "Hello" "Hi there"].
Proof.
  intros w.
  exists (mkResponse "Hi there" "Hello").
  exists (snd (generate_email run_request spaced_env w)).
  assert (Hrun : generate_email run_request spaced_env w
                 = (Ok (mkResponse "Hi there" "Hello"),
                    snd (generate_email run_request spaced_env w)))
    by reflexivity.
  split; [exact Hrun|]. split; [reflexivity|].
  destruct (X14_generated_entry_is_listed _ _ _ _ _ Hrun)
    as (text & Hgen & _ & _ & _ & Hl).
  assert (E : generate spaced_env = inl "Hi there"%string) by reflexivity.
  rewrite Hgen in E. inversion E; subst text. exact Hl.
Defined.

(* ================================================================== *)
(** * What the handlers leave alone *)

Lemma get_analytics_read_only now w : snd (get_analytics now w) = w.
Proof.
  unfold get_analytics, bind, get_saved.
  destruct (saved_emails w) as [|e r]; [reflexivity|].
  unfold lift. now destruct (one_week_before now).
Qed.

Lemma generate_email_archive request env w :
  rate_limit_file (snd (generate_email request env w)) = rate_limit_file w
  /\ saved_emails (snd (generate_email request env w)) = saved_emails w
  \/ rate_limit_file (snd (generate_email request env w))
     = rate_limit_file (snd (increment_rate_limit (session_of request env)
                                                  (now_increment env) w))
     /\ (saved_emails (snd (generate_email request env w)) = saved_emails w
         \/ exists text,
              saved_emails (snd (generate_email request env w))
              = saved_emails w ++ [new_entry request env (saved_emails w) text]).
Proof.
  rewrite generate_email_run.
  destruct (valid_request request); cbn [negb]; [|left; split; reflexivity].
  destruct (fst (check_rate_limit _ _ w)) as [[[|] m]|e];
    [|left; split; reflexivity|left; split; reflexivity].
  pose proof (keeps_archive_increment (session_of request env) (now_increment env) w)
    as Hkeep.
  destruct (increment_rate_limit _ _ w) as [[[]|e] w2]; cbn [snd] in Hkeep |- *.
  - destruct (generate env) as [text|msg]; cbn [snd rate_limit_file saved_emails].
    + right. split; [reflexivity|]. right. exists text. now rewrite Hkeep.
    + right. split; [reflexivity|]. now left.
  - right. split; [reflexivity|]. now left.
Qed.

(** X15.  What each handler leaves alone.  Listing and analytics change
    nothing.  Deleting never touches the rate-limit file, and the archive
    it leaves is the old one without the entries of that identifier, the
    others in their order.  Generating never removes, changes or reorders an
    archive entry: the archive afterwards is the old one, or the old one
    with one entry added at the end. *)
Theorem X15_handler_frames :
  forall (w : world),
    (forall limit offset, handle (CallList limit offset) w = w)
    /\ (forall now, handle (CallAnalytics now) w = w)
    /\ (forall email_id,
          rate_limit_file (handle (CallDelete email_id) w) = rate_limit_file w
          /\ saved_emails (handle (CallDelete email_id) w)
             = filter (fun e => negb (String.eqb (id e) email_id)) (saved_emails w))
    /\ (forall request env,
          saved_emails (handle (CallGenerate request env) w) = saved_emails w
          \/ exists text,
               saved_emails (handle (CallGenerate request env) w)
               = saved_emails w ++ [new_entry request env (saved_emails w) text]).
Proof.
  intros w. split; [|split; [|split]].
  - intros limit offset. reflexivity.
  - intros now. apply get_analytics_read_only.
  - intros email_id. cbn [handle]. rewrite delete_email_run. split; reflexivity.
  - intros request env. cbn [handle].
    destruct (generate_email_archive request env w) as [[_ H]|[_ H]]; [now left|exact H].
Qed.

(** ** Identifiers without deletions *)

Lemma before_underscore_uint d r :
  before_underscore (NilEmpty.string_of_uint d ++ String "_" r)
  = NilEmpty.string_of_uint d.
Proof.
  induction d; cbn [NilEmpty.string_of_uint append before_underscore];
    try (change (Ascii.eqb _ "_") with false; cbv iota; now rewrite IHd).
  reflexivity.
Qed.

Lemma before_underscore_str n r :
  0 <= n -> before_underscore (str n ++ String "_" r) = str n.
Proof.
  intros Hn. unfold str. destruct n as [|p|p]; [reflexivity| |lia].
  cbn [Z.to_int NilZero.string_of_int]. unfold NilZero.string_of_uint.
  pose proof (DecimalPos.Unsigned.to_uint_nonnil p) as Hnil.
  destruct (Pos.to_uint p) eqn:E; [congruence|..]; rewrite <- E;
    apply before_underscore_uint.
Qed.

Lemma ids_in_order_app start emails e :
  ids_in_order start (emails ++ [e])
  = ids_in_order start emails
    && String.eqb (before_underscore (id e)) (str (start + len emails)).
Proof.
  revert start. induction emails as [|x r IH]; intros start.
  - cbn [app ids_in_order]. unfold len. cbn. now rewrite Z.add_0_r, andb_true_r.
  - cbn [app ids_in_order]. rewrite IH, <- andb_assoc.
    replace (start + len (x :: r)) with (start + 1 + len r)
      by (unfold len; cbn [List.length]; lia).
    reflexivity.
Qed.

Lemma ids_in_order_later start emails e :
  ids_in_order start emails = true -> In e emails ->
  exists j, start <= j /\ before_underscore (id e) = str j.
Proof.
  revert start. induction emails as [|x r IH]; intros start Hord Hin; [destruct Hin|].
  cbn [ids_in_order] in Hord. apply andb_true_iff in Hord. destruct Hord as [Hx Hr].
  destruct Hin as [->|Hin].
  - exists start. split; [lia|]. now apply String.eqb_eq.
  - destruct (IH _ Hr Hin) as (j & Hj & Ej). exists j. split; [lia|exact Ej].
Qed.

Lemma ids_in_order_NoDup start emails :
  ids_in_order start emails = true -> NoDup (map id emails).
Proof.
  revert start. induction emails as [|x r IH]; intros start Hord; [constructor|].
  cbn [ids_in_order] in Hord. apply andb_true_iff in Hord. destruct Hord as [Hx Hr].
  cbn [map]. constructor; [|now apply (IH (start + 1))].
  intros Hin. apply in_map_iff in Hin. destruct Hin as (e & Eid & He).
  destruct (ids_in_order_later _ _ _ Hr He) as (j & Hj & Ej).
  apply String.eqb_eq in Hx. rewrite <- Eid, Ej in Hx. apply str_inj in Hx. lia.
Qed.

Lemma serve_snoc calls c w : serve (calls ++ [c]) w = handle c (serve calls w).
Proof. unfold serve. now rewrite fold_left_app. Qed.

Lemma ids_in_order_serve calls : forall w,
  forallb (fun c => negb (is_delete c)) calls = true ->
  ids_in_order 1 (saved_emails w) = true ->
  ids_in_order 1 (saved_emails (serve calls w)) = true.
Proof.
  induction calls as [|c rest IH]; intros w Hnd Hord; [exact Hord|].
  cbn [forallb] in Hnd. apply andb_true_iff in Hnd. destruct Hnd as [Hc Hrest].
  cbn [serve fold_left]. apply (IH (handle c w)); [exact Hrest|].
  destruct c as [request env|email_id|limit offset|now]; [| discriminate | exact Hord |].
  - destruct (generate_email_archive request env w) as [[_ H]|[_ [H|(text & H)]]];
      cbn [handle]; rewrite H; try exact Hord.
    rewrite ids_in_order_app, Hord. cbn [andb new_entry id].
    apply String.eqb_eq. rewrite (Z.add_comm 1).
    apply before_underscore_str. pose proof (len_nonneg (saved_emails w)). lia.
  - cbn [handle]. now rewrite get_analytics_read_only.
Qed.

(** X17.  Without deletions identifiers are distinct.  From an empty
    archive, after any sequence of generation, listing and analytics calls
    (whatever the requests, the random draws, the clocks and the provider
    do), each entry's identifier starts with its position in the archive,
    so the identifiers of the archive are pairwise distinct. *)
Theorem X17_ids_distinct_without_delete :
  forall (calls : list handler_call) (w : world),
    saved_emails w = [] ->
    forallb (fun c => negb (is_delete c)) calls = true ->
    ids_in_order 1 (saved_emails (serve calls w)) = true
    /\ NoDup (map id (saved_emails (serve calls w))).
Proof.
  intros calls w Hempty Hnd.
  assert (H : ids_in_order 1 (saved_emails (serve calls w)) = true).
  { apply ids_in_order_serve; [exact Hnd|]. now rewrite Hempty. }
  split; [exact H|]. now apply (ids_in_order_NoDup 1).
Qed.

Lemma X17_ids_distinct_without_delete_witness :
  let calls := [CallGenerate run_request (run_env 2000); CallList 50 0;
                CallGenerate run_request (run_env 2000)] in
  forallb (fun c => negb (is_delete c)) calls = true
  /\ map id (saved_emails (serve calls (mkWorld FileMissing [])))
     = ["1_2000"; "2_2000"]%string
  /\ NoDup (map id (saved_emails (serve calls (mkWorld FileMissing [])))).
Proof.
  intros calls. split; [reflexivity|]. split; [reflexivity|].
  exact (proj2 (X17_ids_distinct_without_delete calls (mkWorld FileMissing [])
                  eq_refl eq_refl)).
Defined.

(* ================================================================== *)
(** * Further properties of the analytics *)

Lemma sum_values_dict_set k v d :
  sum_values (dict_set k v d) = sum_values d - get_or_zero d k + v.
Proof.
  unfold get_or_zero. induction d as [|[k0 v0] r IH]; cbn [dict_set dict_get sum_values fold_right snd].
  - lia.
  - destruct (String.eqb k k0); cbn [sum_values fold_right snd]; [lia|].
    fold (sum_values (dict_set k v r)) (sum_values r). rewrite IH. lia.
Qed.

Lemma sum_values_count_keys_into l : forall d,
  sum_values (count_keys_into d l) = sum_values d + len l.
Proof.
  induction l as [|x r IH]; intros d.
  - unfold count_keys_into, len. cbn [fold_left List.length Z.of_nat]. lia.
  - unfold count_keys_into in *. cbn [fold_left]. rewrite IH, sum_values_dict_set.
    unfold get_or_zero, len. cbn [List.length]. rewrite Nat2Z.inj_succ. lia.
Qed.

Lemma sum_values_count_keys l : sum_values (count_keys l) = len l.
Proof. unfold count_keys. now rewrite sum_values_count_keys_into. Qed.

Lemma sum_values_perm a b : Permutation a b -> sum_values a = sum_values b.
Proof.
  unfold sum_values. induction 1; cbn [fold_right]; lia.
Qed.

Lemma sum_values_firstn n d :
  Forall (fun kv => 0 <= snd kv) d -> sum_values (firstn n d) <= sum_values d.
Proof.
  intros H. revert n. induction H as [|kv r Hkv Hr IH]; intros [|n];
    cbn [firstn sum_values fold_right]; try lia.
  - fold (sum_values r).
    assert (0 <= sum_values r).
    { clear -Hr. induction Hr; cbn [sum_values fold_right]; [lia|].
      fold (sum_values l). lia. }
    lia.
  - fold (sum_values (firstn n r)) (sum_values r). specialize (IH n). lia.
Qed.

Lemma occurrences_nonneg c l : 0 <= occurrences c l.
Proof. unfold occurrences. apply len_nonneg. Qed.

Lemma count_keys_nonneg l : Forall (fun kv => 0 <= snd kv) (count_keys l).
Proof.
  rewrite count_keys_items, Forall_forall. intros kv Hin.
  apply in_map_iff in Hin. destruct Hin as (c & <- & _). apply occurrences_nonneg.
Qed.

Lemma len_dates_of emails : len (dates_of emails) = len (filter date_parses emails).
Proof.
  unfold len, dates_of. induction emails as [|e r IH]; cbn [flat_map filter]; [reflexivity|].
  unfold date_parses at 1, parses.
  destruct (strptime_minute (date e)); cbn [app List.length]; lia.
Qed.

Lemma filter_all_true {A} (p : A -> bool) (l : list A) :
  forallb p l = true -> filter p l = l.
Proof.
  induction l as [|x r IH]; cbn [forallb filter]; [reflexivity|].
  rewrite andb_true_iff. intros [-> Hr]. now rewrite IH.
Qed.

Lemma count_words_from_nonneg s : forall skip b, 0 <= count_words_from skip b s.
Proof.
  induction s as [|c r IH]; intros skip b; cbn [count_words_from]; [lia|].
  destruct skip as [|k]; [|apply IH].
  destruct (space_len (String c r)); [|apply IH].
  specialize (IH 0%nat true). destruct b; lia.
Qed.

Lemma total_words_nonneg emails : 0 <= total_words emails.
Proof.
  rewrite total_words_sum. induction emails as [|e r IH]; cbn [fold_right]; [lia|].
  pose proof (count_words_from_nonneg (content e) 0%nat false) as Hc.
  fold (count_words (content e)) in Hc. lia.
Qed.

Lemma len_filter_le {A} (p : A -> bool) (l : list A) : len (filter p l) <= len l.
Proof. pose proof (filter_length_split p l). pose proof (len_nonneg (filter (fun x => negb (p x)) l)). lia. Qed.

(** X18.  The counts of the analytics add up.  [email_over_time] has one
    row per distinct day and its counts add up to the number of entries
    whose date parses.  The counts of [top_companies] add up to at most
    [total_emails], and to exactly [total_emails] when the archive names at
    most ten distinct companies. *)
Theorem X18_analytics_sums :
  forall (w : world) (now : datetime),
    (8 * day_us <=? to_us now) = true ->
    let emails := saved_emails w in
    exists a,
      get_analytics now w = (Ok a, w)
      /\ NoDup (keys (email_over_time a))
      /\ sum_values (email_over_time a) = len (filter date_parses emails)
      /\ sum_values (email_over_time a) <= total_emails a
      /\ sum_values (top_companies a) <= total_emails a
      /\ (len (first_occurrences (map company emails)) <= 10 ->
          sum_values (top_companies a) = total_emails a).
Proof.
  intros w now Hnow emails.
  eexists. split; [apply get_analytics_run; assumption|].
  cbn [email_over_time top_companies total_emails]. fold emails.
  assert (Hall : sum_values (sorted_desc (count_keys (map company emails))) = len emails).
  { rewrite (sum_values_perm _ _ (sorted_desc_perm _)), sum_values_count_keys.
    unfold len. now rewrite length_map. }
  split; [|split; [|split; [|split]]].
  - rewrite count_keys_items. unfold keys. rewrite map_map. cbn [fst].
    rewrite map_id. apply first_occurrences_NoDup.
  - now rewrite sum_values_count_keys, len_dates_of.
  - rewrite sum_values_count_keys, len_dates_of. apply len_filter_le.
  - unfold top_companies_of. fold emails. rewrite <- Hall. apply sum_values_firstn.
    rewrite Forall_forall. intros kv Hin.
    apply (Permutation_in _ (sorted_desc_perm _)) in Hin.
    pose proof (count_keys_nonneg (map company emails)) as Hnn.
    rewrite Forall_forall in Hnn. now apply Hnn.
  - intros Hfew. unfold top_companies_of. fold emails. rewrite firstn_all2; [exact Hall|].
    rewrite (Permutation_length (sorted_desc_perm _)), count_keys_items, length_map.
    unfold len in Hfew. lia.
Qed.

Lemma X18_analytics_sums_witness :
  let w := mkWorld FileMissing c9_archive in
  (8 * day_us <=? to_us run_time) = true
  /\ len (first_occurrences (map company c9_archive)) <= 10
  /\ exists a,
       get_analytics run_time w = (Ok a, w)
       /\ sum_values (email_over_time a) = 1
       /\ sum_values (top_companies a) = 2.
Proof.
  intros w. split; [reflexivity|].
  assert (Hfew : len (first_occurrences (map company c9_archive)) <= 10)
    by (vm_compute; discriminate).
  split; [exact Hfew|].
  destruct (X18_analytics_sums w run_time eq_refl) as (a & Hrun & _ & Hd & _ & _ & Hc).
  exists a. split; [exact Hrun|]. split; [rewrite Hd; reflexivity|].
  rewrite (Hc Hfew).
  assert (E : get_analytics run_time w
              = (Ok (mkAnalytics 2 1 4 [("2024-03-07"%string, 1)]
                                 [("Globex"%string, 1); ("Initech"%string, 1)]), w))
    by reflexivity.
  rewrite Hrun in E. inversion E. reflexivity.
Defined.

(** X19.  Bounds.  [weekly_emails] lies between 0 and the number of
    entries whose date parses, which is at most [total_emails].  On a
    non-empty archive [avg_length] is the word total divided by the number
    of entries, rounded down: [avg_length * total_emails] is at most the
    word total, which is less than [(avg_length + 1) * total_emails]. *)
Theorem X19_analytics_bounds :
  forall (w : world) (now : datetime),
    (8 * day_us <=? to_us now) = true ->
    let emails := saved_emails w in
    exists a,
      get_analytics now w = (Ok a, w)
      /\ 0 <= weekly_emails a <= len (filter date_parses emails)
      /\ len (filter date_parses emails) <= total_emails a
      /\ 0 <= avg_length a
      /\ (emails <> [] ->
          avg_length a * total_emails a <= total_words emails
          /\ total_words emails < (avg_length a + 1) * total_emails a).
Proof.
  intros w now Hnow emails.
  eexists. split; [apply get_analytics_run; assumption|].
  cbn [weekly_emails total_emails avg_length]. fold emails.
  pose proof (len_nonneg emails) as Hn. pose proof (total_words_nonneg emails) as Hw.
  split; [|split; [apply len_filter_le|split]].
  - rewrite <- weekly_count_parsed, weekly_count_filter.
    split; [apply len_nonneg|apply len_filter_le].
  - apply Z.div_pos; lia.
  - intros Hne.
    assert (Hpos : 0 < len emails).
    { destruct emails; [congruence|]. unfold len. cbn [List.length]. lia. }
    rewrite Z.max_r by lia.
    pose proof (Z.mul_div_le (total_words emails) (len emails) Hpos).
    pose proof (Z.mul_succ_div_gt (total_words emails) (len emails) Hpos).
    split; lia.
Qed.

Lemma X19_analytics_bounds_witness :
  let w := mkWorld FileMissing spaced_archive in
  (8 * day_us <=? to_us run_time) = true /\ spaced_archive <> []
  /\ total_words spaced_archive = 6
  /\ exists a,
       get_analytics run_time w = (Ok a, w)
       /\ avg_length a * total_emails a <= 6 /\ 6 < (avg_length a + 1) * total_emails a.
Proof.
  intros w. split; [reflexivity|].
  assert (Hne : spaced_archive <> []) by discriminate.
  split; [exact Hne|]. split; [reflexivity|].
  destruct (X19_analytics_bounds w run_time eq_refl) as (a & Hrun & _ & _ & _ & Havg).
  exists a. split; [exact Hrun|]. exact (Havg Hne).
Defined.

(** X20.  Analytics at the edges.  [get_analytics] never changes the
    state.  On an empty archive it returns all zeros and empty lists for
    every clock value, before any date arithmetic.  On a non-empty archive
    with a clock less than seven days after [datetime.min], the
    subtraction of seven days is an [OverflowError], which the handler does
    not catch. *)
Theorem X20_analytics_edges :
  forall (w : world) (now : datetime),
    snd (get_analytics now w) = w
    /\ (saved_emails w = [] ->
        fst (get_analytics now w) = Ok (mkAnalytics 0 0 0 [] []))
    /\ (saved_emails w <> [] -> (8 * day_us <=? to_us now) = false ->
        fst (get_analytics now w) = Raise OverflowError
        /\ status_of (fst (get_analytics now w)) = 500).
Proof.
  intros w now. split; [apply get_analytics_read_only|]. split.
  - intros He. unfold get_analytics, bind, get_saved. now rewrite He.
  - intros Hne Hnow. apply Z.leb_gt in Hnow.
    unfold get_analytics, bind, get_saved.
    destruct (saved_emails w) as [|e r]; [congruence|].
    unfold lift, one_week_before. cbv zeta.
    destruct (Z.ltb_spec (to_us now - 7 * day_us) day_us); [split; reflexivity|lia].
Qed.

Lemma X20_analytics_edges_witness :
  let early := mkdt 1 1 3 12 0 0 0 in
  saved_emails (mkWorld FileMissing c9_archive) <> []
  /\ (8 * day_us <=? to_us early) = false
  /\ fst (get_analytics early (mkWorld FileMissing c9_archive)) = Raise OverflowError
  /\ fst (get_analytics early (mkWorld FileMissing [])) = Ok (mkAnalytics 0 0 0 [] []).
Proof.
  intros early.
  assert (Hne : saved_emails (mkWorld FileMissing c9_archive) <> []) by discriminate.
  split; [exact Hne|]. split; [reflexivity|].
  pose proof (X20_analytics_edges (mkWorld FileMissing c9_archive) early)
    as (_ & _ & Hover).
  pose proof (X20_analytics_edges (mkWorld FileMissing []) early) as (_ & Hempty & _).
  split; [exact (proj1 (Hover Hne eq_refl))|exact (Hempty eq_refl)].
Defined.

(** ** Entries written by the handler *)

Lemma date_parses_new_entry request env emails text :
  valid_datetime (now_saved env) = true ->
  strptime_minute (date (new_entry request env emails text))
  = Ok (minute_start (now_saved env)).
Proof. intros Hv. cbn [new_entry date]. now apply strptime_strftime_minute. Qed.

Lemma weekly_count_app one_week_ago a b :
  weekly_count one_week_ago (a ++ b)
  = weekly_count one_week_ago a + weekly_count one_week_ago b.
Proof.
  rewrite !weekly_count_filter, filter_app. unfold len. rewrite length_app. lia.
Qed.

(** X21.  A generated entry in the time-based metrics.  The date the
    handler stores is its clock cut to the minute, and it always parses.
    Adding the entry raises [weekly_emails] by one exactly when the start of
    that minute is later than [now - 7 days] (strictly), and adds the
    entry's calendar day to the days counted by [email_over_time]. *)
Theorem X21_generated_entry_in_metrics :
  forall (request : EmailGenerationRequest) (env : environment)
         (emails : list email) (text : string) (one_week_ago : Z),
    valid_datetime (now_saved env) = true ->
    let e := new_entry request env emails text in
    date_parses e = true
    /\ in_last_week one_week_ago e
       = (one_week_ago <? to_us (minute_start (now_saved env)))
    /\ weekly_count one_week_ago (emails ++ [e])
       = weekly_count one_week_ago emails
         + (if one_week_ago <? to_us (minute_start (now_saved env)) then 1 else 0)
    /\ dates_of (emails ++ [e]) = dates_of emails ++ [strftime_day (now_saved env)].
Proof.
  intros request env emails text one_week_ago Hv e.
  pose proof (date_parses_new_entry request env emails text Hv) as Hp. fold e in Hp.
  assert (Hweek : in_last_week one_week_ago e
                  = (one_week_ago <? to_us (minute_start (now_saved env)))).
  { unfold in_last_week. now rewrite Hp. }
  split; [unfold date_parses, parses; now rewrite Hp|].
  split; [exact Hweek|]. split.
  - rewrite weekly_count_app. f_equal.
    rewrite weekly_count_filter. cbn [filter]. rewrite Hweek.
    now destruct (one_week_ago <? _).
  - unfold dates_of. rewrite flat_map_app. cbn [flat_map]. rewrite Hp.
    now rewrite app_nil_r.
Qed.

Lemma X21_generated_entry_in_metrics_witness :
  let now := mkdt 2024 3 14 9 30 0 0 in
  let e := new_entry run_request (run_env 1000) [] "Dear Ann" in
  valid_datetime (now_saved (run_env 1000)) = true
  /\ date_parses e = true
  /\ weekly_count (to_us now - 7 * day_us) [e] = 0.
Proof.
  intros now e.
  destruct (X21_generated_entry_in_metrics run_request (run_env 1000) []
              "Dear Ann"%string (to_us now - 7 * day_us) eq_refl)
    as (Hp & _ & Hw & _).
  split; [reflexivity|]. split; [exact Hp|]. exact Hw.
Defined.

Lemma forallb_filter {A} (p q : A -> bool) (l : list A) :
  forallb p l = true -> forallb p (filter q l) = true.
Proof.
  induction l as [|x r IH]; cbn [forallb filter]; [reflexivity|].
  rewrite andb_true_iff. intros [Hx Hr].
  destruct (q x); cbn [forallb]; [rewrite Hx|]; now apply IH.
Qed.

Lemma dates_parse_handle c w :
  clock_valid c = true ->
  forallb date_parses (saved_emails w) = true ->
  forallb date_parses (saved_emails (handle c w)) = true.
Proof.
  intros Hc Hinv.
  destruct c as [request env|email_id|limit offset|now]; cbn [handle clock_valid] in *.
  - destruct (generate_email_archive request env w) as [[_ H]|[_ [H|(text & H)]]];
      rewrite H; try exact Hinv.
    rewrite forallb_app, Hinv. cbn [forallb andb]. rewrite andb_true_r.
    unfold date_parses, parses. now rewrite date_parses_new_entry.
  - rewrite delete_email_run. cbn [snd saved_emails]. now apply forallb_filter.
  - exact Hinv.
  - now rewrite get_analytics_read_only.
Qed.

(** X16.  Every date in the archive parses.  From an empty archive, after
    any sequence of handler calls whose clocks are real times, every stored
    date is one that the analytics can parse; so no entry is ever left out
    of the time-based metrics, and the counts of [email_over_time] add up
    to [total_emails]. *)
Theorem X16_stored_dates_parse :
  forall (calls : list handler_call) (w : world),
    saved_emails w = [] ->
    forallb clock_valid calls = true ->
    let w' := serve calls w in
    forallb date_parses (saved_emails w') = true
    /\ forall now, (8 * day_us <=? to_us now) = true ->
         exists a, get_analytics now w' = (Ok a, w')
                   /\ sum_values (email_over_time a) = total_emails a.
Proof.
  intros calls w Hempty Hclocks w'.
  assert (Hinv : forallb date_parses (saved_emails w') = true).
  { subst w'. assert (H0 : forallb date_parses (saved_emails w) = true)
      by now rewrite Hempty.
    clear Hempty. revert w H0.
    induction calls as [|c rest IH]; intros w H0; [exact H0|].
    cbn [forallb] in Hclocks. apply andb_true_iff in Hclocks.
    destruct Hclocks as [Hc Hrest]. cbn [serve fold_left].
    apply (IH Hrest). now apply dates_parse_handle. }
  split; [exact Hinv|]. intros now Hnow.
  eexists. split; [apply get_analytics_run; assumption|].
  cbn [email_over_time total_emails].
  rewrite sum_values_count_keys, len_dates_of. now rewrite filter_all_true.
Qed.

Lemma X16_stored_dates_parse_witness :
  let calls := [CallGenerate run_request (run_env 1000);
                CallGenerate run_request (run_env 2000);
                CallDelete "1_1000"; CallAnalytics run_time] in
  forallb clock_valid calls = true
  /\ forallb date_parses (saved_emails (serve calls (mkWorld FileMissing []))) = true.
Proof.
  intros calls. split; [reflexivity|].
  exact (proj1 (X16_stored_dates_parse calls (mkWorld FileMissing []) eq_refl eq_refl)).
Defined.

(* ================================================================== *)
(** * Limits over whole runs *)

Lemma len_filter_mono {A} (p q : A -> bool) (l : list A) :
  (forall x, p x = true -> q x = true) -> len (filter p l) <= len (filter q l).
Proof.
  intros Himp. unfold len. induction l as [|x r IH]; cbn [filter]; [lia|].
  destruct (p x) eqn:Ep.
  - rewrite (Himp _ Ep). cbn [List.length]. lia.
  - destruct (q x); cbn [List.length]; lia.
Qed.

(** X22.  The two tables agree.  Starting without a file, after any run of
    accepted generations at real clock times, a session's count in the
    bucket of an hour is never above its count in the bucket of the day
    that hour belongs to. *)
Theorem X22_hourly_within_daily :
  forall (emails : list email) (evs : list (string * datetime))
         (session_id : string) (t : datetime),
    valid_datetime t = true ->
    forallb (fun ev => valid_datetime (snd ev)) evs = true ->
    exists s,
      accept_all evs (mkWorld FileMissing emails) = (Ok tt, mkWorld (file_of s) emails)
      /\ count (hourly_of s) (strftime_hour t) session_id
         <= count (daily_of s) (strftime_day t) session_id.
Proof.
  intros emails evs session_id t Hv Hevs.
  exists (apply_events evs NoFile). split; [apply (accept_all_tables evs NoFile)|].
  rewrite count_apply_events_daily, count_apply_events_hourly.
  cbn [daily_of hourly_of count dict_get Z.add].
  rewrite accepted_in_day_fields, accepted_in_hour_fields by assumption.
  apply len_filter_mono. intros ev. unfold same_hour.
  rewrite !andb_true_iff. tauto.
Qed.

Lemma X22_hourly_within_daily_witness :
  let evs := [("bob"%string, c2_now); ("bob"%string, mkdt 2024 3 7 11 0 0 0)] in
  valid_datetime c2_now = true
  /\ forallb (fun ev => valid_datetime (snd ev)) evs = true
  /\ exists s,
       accept_all evs (mkWorld FileMissing []) = (Ok tt, mkWorld (file_of s) [])
       /\ count (hourly_of s) (strftime_hour c2_now) "bob"
          <= count (daily_of s) (strftime_day c2_now) "bob".
Proof.
  intros evs. split; [reflexivity|]. split; [reflexivity|].
  exact (X22_hourly_within_daily [] evs "bob"%string c2_now eq_refl eq_refl).
Defined.

Lemma same_hour_labels a b :
  same_hour a b = true ->
  strftime_day a = strftime_day b /\ strftime_hour a = strftime_hour b.
Proof.
  intros H. apply same_hour_fields in H. unfold hour_start in H.
  inversion H as [[Ey Em Ed Eh]].
  unfold strftime_hour, strftime_day. now rewrite Ey, Em, Ed, Eh.
Qed.

Lemma within_limits_incr s session_id t :
  within_limits s ->
  count (daily_of s) (strftime_day t) session_id < MAX_REQUESTS_PER_DAY ->
  count (hourly_of s) (strftime_hour t) session_id < MAX_REQUESTS_PER_HOUR ->
  within_limits (incr_store session_id t s).
Proof.
  intros Hin Hd Hh label u. destruct (Hin label u) as [Ld Lh].
  cbn [incr_store daily_of hourly_of]. rewrite !count_incr_table. split.
  - destruct (String.eqb_spec (strftime_day t) label) as [<-|];
      destruct (String.eqb_spec session_id u) as [<-|]; cbn [andb]; lia.
  - destruct (String.eqb_spec (strftime_hour t) label) as [<-|];
      destruct (String.eqb_spec session_id u) as [<-|]; cbn [andb]; lia.
Qed.

Lemma generate_keeps_limits request env s emails :
  clocks_agree (CallGenerate request env) = true ->
  wf_store s = true -> within_limits s ->
  exists s',
    rate_limit_file (snd (generate_email request env (mkWorld (file_of s) emails)))
    = file_of s'
    /\ wf_store s' = true /\ within_limits s'.
Proof.
  intros Hclocks Hwf Hin. cbn [clocks_agree] in Hclocks.
  apply andb_true_iff in Hclocks. destruct Hclocks as [Hclocks Hsame].
  apply andb_true_iff in Hclocks. destruct Hclocks as [Hvc Hvi].
  destruct (same_hour_labels _ _ Hsame) as [Eday Ehour].
  rewrite generate_email_run.
  destruct (valid_request request); cbn [negb]; [|exists s; auto].
  rewrite check_rate_limit_tables by assumption. cbn [fst].
  rewrite count_pruned_daily_today, count_pruned_hourly_now by assumption.
  unfold limit_decision.
  destruct (Z.leb_spec 15 (count (daily_of s) (strftime_day (now_check env))
                                 (session_of request env))) as [|Hd]; [exists s; auto|].
  destruct (Z.leb_spec 5 (count (hourly_of s) (strftime_hour (now_check env))
                                (session_of request env))) as [|Hh]; [exists s; auto|].
  rewrite increment_rate_limit_tables.
  exists (incr_store (session_of request env) (now_increment env) s).
  split; [destruct (generate env); reflexivity|].
  split; [now apply wf_incr_store|].
  apply within_limits_incr; [assumption|rewrite <- Eday|rewrite <- Ehour];
    unfold MAX_REQUESTS_PER_DAY, MAX_REQUESTS_PER_HOUR; assumption.
Qed.

Lemma handle_keeps_limits c w s :
  clocks_agree c = true ->
  rate_limit_file w = file_of s -> wf_store s = true -> within_limits s ->
  exists s',
    rate_limit_file (handle c w) = file_of s' /\ wf_store s' = true /\ within_limits s'.
Proof.
  intros Hc Hfile Hwf Hin.
  destruct c as [request env|email_id|limit offset|now]; cbn [handle].
  - destruct w as [file emails]. cbn [rate_limit_file] in Hfile. subst file.
    now apply generate_keeps_limits.
  - rewrite delete_email_run. exists s. auto.
  - exists s. auto.
  - rewrite get_analytics_read_only. exists s. auto.
Qed.

(** X23.  The limits hold over whole runs.  The check and the increment
    read the clock separately.  Starting without a file, after any sequence
    of handler calls in which the two clock readings of each generation are
    real times of the same calendar hour, the file holds well-formed tables
    in which no session has more than 15 in a daily bucket or more than 5
    in an hourly bucket. *)
Theorem X23_limits_hold_over_runs :
  forall (calls : list handler_call) (emails : list email),
    forallb clocks_agree calls = true ->
    exists s,
      rate_limit_file (serve calls (mkWorld FileMissing emails)) = file_of s
      /\ wf_store s = true
      /\ forall label u,
           count (daily_of s) label u <= 15 /\ count (hourly_of s) label u <= 5.
Proof.
  intros calls emails Hclocks.
  assert (H : forall w s,
             rate_limit_file w = file_of s -> wf_store s = true -> within_limits s ->
             exists s', rate_limit_file (serve calls w) = file_of s'
                        /\ wf_store s' = true /\ within_limits s').
  { induction calls as [|c rest IH]; intros w s Hfile Hwf Hin; [exists s; auto|].
    cbn [forallb] in Hclocks. apply andb_true_iff in Hclocks.
    destruct Hclocks as [Hc Hrest]. cbn [serve fold_left].
    destruct (handle_keeps_limits c w s Hc Hfile Hwf Hin) as (s1 & F1 & W1 & L1).
    exact (IH Hrest (handle c w) s1 F1 W1 L1). }
  destruct (H (mkWorld FileMissing emails) NoFile eq_refl eq_refl) as (s & F & W & L).
  { intros label u. cbn. unfold MAX_REQUESTS_PER_DAY, MAX_REQUESTS_PER_HOUR. lia. }
  exists s. split; [exact F|]. split; [exact W|]. exact L.
Qed.

Lemma X23_limits_hold_over_runs_witness :
  let calls := repeat (CallGenerate run_request (run_env 1000)) 8 in
  forallb clocks_agree calls = true
  /\ exists s,
       rate_limit_file (serve calls (mkWorld FileMissing [])) = file_of s
       /\ count (hourly_of s) (strftime_hour run_time) "s1" <= 5.
Proof.
  intros calls. split; [reflexivity|].
  destruct (X23_limits_hold_over_runs calls [] eq_refl) as (s & F & _ & L).
  exists s. split; [exact F|]. exact (proj2 (L _ _)).
Defined.
